(** * HLS sink: rolling playlist, key-unit scheduler and segment encryption

    A shallow embedding of [gstm3u8playlist.c] and [gsthlssink.c]
    (subprojects/gst-plugins-bad/ext/hls) and the properties of the
    playlist model, the boundary scheduler, the IV derivation and the
    per-segment encryption step.

    Conventions:
    - a [guint] is a [Z] in [0, 2^32), a [guint64] a [Z] in [0, 2^64);
      arithmetic on them wraps and the wrap is written out;
    - a [gfloat] is an IEEE 754 binary32 value and a [double] a binary64
      value, both carried by [spec_float] and computed with the operations
      of [SpecFloat] at the matching precision, rounding to nearest even;
    - a nullable pointer is an [option]; [g_return_val_if_fail] checks are
      compiled in;
    - C code whose behaviour is undefined (a floating-point value converted
      to an integer type that cannot hold it) returns [None];
    - what libraries and the system decide (whether a call fails, what a
      date looks like, how far a read gets) comes in as an environment
      record. *)

From Stdlib Require Import ZArith Lia Bool Ascii String DecimalString.
From Stdlib Require Import Floats.SpecFloat.
From stdpp Require Import gmap strings list.

Local Open Scope Z_scope.

(** ** C integer types *)

Module C.

Definition to_guint (z : Z) : Z := z mod 2 ^ 32.
Definition to_guint64 (z : Z) : Z := z mod 2 ^ 64.

(** The value [printf ("%d")] shows for a 32-bit argument. *)
Definition to_gint (z : Z) : Z :=
  let u := z mod 2 ^ 32 in
  if u <? 2 ^ 31 then u else u - 2 ^ 32.

End C.

(** ** Text helpers ([printf] conversions) *)

Module Text.

Definition nl : string := String "010"%char EmptyString.
Definition dquote : string := String "034"%char EmptyString.

(** [%d] and [%u] for a value already in the range of its type. *)
Definition decimal (z : Z) : string := NilZero.string_of_int (Z.to_int z).

Fixpoint zeros (n : nat) : string :=
  match n with
  | O => EmptyString
  | S n' => String "0"%char (zeros n')
  end.

(** [%0<w>d] for a non-negative value. *)
Definition decimal_pad (w : nat) (z : Z) : string :=
  let s := decimal z in
  zeros (w - String.length s) +:+ s.

End Text.

(** ** GLib: file names and date-times *)

Module GLib.

Definition slash : ascii := "/"%char.

(** Splits a file name at its last separator: the part before it (when
    there is a separator at all) and the part after it. *)
Fixpoint split_last_slash (s : string) : option string * string :=
  match s with
  | EmptyString => (None, EmptyString)
  | String c rest =>
      let '(d, b) := split_last_slash rest in
      match d with
      | Some d' => (Some (String c d'), b)
      | None =>
          if Ascii.eqb c slash then (Some EmptyString, b)
          else (None, String c b)
      end
  end.

Fixpoint strip_trailing_slashes (s : string) : string :=
  match s with
  | EmptyString => EmptyString
  | String c rest =>
      match strip_trailing_slashes rest with
      | EmptyString =>
          if Ascii.eqb c slash then EmptyString else String c EmptyString
      | rest' => String c rest'
      end
  end.

(** [g_path_get_basename], [g_path_get_dirname] and
    [g_build_filename (dir, name, NULL)] of GLib on '/'-separated names:
    [file_name] does not end in a separator and [name] holds none. *)
Definition g_path_get_basename (file_name : string) : string :=
  match file_name with
  | EmptyString => "."
  | _ => snd (split_last_slash file_name)
  end.

Definition g_path_get_dirname (file_name : string) : string :=
  match fst (split_last_slash file_name) with
  | None => "."
  | Some d =>
      match strip_trailing_slashes d with
      | EmptyString => "/"
      | d' => d'
      end
  end.

Definition g_build_filename (dir name : string) : string :=
  match dir with
  | EmptyString => name
  | _ =>
      match strip_trailing_slashes dir with
      | EmptyString => "/" +:+ name
      | d => d +:+ "/" +:+ name
      end
  end.

(** A [GDateTime], as far as the playlist looks at it: the text
    [g_date_time_format (dt, "%FT%T")] returns for it ([None] when the
    call returns NULL) and [g_date_time_get_microsecond (dt)]. *)
Record GDateTime := {
  date_time_format_FT : option string;
  date_time_microsecond : Z
}.

End GLib.

(** ** Floating point: binary32 ([gfloat]) and binary64 ([double]) *)

Module FP.

Definition gfloat := spec_float.
Definition double := spec_float.

(** Operands of mixed type are converted to the floating type first, and
    an operation is carried out in the type of its operands
    ([FLT_EVAL_METHOD] 0). *)

(** Integer to floating point, rounding to nearest even. *)
Definition f32_of_Z (z : Z) : gfloat := binary_normalize 24 128 z 0 false.
Definition f64_of_Z (z : Z) : double := binary_normalize 53 1024 z 0 false.

(** The promotion of a [gfloat] to [double] (exact). *)
Definition f64_of_f32 (x : gfloat) : double :=
  match x with
  | S754_finite s m e => binary_normalize 53 1024 (cond_Zopp s (Z.pos m)) e s
  | _ => x
  end.

Definition f32_add := SFadd 24 128.
Definition f32_div := SFdiv 24 128.
Definition f32_ltb := SFltb.
Definition f64_add := SFadd 53 1024.
Definition f64_mul := SFmul 53 1024.
Definition f64_div := SFdiv 53 1024.

(** The integer left when the fractional part is discarded, as a
    conversion to an integer type does; [None] for infinities and NaN. *)
Definition truncate (x : spec_float) : option Z :=
  match x with
  | S754_zero _ => Some 0
  | S754_finite s m e =>
      Some (cond_Zopp s (if e <? 0 then Z.pos m / 2 ^ (- e)
                         else Z.pos m * 2 ^ e))
  | _ => None
  end.

(** [ceil], read as an integer. *)
Definition ceiling (x : spec_float) : option Z :=
  match x with
  | S754_zero _ => Some 0
  | S754_finite s m e =>
      Some (if e <? 0 then - ((- cond_Zopp s (Z.pos m)) / 2 ^ (- e))
            else cond_Zopp s (Z.pos m) * 2 ^ e)
  | _ => None
  end.

(** Conversions to integer types: the value has to fit. *)
Definition in_range (lo hi : Z) (z : option Z) : option Z :=
  match z with
  | Some v => if (lo <=? v) && (v <? hi) then Some v else None
  | None => None
  end.

Definition to_guint (z : option Z) : option Z := in_range 0 (2 ^ 32) z.
Definition to_guint64 (z : option Z) : option Z := in_range 0 (2 ^ 64) z.
Definition to_gint (z : option Z) : option Z :=
  in_range (- 2 ^ 31) (2 ^ 31) z.

(** The integer nearest to [n / d] for [0 <= n] and [0 < d], ties to
    even. *)
Definition round_half_even (n d : Z) : Z :=
  let q := n / d in
  match 2 * (n mod d) ?= d with
  | Lt => q
  | Gt => q + 1
  | Eq => if Z.even q then q else q + 1
  end.

(** [printf ("%.6f")]. *)
Definition printf_f6 (x : double) : string :=
  let sign (s : bool) := if s then "-" else "" in
  match x with
  | S754_nan => "nan"
  | S754_infinity s => sign s +:+ "inf"
  | S754_zero s => sign s +:+ "0.000000"
  | S754_finite s m e =>
      let micro :=
        if e <? 0 then round_half_even (Z.pos m * 10 ^ 6) (2 ^ (- e))
        else Z.pos m * 2 ^ e * 10 ^ 6 in
      sign s +:+ Text.decimal (micro / 10 ^ 6) +:+ "."
        +:+ Text.decimal_pad 6 (micro mod 10 ^ 6)
  end.

End FP.

(** ** The playlist model ([gstm3u8playlist.c]) *)

Module M3U8.

Import GLib FP.

Definition GST_SECOND : Z := 1000000000.
Definition GST_MSECOND : Z := GST_SECOND / 1000.

Inductive playlist_type :=
| GST_M3U8_PLAYLIST_TYPE_EVENT
| GST_M3U8_PLAYLIST_TYPE_VOD.

Inductive GstHlsProgramDateTimeMode :=
| GST_HLS_PROGRAM_DATE_TIME_NEVER
| GST_HLS_PROGRAM_DATE_TIME_FIRST_CHUNK
| GST_HLS_PROGRAM_DATE_TIME_ALL_CHUNKS.

Record GstM3U8Entry := {
  duration : gfloat;
  title : option string;
  url : string;
  discontinuous : bool;
  program_date_time : option GDateTime
}.

(** Modelled from the spec: [struct _GstM3U8Playlist] is declared in
    gstm3u8playlist.h, which is not among the sources.  The fields are the
    ones gstm3u8playlist.c and gsthlssink.c read and write; [version],
    [window_size] and the two sequence numbers are [guint], [entries] is
    the [GQueue] of entries, oldest first. *)
Record GstM3U8Playlist := {
  version : Z;
  window_size : Z;
  type : playlist_type;
  end_list : bool;
  encryption_method : Z;
  key_location : option string;
  entries : list GstM3U8Entry;
  program_date_time_mode : GstHlsProgramDateTimeMode;
  sequence_number : Z;
  discontinuity_sequence_number : Z
}.

Definition set_entries (q : list GstM3U8Entry) (p : GstM3U8Playlist) :=
  {| version := version p; window_size := window_size p; type := type p;
     end_list := end_list p; encryption_method := encryption_method p;
     key_location := key_location p; entries := q;
     program_date_time_mode := program_date_time_mode p;
     sequence_number := sequence_number p;
     discontinuity_sequence_number := discontinuity_sequence_number p |}.

Definition set_sequence_number (n : Z) (p : GstM3U8Playlist) :=
  {| version := version p; window_size := window_size p; type := type p;
     end_list := end_list p; encryption_method := encryption_method p;
     key_location := key_location p; entries := entries p;
     program_date_time_mode := program_date_time_mode p;
     sequence_number := n;
     discontinuity_sequence_number := discontinuity_sequence_number p |}.

Definition set_end_list (b : bool) (p : GstM3U8Playlist) :=
  {| version := version p; window_size := window_size p; type := type p;
     end_list := b; encryption_method := encryption_method p;
     key_location := key_location p; entries := entries p;
     program_date_time_mode := program_date_time_mode p;
     sequence_number := sequence_number p;
     discontinuity_sequence_number := discontinuity_sequence_number p |}.


Definition gst_m3u8_entry_new (url title : option string)
    (duration : gfloat) (discontinuous : bool)
    (program_date_time : option GDateTime) : option GstM3U8Entry :=
  match url with
  | None => None
  | Some u =>
      Some {| duration := duration; title := title; url := u;
              discontinuous := discontinuous;
              program_date_time := program_date_time |}
  end.

Definition gst_m3u8_playlist_new (version window_size : Z)
    : GstM3U8Playlist :=
  {| version := version; window_size := window_size;
     type := GST_M3U8_PLAYLIST_TYPE_EVENT; end_list := false;
     encryption_method := 0; key_location := Some "playlist.key";
     entries := [];
     program_date_time_mode := GST_HLS_PROGRAM_DATE_TIME_ALL_CHUNKS;
     sequence_number := 0; discontinuity_sequence_number := 0 |}.

(** The loop [while (entries->length >= window_size) g_queue_pop_head],
    entered with [window_size > 0]. *)
Fixpoint delete_old_entries (window_size : Z) (q : list GstM3U8Entry)
    : list GstM3U8Entry :=
  match q with
  | [] => []
  | _ :: rest =>
      if window_size <=? Z.of_nat (length q)
      then delete_old_entries window_size rest
      else q
  end.

(** Returns the [gboolean] result and the playlist after the call. *)
Definition gst_m3u8_playlist_add_entry (playlist : option GstM3U8Playlist)
    (url title : option string) (duration : gfloat) (index : Z)
    (discontinuous : bool) (program_date_time : option GDateTime)
    : bool * option GstM3U8Playlist :=
  match playlist with
  | None => (false, None)
  | Some p =>
      match url with
      | None => (false, Some p)
      | Some _ =>
          match type p with
          | GST_M3U8_PLAYLIST_TYPE_VOD => (false, Some p)
          | GST_M3U8_PLAYLIST_TYPE_EVENT =>
              match gst_m3u8_entry_new url title duration discontinuous
                      program_date_time with
              | None => (false, Some p)
              | Some entry =>
                  let q :=
                    if 0 <? window_size p
                    then delete_old_entries (window_size p) (entries p)
                    else entries p in
                  (true,
                   Some (set_entries (q ++ [entry])
                           (set_sequence_number (C.to_guint (index + 1))
                              p)))
              end
          end
      end
  end.

(** The loop of [gst_m3u8_playlist_target_duration]: [target_duration] is
    a [guint64]; the comparison converts it to [gfloat], the assignment
    converts the [gfloat] back. *)
Fixpoint max_duration (q : list GstM3U8Entry) (target_duration : Z)
    : option Z :=
  match q with
  | [] => Some target_duration
  | entry :: rest =>
      if f32_ltb (f32_of_Z target_duration) (duration entry)
      then match to_guint64 (truncate (duration entry)) with
           | Some t => max_duration rest t
           | None => None
           end
      else max_duration rest target_duration
  end.

Definition gst_m3u8_playlist_target_duration (playlist : GstM3U8Playlist)
    : option Z :=
  match max_duration (entries playlist) 0 with
  | Some target_duration =>
      to_guint
        (ceiling
           (f64_div
              (f64_add (f64_of_Z target_duration)
                 (f64_mul (f64_of_Z 500) (f64_of_Z GST_MSECOND)))
              (f64_of_Z GST_SECOND)))
  | None => None
  end.

Definition encryption_method_to_string (method : Z) : option string :=
  if (0 <=? method) && (method <? 2)
  then Some (if method =? 0 then "NONE" else "AES-128")
  else None.

(** [%s] of GLib's [printf] for a possibly NULL string. *)
Definition printf_s (s : option string) : string :=
  match s with Some t => t | None => "(null)" end.

(** The text [format_program_date_time] appends; [is_head] says whether
    [entry] is the head of the queue. *)
Definition format_program_date_time (playlist : GstM3U8Playlist)
    (is_head : bool) (entry : GstM3U8Entry) : string :=
  match program_date_time_mode playlist with
  | GST_HLS_PROGRAM_DATE_TIME_NEVER => ""
  | mode =>
      let skip :=
        match mode with
        | GST_HLS_PROGRAM_DATE_TIME_FIRST_CHUNK =>
            negb is_head && negb (discontinuous entry)
        | _ => false
        end in
      if skip then ""
      else
        match program_date_time entry with
        | None => ""
        | Some dt =>
            match date_time_format_FT dt with
            | None => ""
            | Some time_str =>
                "#EXT-X-PROGRAM-DATE-TIME:" +:+ time_str +:+ "."
                  +:+ Text.decimal_pad 3 (date_time_microsecond dt / 1000)
                  +:+ "Z" +:+ Text.nl
            end
        end
  end.

(** The [#EXTINF] line of one entry. *)
Definition render_extinf (playlist : GstM3U8Playlist)
    (entry : GstM3U8Entry) : option string :=
  let title_str := match title entry with Some t => t | None => "" end in
  if version playlist <? 3 then
    match to_gint
            (truncate
               (f32_div
                  (f32_add (duration entry) (f32_of_Z (500 * GST_MSECOND)))
                  (f32_of_Z GST_SECOND))) with
    | Some secs =>
        Some ("#EXTINF:" +:+ Text.decimal secs +:+ "," +:+ title_str
                +:+ Text.nl)
    | None => None
    end
  else
    Some ("#EXTINF:"
            +:+ printf_f6
                  (f64_of_f32 (f32_div (duration entry)
                                 (f32_of_Z GST_SECOND)))
            +:+ "," +:+ title_str +:+ Text.nl).

(** The loop over the entries in [gst_m3u8_playlist_render]. *)
Fixpoint render_entries (playlist : GstM3U8Playlist) (is_head : bool)
    (q : list GstM3U8Entry) : option string :=
  match q with
  | [] => Some ""
  | entry :: rest =>
      match render_extinf playlist entry,
            render_entries playlist false rest with
      | Some extinf, Some tail =>
          Some ((if discontinuous entry
                 then "#EXT-X-DISCONTINUITY" +:+ Text.nl else "")
                  +:+ format_program_date_time playlist is_head entry
                  +:+ extinf
                  +:+ url entry +:+ Text.nl
                  +:+ tail)
      | _, _ => None
      end
  end.

Definition gst_m3u8_playlist_render (playlist : GstM3U8Playlist)
    : option string :=
  match gst_m3u8_playlist_target_duration playlist,
        render_entries playlist true (entries playlist) with
  | Some target, Some body =>
      Some ("#EXTM3U" +:+ Text.nl
              +:+ "#EXT-X-VERSION:"
              +:+ Text.decimal (C.to_gint (version playlist)) +:+ Text.nl
              +:+ "#EXT-X-MEDIA-SEQUENCE:"
              +:+ Text.decimal
                    (C.to_gint (sequence_number playlist
                                - Z.of_nat (length (entries playlist))))
              +:+ Text.nl
              +:+ "#EXT-X-TARGETDURATION:" +:+ Text.decimal target
              +:+ Text.nl
              +:+ (if negb (encryption_method playlist =? 0)
                      && bool_decide (is_Some (key_location playlist))
                   then "#EXT-X-KEY:METHOD="
                          +:+ printf_s (encryption_method_to_string
                                          (encryption_method playlist))
                          +:+ ",URI=" +:+ Text.dquote
                          +:+ printf_s (key_location playlist)
                          +:+ Text.dquote +:+ Text.nl
                   else "")
              +:+ Text.nl
              +:+ body
              +:+ (if end_list playlist then "#EXT-X-ENDLIST" else ""))
  | _, _ => None
  end.

(** Writes to the other fields of the playlist. *)
Definition set_window_size (w : Z) (p : GstM3U8Playlist) :=
  {| version := version p; window_size := w; type := type p;
     end_list := end_list p; encryption_method := encryption_method p;
     key_location := key_location p; entries := entries p;
     program_date_time_mode := program_date_time_mode p;
     sequence_number := sequence_number p;
     discontinuity_sequence_number := discontinuity_sequence_number p |}.

Definition set_encryption_method (m : Z) (p : GstM3U8Playlist) :=
  {| version := version p; window_size := window_size p; type := type p;
     end_list := end_list p; encryption_method := m;
     key_location := key_location p; entries := entries p;
     program_date_time_mode := program_date_time_mode p;
     sequence_number := sequence_number p;
     discontinuity_sequence_number := discontinuity_sequence_number p |}.

Definition set_key_location (k : option string) (p : GstM3U8Playlist) :=
  {| version := version p; window_size := window_size p; type := type p;
     end_list := end_list p; encryption_method := encryption_method p;
     key_location := k; entries := entries p;
     program_date_time_mode := program_date_time_mode p;
     sequence_number := sequence_number p;
     discontinuity_sequence_number := discontinuity_sequence_number p |}.

Definition set_program_date_time_mode (m : GstHlsProgramDateTimeMode)
    (p : GstM3U8Playlist) :=
  {| version := version p; window_size := window_size p; type := type p;
     end_list := end_list p; encryption_method := encryption_method p;
     key_location := key_location p; entries := entries p;
     program_date_time_mode := m;
     sequence_number := sequence_number p;
     discontinuity_sequence_number := discontinuity_sequence_number p |}.

Definition set_discontinuity_sequence_number (n : Z) (p : GstM3U8Playlist) :=
  {| version := version p; window_size := window_size p; type := type p;
     end_list := end_list p; encryption_method := encryption_method p;
     key_location := key_location p; entries := entries p;
     program_date_time_mode := program_date_time_mode p;
     sequence_number := sequence_number p;
     discontinuity_sequence_number := n |}.

End M3U8.

(** ** The sink ([gsthlssink.c]) *)

Module HlsSink.

Import GLib.

Definition GST_M3U8_PLAYLIST_VERSION : Z := 3.
Definition AES_BLOCK_SIZE : Z := 16.
Definition ENCRYPTED_CHUNK_FILENAME : string := "encrypted".
Definition DEFAULT_START_MEDIA_SEQUENCE : Z := -1.
Definition GST_HLS_SINK_ENC_NONE : Z := 0.
Definition GST_HLS_SINK_ENC_AES_128 : Z := 1.

(** Modelled from the spec: [GstM3U8PlaylistRenderState] is declared in
    gsthlssink.h, which is not among the sources; the three flags are
    distinct bits. *)
Definition GST_M3U8_PLAYLIST_RENDER_INIT : Z := 1.
Definition GST_M3U8_PLAYLIST_RENDER_STARTED : Z := 2.
Definition GST_M3U8_PLAYLIST_RENDER_ENDED : Z := 4.

(** Modelled from the spec: [struct _GstHlsSink] is declared in
    gsthlssink.h, which is not among the sources.  The fields are the ones
    the modelled functions read and write: [index] and [target_duration]
    are [guint], [last_running_time] is a [GstClockTime] ([guint64]), [key]
    holds [AES_BLOCK_SIZE] bytes. *)
Record GstHlsSink := {
  playlist_location : string;
  playlist_root : option string;
  playlist_length : Z;
  target_duration : Z;
  encryption_method : Z;
  is_reset_index_on_stop : bool;
  index : Z;
  playlist : option M3U8.GstM3U8Playlist;
  last_running_time : Z;
  waiting_fku : bool;
  state : Z;
  key : list Z
}.

Definition set_index (i : Z) (s : GstHlsSink) :=
  {| playlist_location := playlist_location s;
     playlist_root := playlist_root s;
     playlist_length := playlist_length s;
     target_duration := target_duration s;
     encryption_method := encryption_method s;
     is_reset_index_on_stop := is_reset_index_on_stop s;
     index := i; playlist := playlist s;
     last_running_time := last_running_time s;
     waiting_fku := waiting_fku s; state := state s; key := key s |}.

Definition set_playlist (p : option M3U8.GstM3U8Playlist)
    (s : GstHlsSink) :=
  {| playlist_location := playlist_location s;
     playlist_root := playlist_root s;
     playlist_length := playlist_length s;
     target_duration := target_duration s;
     encryption_method := encryption_method s;
     is_reset_index_on_stop := is_reset_index_on_stop s;
     index := index s; playlist := p;
     last_running_time := last_running_time s;
     waiting_fku := waiting_fku s; state := state s; key := key s |}.

Definition set_last_running_time (t : Z) (s : GstHlsSink) :=
  {| playlist_location := playlist_location s;
     playlist_root := playlist_root s;
     playlist_length := playlist_length s;
     target_duration := target_duration s;
     encryption_method := encryption_method s;
     is_reset_index_on_stop := is_reset_index_on_stop s;
     index := index s; playlist := playlist s;
     last_running_time := t;
     waiting_fku := waiting_fku s; state := state s; key := key s |}.

Definition set_waiting_fku (b : bool) (s : GstHlsSink) :=
  {| playlist_location := playlist_location s;
     playlist_root := playlist_root s;
     playlist_length := playlist_length s;
     target_duration := target_duration s;
     encryption_method := encryption_method s;
     is_reset_index_on_stop := is_reset_index_on_stop s;
     index := index s; playlist := playlist s;
     last_running_time := last_running_time s;
     waiting_fku := b; state := state s; key := key s |}.

Definition set_state (st : Z) (s : GstHlsSink) :=
  {| playlist_location := playlist_location s;
     playlist_root := playlist_root s;
     playlist_length := playlist_length s;
     target_duration := target_duration s;
     encryption_method := encryption_method s;
     is_reset_index_on_stop := is_reset_index_on_stop s;
     index := index s; playlist := playlist s;
     last_running_time := last_running_time s;
     waiting_fku := waiting_fku s; state := st; key := key s |}.

(** *** The world outside the sink *)

Inductive encrypt_outcome :=
| EncryptDone
| InitFailed
| OpenFailed
| StatFailed
| ReadFailed
| CipherFailed
| WriteFailed
| RenameFailed.

(** One entry per call of the segment handler and of the scheduler, in
    program order, with what the call did. *)
Inductive Effect :=
| PlaylistAppend (url : string) (res : bool)
| ChunkEncrypt (filename : string) (outcome : encrypt_outcome)
| PlaylistWrite (content : option string) (res : bool)
| ScheduleKeyUnit (request : option (Z * Z)) (res : bool).

(** The files on disk, by path, and the effects so far. *)
Record World := {
  files : gmap string (list Z);
  log : list Effect
}.

Definition set_files (fs : gmap string (list Z)) (w : World) :=
  {| files := fs; log := log w |}.

Definition emit (e : Effect) (w : World) :=
  {| files := files w; log := log w ++ [e] |}.

(** *** IV derivation *)

Inductive byte_order := G_LITTLE_ENDIAN | G_BIG_ENDIAN.

(** [GUINT32_SWAP_LE_BE]. *)
Definition GUINT32_SWAP_LE_BE (val : Z) : Z :=
  C.to_guint
    (Z.lor
       (Z.lor (Z.shiftl (Z.land val 255) 24)
              (Z.shiftl (Z.land val 65280) 8))
       (Z.lor (Z.shiftr (Z.land val 16711680) 8)
              (Z.shiftr (Z.land val 4278190080) 24))).

Definition GUINT_TO_BE (order : byte_order) (val : Z) : Z :=
  match order with
  | G_LITTLE_ENDIAN => GUINT32_SWAP_LE_BE val
  | G_BIG_ENDIAN => val
  end.

(** Byte [i] of the object representation of a [guint]:
    [((unsigned char * ) &val)[i]]. *)
Definition raw_byte (order : byte_order) (val : Z) (i : nat) : Z :=
  match order with
  | G_LITTLE_ENDIAN => Z.land (Z.shiftr val (8 * Z.of_nat i)) 255
  | G_BIG_ENDIAN => Z.land (Z.shiftr val (8 * (3 - Z.of_nat i))) 255
  end.

(** The loop [for (i = 0; i != n; ++i) iv[16 - 4 + i] = raw[i]], from
    [i = from]; [sizeof (guint)] is 4. *)
Fixpoint copy_raw (order : byte_order) (index_be : Z) (from n : nat)
    (iv : list Z) : list Z :=
  match n with
  | O => iv
  | S n' =>
      copy_raw order index_be (S from) n'
        (<[(Z.to_nat AES_BLOCK_SIZE - 4 + from)%nat :=
             raw_byte order index_be from]> iv)
  end.

Definition gst_hls_sink_create_iv (order : byte_order) (sink : GstHlsSink)
    (iv : list Z) : list Z :=
  let index_be := GUINT_TO_BE order (index sink) in
  copy_raw order index_be 0 4 iv.

(** *** Encryption of a finished segment *)

Inductive crypto_backend := HAVE_OPENSSL | HAVE_NETTLE | HAVE_GCRYPT.

(** What the build and the environment decide during one call of
    [gst_hls_sink_encrypt_chunk]: the host byte order, the cipher library
    and its AES-128-CBC function (key, IV, block-aligned plaintext), and
    the outcome of each library and system call.  [read_stop = Some n]
    and [write_stop = Some n]: the transfer stops after at most [n] bytes;
    a read that stops early sets the stream's error indicator. *)
Record EncryptEnv := {
  host_order : byte_order;
  backend : crypto_backend;
  aes_128_cbc : list Z -> list Z -> list Z -> list Z;
  init_ok : bool;
  open_chunk_ok : bool;
  open_encrypted_ok : bool;
  stat_ok : bool;
  read_stop : option nat;
  cipher_ok : bool;
  write_stop : option nat;
  rename_ok : bool
}.

Record crypto_ctx_t := { ctx_key : list Z; ctx_iv : list Z }.

Definition gst_hls_sink_init_encrypting (env : EncryptEnv)
    (sink : GstHlsSink) : option crypto_ctx_t :=
  let iv :=
    gst_hls_sink_create_iv (host_order env) sink
      (replicate (Z.to_nat AES_BLOCK_SIZE) 0) in
  let ctx := {| ctx_key := key sink; ctx_iv := iv |} in
  match backend env with
  | HAVE_NETTLE => Some ctx
  | _ => if init_ok env then Some ctx else None
  end.

(** [add_padding] on a buffer whose first [size] bytes are [data]. *)
Definition add_padding (data : list Z) : list Z :=
  let size := Z.of_nat (length data) in
  let padding := AES_BLOCK_SIZE - size mod AES_BLOCK_SIZE in
  data ++ replicate (Z.to_nat padding) padding.

Definition encrypted_chunk_path (filename : string) : string :=
  g_build_filename (g_path_get_dirname filename) ENCRYPTED_CHUNK_FILENAME.

Definition gst_hls_sink_encrypt_chunk (env : EncryptEnv)
    (sink : GstHlsSink) (filename : string) (fs : gmap string (list Z))
    : encrypt_outcome * gmap string (list Z) :=
  match gst_hls_sink_init_encrypting env sink with
  | None => (InitFailed, fs)
  | Some ctx =>
      let chunk :=
        open_chunk_ok env && bool_decide (is_Some (fs !! filename)) in
      let encrypted := open_encrypted_ok env in
      let fs1 :=
        if encrypted then <[encrypted_chunk_path filename := []]> fs
        else fs in
      if negb chunk || negb encrypted then (OpenFailed, fs1)
      else if negb (stat_ok env) then (StatFailed, fs1)
      else
        let content := default [] (fs1 !! filename) in
        let st_size := length content in
        let data :=
          match read_stop env with
          | Some n => take n content
          | None => content
          end in
        let size := length data in
        let ferror := bool_decide (size < st_size)%nat in
        if (size =? 0)%nat && ferror then (ReadFailed, fs1)
        else
          let padded := add_padding data in
          let final_size := length padded in
          let out :=
            resize final_size 0
              (aes_128_cbc env (ctx_key ctx) (ctx_iv ctx) padded) in
          let cipher_failed :=
            match backend env with
            | HAVE_NETTLE => false
            | _ => negb (cipher_ok env)
            end in
          if cipher_failed then (CipherFailed, fs1)
          else
            let written :=
              match write_stop env with
              | Some n => take n out
              | None => out
              end in
            let fs2 := <[encrypted_chunk_path filename := written]> fs1 in
            if negb (length written =? final_size)%nat
            then (WriteFailed, fs2)
            else if rename_ok env
            then (EncryptDone,
                  <[filename := written]>
                    (delete (encrypted_chunk_path filename) fs2))
            else (RenameFailed, fs2)
  end.


(** *** The sink and the world as one state *)

Definition M (A : Type) : Type :=
  GstHlsSink * World -> A * (GstHlsSink * World).

Definition ret {A : Type} (a : A) : M A := fun st => (a, st).

Definition bind {A B : Type} (m : M A) (k : A -> M B) : M B :=
  fun st => k (fst (m st)) (snd (m st)).

Definition get_sink : M GstHlsSink := fun st => (fst st, st).
Definition get_world : M World := fun st => (snd st, st).

Definition update_sink (f : GstHlsSink -> GstHlsSink) : M unit :=
  fun st => (tt, (f (fst st), snd st)).

Definition update_world (f : World -> World) : M unit :=
  fun st => (tt, (fst st, f (snd st))).

#[global] Instance M_ret : MRet M := @ret.
#[global] Instance M_bind : MBind M := fun A B k m => bind m k.

Definition exec {A : Type} (m : M A) (st : GstHlsSink * World)
    : GstHlsSink * World := snd (m st).

(** *** Reset *)

Definition gst_hls_sink_reset (sink : GstHlsSink) : GstHlsSink :=
  let s1 :=
    if is_reset_index_on_stop sink
    then set_playlist None
           (set_index (C.to_guint DEFAULT_START_MEDIA_SEQUENCE) sink)
    else sink in
  let s2 :=
    match playlist s1 with
    | None =>
        set_playlist
          (Some (M3U8.gst_m3u8_playlist_new GST_M3U8_PLAYLIST_VERSION
                   (playlist_length s1))) s1
    | Some _ => s1
    end in
  set_state GST_M3U8_PLAYLIST_RENDER_INIT
    (set_waiting_fku false (set_last_running_time 0 s2)).

(** *** Writing the playlist *)

Definition bytes_of_string (s : string) : list Z :=
  map (fun c => Z.of_N (N_of_ascii c)) (list_ascii_of_string s).

(** [g_file_set_contents] replaces the file as a whole or leaves it; a
    rendering that is not defined writes nothing. *)
Definition gst_hls_sink_write_playlist (write_ok : bool) : M unit :=
  sink ← get_sink;
  let playlist_content :=
    match playlist sink with
    | Some p => M3U8.gst_m3u8_playlist_render p
    | None => None
    end in
  match playlist_content with
  | Some text =>
      (if write_ok
       then update_world
              (fun w => set_files
                          (<[playlist_location sink := bytes_of_string text]>
                             (files w)) w)
       else ret tt) ;;
      update_world (emit (PlaylistWrite playlist_content write_ok))
  | None => update_world (emit (PlaylistWrite None false))
  end.

(** *** The boundary scheduler *)

(** [push_ok] is the result of [gst_pad_push_event]. *)
Definition schedule_next_key_unit (push_ok : bool) : M bool :=
  sink ← get_sink;
  if target_duration sink =? 0 then
    update_world (emit (ScheduleKeyUnit None true)) ;;
    update_sink (set_waiting_fku true) ;;
    ret true
  else
    let running_time :=
      C.to_guint64
        (last_running_time sink + target_duration sink * M3U8.GST_SECOND) in
    let res := push_ok in
    update_world
      (emit (ScheduleKeyUnit
               (Some (running_time, C.to_guint (index sink + 1))) res)) ;;
    update_sink (set_waiting_fku res) ;;
    ret res.

(** A buffer seen by the probe: its timestamp ([None] for
    [GST_CLOCK_TIME_NONE]), the running time [gst_segment_to_running_time]
    gives for it, and what [gst_pad_push_event] would return. *)
Record Observation := {
  buffer_timestamp : option Z;
  buffer_running_time : Z;
  push_ok : bool
}.

Definition gst_hls_sink_check_schedule_next_key_unit (o : Observation)
    : M unit :=
  match buffer_timestamp o with
  | None => ret tt
  | Some _ =>
      update_sink (set_last_running_time (buffer_running_time o)) ;;
      _ ← schedule_next_key_unit (push_ok o);
      ret tt
  end.

Definition gst_hls_sink_ghost_buffer_probe (o : Observation) : M unit :=
  sink ← get_sink;
  if (target_duration sink =? 0) || waiting_fku sink then ret tt
  else gst_hls_sink_check_schedule_next_key_unit o.

(** The probe on each buffer of a stream, in order. *)
Fixpoint observe (os : list Observation) : M unit :=
  match os with
  | [] => ret tt
  | o :: rest => gst_hls_sink_ghost_buffer_probe o ;; observe rest
  end.

(** *** Messages from the bin *)

Inductive GstMessage :=
| GST_MESSAGE_ELEMENT (structure_name filename : string) (running_time : Z)
| GST_MESSAGE_EOS
| GST_MESSAGE_OTHER.

(** What the environment decides while one message is handled.
    [gst_m3u8_playlist_add_discontinuity] is defined outside the sources
    and taken as it comes. *)
Record MessageEnv := {
  encrypt_env : EncryptEnv;
  program_date_time_result : option GDateTime;
  playlist_write_ok : bool;
  push_event_ok : bool;
  gst_m3u8_playlist_add_discontinuity :
    M3U8.GstM3U8Playlist -> M3U8.GstM3U8Playlist
}.

Definition gst_hls_sink_handle_message (env : MessageEnv)
    (message : GstMessage) : M unit :=
  match message with
  | GST_MESSAGE_ELEMENT structure_name filename running_time =>
      if negb (String.eqb structure_name "GstMultiFileSink") then ret tt
      else
        sink ← get_sink;
        let duration :=
          C.to_guint64 (running_time - last_running_time sink) in
        let program_date_time := program_date_time_result env in
        update_sink (set_last_running_time running_time) ;;
        let entry_location :=
          match playlist_root sink with
          | None => g_path_get_basename filename
          | Some root =>
              g_build_filename root (g_path_get_basename filename)
          end in
        let added :=
          M3U8.gst_m3u8_playlist_add_entry (playlist sink)
            (Some entry_location) None (FP.f32_of_Z duration) (index sink)
            false program_date_time in
        update_sink (set_playlist (snd added)) ;;
        update_world (emit (PlaylistAppend entry_location (fst added))) ;;
        (if negb (encryption_method sink =? GST_HLS_SINK_ENC_NONE) then
           sink' ← get_sink;
           w ← get_world;
           let encrypted :=
             gst_hls_sink_encrypt_chunk (encrypt_env env) sink' filename
               (files w) in
           update_world (set_files (snd encrypted)) ;;
           update_world (emit (ChunkEncrypt filename (fst encrypted)))
         else ret tt) ;;
        gst_hls_sink_write_playlist (playlist_write_ok env) ;;
        update_sink
          (fun s =>
             set_state (Z.lor (state s) GST_M3U8_PLAYLIST_RENDER_STARTED)
               s) ;;
        update_sink (set_waiting_fku false) ;;
        _ ← schedule_next_key_unit (push_event_ok env);
        ret tt
  | GST_MESSAGE_EOS =>
      sink ← get_sink;
      (if is_reset_index_on_stop sink then
         update_sink
           (set_playlist
              (option_map (M3U8.set_end_list true) (playlist sink)))
       else
         update_sink
           (set_playlist
              (option_map (gst_m3u8_playlist_add_discontinuity env)
                 (playlist sink))) ;;
         update_sink (fun s => set_index (C.to_guint (index s + 1)) s) ;;
         update_sink
           (fun s =>
              set_playlist
                (option_map
                   (fun p =>
                      M3U8.set_sequence_number
                        (C.to_guint (M3U8.sequence_number p + 1)) p)
                   (playlist s)) s)) ;;
      gst_hls_sink_write_playlist (playlist_write_ok env) ;;
      update_sink
        (fun s =>
           set_state (Z.lor (state s) GST_M3U8_PLAYLIST_RENDER_ENDED) s)
  | GST_MESSAGE_OTHER => ret tt
  end.

(** Writes to the other fields of the sink. *)
Definition set_playlist_location (l : string) (s : GstHlsSink) :=
  {| playlist_location := l;
     playlist_root := playlist_root s;
     playlist_length := playlist_length s;
     target_duration := target_duration s;
     encryption_method := encryption_method s;
     is_reset_index_on_stop := is_reset_index_on_stop s;
     index := index s; playlist := playlist s;
     last_running_time := last_running_time s;
     waiting_fku := waiting_fku s; state := state s; key := key s |}.

Definition set_playlist_root (r : option string) (s : GstHlsSink) :=
  {| playlist_location := playlist_location s;
     playlist_root := r;
     playlist_length := playlist_length s;
     target_duration := target_duration s;
     encryption_method := encryption_method s;
     is_reset_index_on_stop := is_reset_index_on_stop s;
     index := index s; playlist := playlist s;
     last_running_time := last_running_time s;
     waiting_fku := waiting_fku s; state := state s; key := key s |}.

Definition set_playlist_length (n : Z) (s : GstHlsSink) :=
  {| playlist_location := playlist_location s;
     playlist_root := playlist_root s;
     playlist_length := n;
     target_duration := target_duration s;
     encryption_method := encryption_method s;
     is_reset_index_on_stop := is_reset_index_on_stop s;
     index := index s; playlist := playlist s;
     last_running_time := last_running_time s;
     waiting_fku := waiting_fku s; state := state s; key := key s |}.

Definition set_target_duration (d : Z) (s : GstHlsSink) :=
  {| playlist_location := playlist_location s;
     playlist_root := playlist_root s;
     playlist_length := playlist_length s;
     target_duration := d;
     encryption_method := encryption_method s;
     is_reset_index_on_stop := is_reset_index_on_stop s;
     index := index s; playlist := playlist s;
     last_running_time := last_running_time s;
     waiting_fku := waiting_fku s; state := state s; key := key s |}.

Definition set_encryption_method (m : Z) (s : GstHlsSink) :=
  {| playlist_location := playlist_location s;
     playlist_root := playlist_root s;
     playlist_length := playlist_length s;
     target_duration := target_duration s;
     encryption_method := m;
     is_reset_index_on_stop := is_reset_index_on_stop s;
     index := index s; playlist := playlist s;
     last_running_time := last_running_time s;
     waiting_fku := waiting_fku s; state := state s; key := key s |}.

Definition set_is_reset_index_on_stop (b : bool) (s : GstHlsSink) :=
  {| playlist_location := playlist_location s;
     playlist_root := playlist_root s;
     playlist_length := playlist_length s;
     target_duration := target_duration s;
     encryption_method := encryption_method s;
     is_reset_index_on_stop := b;
     index := index s; playlist := playlist s;
     last_running_time := last_running_time s;
     waiting_fku := waiting_fku s; state := state s; key := key s |}.

Definition set_key (k : list Z) (s : GstHlsSink) :=
  {| playlist_location := playlist_location s;
     playlist_root := playlist_root s;
     playlist_length := playlist_length s;
     target_duration := target_duration s;
     encryption_method := encryption_method s;
     is_reset_index_on_stop := is_reset_index_on_stop s;
     index := index s; playlist := playlist s;
     last_running_time := last_running_time s;
     waiting_fku := waiting_fku s; state := state s; key := k |}.

End HlsSink.

(** ** The element around the sink ([gsthlssink.c], continued) *)

Module Element.

Import GLib HlsSink.

Definition DEFAULT_LOCATION : string := "segment%05d.ts".
Definition DEFAULT_PLAYLIST_LOCATION : string := "playlist.m3u8".
Definition DEFAULT_PLAYLIST_ROOT : option string := None.
Definition DEFAULT_MAX_FILES : Z := 10.
Definition DEFAULT_TARGET_DURATION : Z := 15.
Definition DEFAULT_PLAYLIST_LENGTH : Z := 5.
Definition DEFAULT_ENCRYPTION_METHOD : Z := 0.
Definition DEFAULT_KEY_LOCATION : string := "playlist.key".
Definition DEFAULT_KEY_URI : string := "playlist.key".
Definition DEFAULT_PROGRAM_DATE_TIME_SHIFT : Z := 0.
Definition DEFAULT_RESET_INDEX_ON_STOP : bool := true.

Definition RIXJOB_GSTM3U8PLAYLIST_H_PATCH_VERSION : Z := 2.
Definition RIXJOB_GSTM3U8PLAYLIST_C_PATCH_VERSION : Z := 2.
Definition RIXJOB_GSTHLSSINK_H_PATCH_VERSION : Z := 3.
Definition RIXJOB_GSTHLSSINK_C_PATCH_VERSION : Z := 3.

(** The internal [multifilesink], as far as the sink sets it up: the four
    properties [g_object_set] writes. *)
Record MultiFileSink := {
  mfs_location : option string;
  mfs_next_file : Z;
  mfs_post_messages : bool;
  mfs_max_files : Z
}.

Definition set_mfs_location (l : option string) (m : MultiFileSink) :=
  {| mfs_location := l; mfs_next_file := mfs_next_file m;
     mfs_post_messages := mfs_post_messages m;
     mfs_max_files := mfs_max_files m |}.

(** A [GstSegment] belongs to GStreamer.  The sink stores one and never
    looks inside, so it is kept as the call that filled it in:
    [gst_segment_init (_, GST_FORMAT_UNDEFINED)], or
    [gst_event_copy_segment] from a segment event, whose payload is
    [segment]. *)
Inductive GstSegment :=
| gst_segment_init_undefined
| gst_event_copy_segment (segment : Z).

(** An event on the ghost pad, by [GST_EVENT_TYPE].  For a custom
    downstream event, [force_key_unit] is [Some count] when
    [gst_video_event_is_force_key_unit] holds, with the [count]
    [gst_video_event_parse_downstream_force_key_unit] gives. *)
Inductive GstEvent :=
| GST_EVENT_SEGMENT (segment : Z)
| GST_EVENT_FLUSH_STOP
| GST_EVENT_CUSTOM_DOWNSTREAM (force_key_unit : option Z)
| GST_EVENT_OTHER.

(** Modelled from the spec: [struct _GstHlsSink] is declared in
    gsthlssink.h, which is not among the sources.  [base] holds the fields
    of [GstHlsSink] above; the others are the remaining ones gsthlssink.c
    reads and writes, pads left aside.  [max_files] is a [guint],
    [program_date_time_shift] a [gint64]. *)
Record GstHlsSinkObject := {
  base : GstHlsSink;
  location : option string;
  max_files : Z;
  key_location : option string;
  key_uri : option string;
  program_date_time_shift : Z;
  start_time : option GDateTime;
  segment : GstSegment;
  force_key_unit_event : option GstEvent;
  elements_created : bool;
  multifilesink : option MultiFileSink
}.

Definition set_base (s : GstHlsSink) (o : GstHlsSinkObject) :=
  {| base := s; location := location o;
     max_files := max_files o; key_location := key_location o;
     key_uri := key_uri o;
     program_date_time_shift := program_date_time_shift o;
     start_time := start_time o; segment := segment o;
     force_key_unit_event := force_key_unit_event o;
     elements_created := elements_created o;
     multifilesink := multifilesink o |}.

Definition set_location (l : option string) (o : GstHlsSinkObject) :=
  {| base := base o; location := l;
     max_files := max_files o; key_location := key_location o;
     key_uri := key_uri o;
     program_date_time_shift := program_date_time_shift o;
     start_time := start_time o; segment := segment o;
     force_key_unit_event := force_key_unit_event o;
     elements_created := elements_created o;
     multifilesink := multifilesink o |}.

Definition set_max_files (n : Z) (o : GstHlsSinkObject) :=
  {| base := base o; location := location o;
     max_files := n; key_location := key_location o;
     key_uri := key_uri o;
     program_date_time_shift := program_date_time_shift o;
     start_time := start_time o; segment := segment o;
     force_key_unit_event := force_key_unit_event o;
     elements_created := elements_created o;
     multifilesink := multifilesink o |}.

Definition set_key_location (k : option string) (o : GstHlsSinkObject) :=
  {| base := base o; location := location o;
     max_files := max_files o; key_location := k;
     key_uri := key_uri o;
     program_date_time_shift := program_date_time_shift o;
     start_time := start_time o; segment := segment o;
     force_key_unit_event := force_key_unit_event o;
     elements_created := elements_created o;
     multifilesink := multifilesink o |}.

Definition set_key_uri (k : option string) (o : GstHlsSinkObject) :=
  {| base := base o; location := location o;
     max_files := max_files o; key_location := key_location o;
     key_uri := k;
     program_date_time_shift := program_date_time_shift o;
     start_time := start_time o; segment := segment o;
     force_key_unit_event := force_key_unit_event o;
     elements_created := elements_created o;
     multifilesink := multifilesink o |}.

Definition set_program_date_time_shift (n : Z) (o : GstHlsSinkObject) :=
  {| base := base o; location := location o;
     max_files := max_files o; key_location := key_location o;
     key_uri := key_uri o;
     program_date_time_shift := n;
     start_time := start_time o; segment := segment o;
     force_key_unit_event := force_key_unit_event o;
     elements_created := elements_created o;
     multifilesink := multifilesink o |}.

Definition set_start_time (t : option GDateTime) (o : GstHlsSinkObject) :=
  {| base := base o; location := location o;
     max_files := max_files o; key_location := key_location o;
     key_uri := key_uri o;
     program_date_time_shift := program_date_time_shift o;
     start_time := t; segment := segment o;
     force_key_unit_event := force_key_unit_event o;
     elements_created := elements_created o;
     multifilesink := multifilesink o |}.

Definition set_segment (g : GstSegment) (o : GstHlsSinkObject) :=
  {| base := base o; location := location o;
     max_files := max_files o; key_location := key_location o;
     key_uri := key_uri o;
     program_date_time_shift := program_date_time_shift o;
     start_time := start_time o; segment := g;
     force_key_unit_event := force_key_unit_event o;
     elements_created := elements_created o;
     multifilesink := multifilesink o |}.

Definition set_force_key_unit_event (e : option GstEvent)
    (o : GstHlsSinkObject) :=
  {| base := base o; location := location o;
     max_files := max_files o; key_location := key_location o;
     key_uri := key_uri o;
     program_date_time_shift := program_date_time_shift o;
     start_time := start_time o; segment := segment o;
     force_key_unit_event := e;
     elements_created := elements_created o;
     multifilesink := multifilesink o |}.

Definition set_elements_created (b : bool) (o : GstHlsSinkObject) :=
  {| base := base o; location := location o;
     max_files := max_files o; key_location := key_location o;
     key_uri := key_uri o;
     program_date_time_shift := program_date_time_shift o;
     start_time := start_time o; segment := segment o;
     force_key_unit_event := force_key_unit_event o;
     elements_created := b;
     multifilesink := multifilesink o |}.

Definition set_multifilesink (m : option MultiFileSink)
    (o : GstHlsSinkObject) :=
  {| base := base o; location := location o;
     max_files := max_files o; key_location := key_location o;
     key_uri := key_uri o;
     program_date_time_shift := program_date_time_shift o;
     start_time := start_time o; segment := segment o;
     force_key_unit_event := force_key_unit_event o;
     elements_created := elements_created o;
     multifilesink := m |}.

(** A write to the fields of [base]. *)
Definition on_base (f : GstHlsSink -> GstHlsSink) (o : GstHlsSinkObject) :=
  set_base (f (base o)) o.

(** *** Construction and reset *)

(** [gst_hls_sink_reset] on the whole object. *)
Definition gst_hls_sink_reset (o : GstHlsSinkObject) : GstHlsSinkObject :=
  set_start_time None
    (set_segment gst_segment_init_undefined
       (set_force_key_unit_event None (on_base HlsSink.gst_hls_sink_reset o))).

(** The object [gst_hls_sink_init] leaves: the instance memory starts out
    zeroed. *)
Definition gst_hls_sink_init : GstHlsSinkObject :=
  gst_hls_sink_reset
    {| base :=
         {| playlist_location := DEFAULT_PLAYLIST_LOCATION;
            playlist_root := DEFAULT_PLAYLIST_ROOT;
            playlist_length := DEFAULT_PLAYLIST_LENGTH;
            target_duration := DEFAULT_TARGET_DURATION;
            encryption_method := DEFAULT_ENCRYPTION_METHOD;
            is_reset_index_on_stop := DEFAULT_RESET_INDEX_ON_STOP;
            index := C.to_guint DEFAULT_START_MEDIA_SEQUENCE;
            playlist := None;
            last_running_time := 0;
            waiting_fku := false;
            state := 0;
            key := replicate (Z.to_nat AES_BLOCK_SIZE) 0 |};
       location := Some DEFAULT_LOCATION;
       max_files := DEFAULT_MAX_FILES;
       key_location := Some DEFAULT_KEY_LOCATION;
       key_uri := Some DEFAULT_KEY_URI;
       program_date_time_shift := DEFAULT_PROGRAM_DATE_TIME_SHIFT;
       start_time := None;
       segment := gst_segment_init_undefined;
       force_key_unit_event := None;
       elements_created := false;
       multifilesink := None |}.

(** *** Internal elements and the key file *)

(** [factory_make_ok]: whether [gst_element_factory_make] returns an
    element.  On failure the function posts its messages and returns
    FALSE. *)
Definition gst_hls_sink_create_elements (factory_make_ok : bool)
    (o : GstHlsSinkObject) : bool * GstHlsSinkObject :=
  if elements_created o then (true, o)
  else if factory_make_ok then
    (true,
     set_elements_created true
       (set_multifilesink
          (Some {| mfs_location := location o; mfs_next_file := 3;
                   mfs_post_messages := true;
                   mfs_max_files := max_files o |}) o))
  else (false, set_multifilesink None o).

(** [open_ok]: whether [fopen] succeeds on a file that exists;
    [read_stop = Some n]: [fread] stops after at most [n] bytes.  A NULL
    [key_location] is handed to [fopen] as it is. *)
Definition gst_hls_sink_open_key (open_ok : bool) (read_stop : option nat)
    (fs : gmap string (list Z)) (o : GstHlsSinkObject)
    : option GstHlsSinkObject :=
  match key_location o with
  | None => None
  | Some path =>
      match (if open_ok then fs !! path else None) with
      | None => Some o
      | Some content =>
          let wanted := take (Z.to_nat AES_BLOCK_SIZE) content in
          let got :=
            match read_stop with
            | Some n => take n wanted
            | None => wanted
            end in
          Some (on_base
                  (fun s => set_key (got ++ drop (length got) (key s)) s) o)
      end
  end.

(** *** Properties *)

Inductive PropId :=
| PROP_LOCATION
| PROP_PLAYLIST_LOCATION
| PROP_PLAYLIST_ROOT
| PROP_MAX_FILES
| PROP_TARGET_DURATION
| PROP_PLAYLIST_LENGTH
| PROP_ENCRYPTION_METHOD
| PROP_KEY_LOCATION
| PROP_KEY_URI
| PROP_GSTM3U8PLAYLIST_H_PATCH_VERSION
| PROP_GSTM3U8PLAYLIST_C_PATCH_VERSION
| PROP_GSTHLSSINK_H_PATCH_VERSION
| PROP_GSTHLSSINK_C_PATCH_VERSION
| PROP_PROGRAM_DATE_TIME_MODE
| PROP_PROGRAM_DATE_TIME_SHIFT
| PROP_RESET_INDEX_ON_STOP
| PROP_START_MEDIA_SEQUENCE
| PROP_START_DISCONTINUITY_SEQUENCE.

(** A [GValue] of one of the types the properties have; the value of the
    program-date-time enumeration is kept as the mode it stands for. *)
Inductive GValue :=
| G_STRING (v : option string)
| G_UINT (v : Z)
| G_ENUM (v : Z)
| G_MODE (v : M3U8.GstHlsProgramDateTimeMode)
| G_INT64 (v : Z)
| G_BOOLEAN (v : bool).

(** Whether [value] is of the type [prop_id] was installed with, as
    GObject sees to before it calls [set_property].  The playlist location
    is never NULL here. *)
Definition accepts (prop_id : PropId) (value : GValue) : bool :=
  match prop_id, value with
  | PROP_LOCATION, G_STRING _
  | PROP_PLAYLIST_LOCATION, G_STRING (Some _)
  | PROP_PLAYLIST_ROOT, G_STRING _
  | PROP_KEY_LOCATION, G_STRING _
  | PROP_KEY_URI, G_STRING _ => true
  | PROP_MAX_FILES, G_UINT v
  | PROP_TARGET_DURATION, G_UINT v
  | PROP_PLAYLIST_LENGTH, G_UINT v
  | PROP_START_MEDIA_SEQUENCE, G_UINT v
  | PROP_START_DISCONTINUITY_SEQUENCE, G_UINT v
  | PROP_GSTM3U8PLAYLIST_H_PATCH_VERSION, G_UINT v
  | PROP_GSTM3U8PLAYLIST_C_PATCH_VERSION, G_UINT v
  | PROP_GSTHLSSINK_H_PATCH_VERSION, G_UINT v
  | PROP_GSTHLSSINK_C_PATCH_VERSION, G_UINT v => (0 <=? v) && (v <? 2 ^ 32)
  | PROP_ENCRYPTION_METHOD, G_ENUM v =>
      (v =? GST_HLS_SINK_ENC_NONE) || (v =? GST_HLS_SINK_ENC_AES_128)
  | PROP_PROGRAM_DATE_TIME_MODE, G_MODE _ => true
  | PROP_PROGRAM_DATE_TIME_SHIFT, G_INT64 v =>
      (- 2 ^ 63 <=? v) && (v <? 2 ^ 63)
  | PROP_RESET_INDEX_ON_STOP, G_BOOLEAN _ => true
  | _, _ => false
  end.

(** A write through [sink->playlist]; [None] when the pointer is NULL. *)
Definition on_playlist (f : M3U8.GstM3U8Playlist -> M3U8.GstM3U8Playlist)
    (o : GstHlsSinkObject) : option GstHlsSinkObject :=
  match playlist (base o) with
  | Some p => Some (on_base (set_playlist (Some (f p))) o)
  | None => None
  end.

(** [None]: the value is not one [accepts] lets through, or a NULL
    playlist is dereferenced. *)
Definition gst_hls_sink_set_property (prop_id : PropId) (value : GValue)
    (o : GstHlsSinkObject) : option GstHlsSinkObject :=
  if negb (accepts prop_id value) then None
  else
    match prop_id, value with
    | PROP_LOCATION, G_STRING v =>
        let o1 := set_location v o in
        Some (match multifilesink o1 with
              | Some m =>
                  set_multifilesink
                    (Some (set_mfs_location (location o1) m)) o1
              | None => o1
              end)
    | PROP_PLAYLIST_LOCATION, G_STRING (Some v) =>
        Some (on_base (set_playlist_location v) o)
    | PROP_PLAYLIST_ROOT, G_STRING v =>
        Some (on_base (set_playlist_root v) o)
    | PROP_MAX_FILES, G_UINT v =>
        let o1 := set_max_files v o in
        Some (match multifilesink o1 with
              | Some _ =>
                  set_multifilesink
                    (Some {| mfs_location := location o1;
                             mfs_next_file := 3;
                             mfs_post_messages := true;
                             mfs_max_files := max_files o1 |}) o1
              | None => o1
              end)
    | PROP_TARGET_DURATION, G_UINT v =>
        Some (on_base (set_target_duration v) o)
    | PROP_PLAYLIST_LENGTH, G_UINT v =>
        let o1 := on_base (set_playlist_length v) o in
        on_playlist (M3U8.set_window_size (playlist_length (base o1))) o1
    | PROP_ENCRYPTION_METHOD, G_ENUM v =>
        let o1 := on_base (set_encryption_method v) o in
        on_playlist
          (M3U8.set_encryption_method (encryption_method (base o1))) o1
    | PROP_KEY_LOCATION, G_STRING v => Some (set_key_location v o)
    | PROP_KEY_URI, G_STRING v =>
        let o1 := set_key_uri v o in
        on_playlist (M3U8.set_key_location (key_uri o1)) o1
    | PROP_PROGRAM_DATE_TIME_MODE, G_MODE v =>
        on_playlist (M3U8.set_program_date_time_mode v) o
    | PROP_PROGRAM_DATE_TIME_SHIFT, G_INT64 v =>
        Some (set_program_date_time_shift v o)
    | PROP_RESET_INDEX_ON_STOP, G_BOOLEAN v =>
        Some (on_base (set_is_reset_index_on_stop v) o)
    | PROP_START_MEDIA_SEQUENCE, G_UINT v =>
        Some (on_base (set_index (C.to_guint (v - 1))) o)
    | PROP_START_DISCONTINUITY_SEQUENCE, G_UINT v =>
        on_playlist (M3U8.set_discontinuity_sequence_number v) o
    | _, _ => Some o
    end.

(** [gst_m3u8_playlist_get_discontinuity_number] is defined outside the
    sources and comes in as an argument.  [None]: a NULL playlist is
    dereferenced. *)
Definition gst_hls_sink_get_property
    (gst_m3u8_playlist_get_discontinuity_number
       : M3U8.GstM3U8Playlist -> Z)
    (prop_id : PropId) (o : GstHlsSinkObject) : option GValue :=
  match prop_id with
  | PROP_LOCATION => Some (G_STRING (location o))
  | PROP_PLAYLIST_LOCATION =>
      Some (G_STRING (Some (playlist_location (base o))))
  | PROP_PLAYLIST_ROOT => Some (G_STRING (playlist_root (base o)))
  | PROP_MAX_FILES => Some (G_UINT (max_files o))
  | PROP_TARGET_DURATION => Some (G_UINT (target_duration (base o)))
  | PROP_PLAYLIST_LENGTH => Some (G_UINT (playlist_length (base o)))
  | PROP_ENCRYPTION_METHOD => Some (G_ENUM (encryption_method (base o)))
  | PROP_KEY_LOCATION => Some (G_STRING (key_location o))
  | PROP_KEY_URI => Some (G_STRING (key_uri o))
  | PROP_GSTM3U8PLAYLIST_H_PATCH_VERSION =>
      Some (G_UINT RIXJOB_GSTM3U8PLAYLIST_H_PATCH_VERSION)
  | PROP_GSTM3U8PLAYLIST_C_PATCH_VERSION =>
      Some (G_UINT RIXJOB_GSTM3U8PLAYLIST_C_PATCH_VERSION)
  | PROP_GSTHLSSINK_H_PATCH_VERSION =>
      Some (G_UINT RIXJOB_GSTHLSSINK_H_PATCH_VERSION)
  | PROP_GSTHLSSINK_C_PATCH_VERSION =>
      Some (G_UINT RIXJOB_GSTHLSSINK_C_PATCH_VERSION)
  | PROP_PROGRAM_DATE_TIME_MODE =>
      option_map (fun p => G_MODE (M3U8.program_date_time_mode p))
        (playlist (base o))
  | PROP_PROGRAM_DATE_TIME_SHIFT =>
      Some (G_INT64 (program_date_time_shift o))
  | PROP_RESET_INDEX_ON_STOP =>
      Some (G_BOOLEAN (is_reset_index_on_stop (base o)))
  | PROP_START_MEDIA_SEQUENCE =>
      option_map (fun p => G_UINT (M3U8.sequence_number p))
        (playlist (base o))
  | PROP_START_DISCONTINUITY_SEQUENCE =>
      option_map
        (fun p => G_UINT (gst_m3u8_playlist_get_discontinuity_number p))
        (playlist (base o))
  end.

(** *** Events on the ghost pad *)

(** The probe returns [GST_PAD_PROBE_OK] on every path. *)
Definition gst_hls_sink_ghost_event_probe (event : GstEvent)
    (o : GstHlsSinkObject) : GstHlsSinkObject :=
  match event with
  | GST_EVENT_SEGMENT seg => set_segment (gst_event_copy_segment seg) o
  | GST_EVENT_FLUSH_STOP => set_segment gst_segment_init_undefined o
  | GST_EVENT_CUSTOM_DOWNSTREAM None => o
  | GST_EVENT_CUSTOM_DOWNSTREAM (Some count) =>
      on_base (set_index count) (set_force_key_unit_event (Some event) o)
  | GST_EVENT_OTHER => o
  end.

(** *** Running the sink's functions on the object *)

(** A computation on the fields of [base] and the world, run on the whole
    object. *)
Definition lift {A : Type} (m : M A) (st : GstHlsSinkObject * World)
    : GstHlsSinkObject * World :=
  (set_base (fst (exec m (base (fst st), snd st))) (fst st),
   snd (exec m (base (fst st), snd st))).

(** *** State changes *)

Inductive GstStateChange :=
| GST_STATE_CHANGE_NULL_TO_READY
| GST_STATE_CHANGE_READY_TO_PAUSED
| GST_STATE_CHANGE_PAUSED_TO_PLAYING
| GST_STATE_CHANGE_PLAYING_TO_PAUSED
| GST_STATE_CHANGE_PAUSED_TO_READY
| GST_STATE_CHANGE_READY_TO_NULL
| GST_STATE_CHANGE_OTHER.

Inductive GstStateChangeReturn :=
| GST_STATE_CHANGE_FAILURE
| GST_STATE_CHANGE_SUCCESS
| GST_STATE_CHANGE_ASYNC
| GST_STATE_CHANGE_NO_PREROLL.

(** What the environment decides during one state change: whether the
    [multifilesink] can be made, how opening and reading the key file go,
    the time [g_date_time_new_now_utc] returns, what the parent class
    returns, and whether the playlist can be written.
    [gst_m3u8_playlist_add_discontinuity] is defined outside the sources
    and taken as it comes. *)
Record StateEnv := {
  factory_make_ok : bool;
  key_open_ok : bool;
  key_read_stop : option nat;
  now_utc : GDateTime;
  parent_change_state : GstStateChangeReturn;
  drain_write_ok : bool;
  add_discontinuity : M3U8.GstM3U8Playlist -> M3U8.GstM3U8Playlist
}.

(** The end of the playlist, at the end of the stream or when the sink
    stops: the end marker, or a discontinuity and the next index. *)
Definition close_playlist
    (add_discontinuity : M3U8.GstM3U8Playlist -> M3U8.GstM3U8Playlist)
    (p : M3U8.GstM3U8Playlist) (s : GstHlsSink) : GstHlsSink :=
  if is_reset_index_on_stop s then
    set_playlist (Some (M3U8.set_end_list true p)) s
  else
    let p1 := add_discontinuity p in
    let s1 := set_index (C.to_guint (index s + 1))
                (set_playlist (Some p1) s) in
    set_playlist
      (Some (M3U8.set_sequence_number
               (C.to_guint (M3U8.sequence_number p1 + 1)) p1)) s1.

(** The part of [gst_hls_sink_change_state] after the parent class has
    run. *)
Definition change_state_after (env : StateEnv) (trans : GstStateChange)
    (st : GstHlsSinkObject * World) : GstHlsSinkObject * World :=
  match trans with
  | GST_STATE_CHANGE_PAUSED_TO_READY =>
      let s := base (fst st) in
      let drained :=
        match playlist s with
        | Some p =>
            if negb (Z.land (state s) GST_M3U8_PLAYLIST_RENDER_STARTED =? 0)
               && (Z.land (state s) GST_M3U8_PLAYLIST_RENDER_ENDED =? 0)
            then
              lift (gst_hls_sink_write_playlist (drain_write_ok env))
                (set_base (close_playlist (add_discontinuity env) p s)
                   (fst st), snd st)
            else st
        | None => st
        end in
      (gst_hls_sink_reset (fst drained), snd drained)
  | GST_STATE_CHANGE_READY_TO_NULL => (gst_hls_sink_reset (fst st), snd st)
  | _ => st
  end.

(** [None]: [fopen] is called on a NULL key location. *)
Definition gst_hls_sink_change_state (env : StateEnv)
    (trans : GstStateChange) (st : GstHlsSinkObject * World)
    : option (GstStateChangeReturn * (GstHlsSinkObject * World)) :=
  let continue (o : GstHlsSinkObject) :=
    Some (parent_change_state env, change_state_after env trans (o, snd st))
  in
  match trans with
  | GST_STATE_CHANGE_NULL_TO_READY =>
      let created :=
        gst_hls_sink_create_elements (factory_make_ok env) (fst st) in
      if negb (fst created)
      then Some (GST_STATE_CHANGE_FAILURE, (snd created, snd st))
      else if negb (encryption_method (base (snd created))
                    =? GST_HLS_SINK_ENC_NONE)
      then
        match gst_hls_sink_open_key (key_open_ok env) (key_read_stop env)
                (files (snd st)) (snd created) with
        | Some o => continue o
        | None => None
        end
      else continue (snd created)
  | GST_STATE_CHANGE_PAUSED_TO_PLAYING =>
      continue (set_start_time (Some (now_utc env)) (fst st))
  | _ => continue (fst st)
  end.

(** *** Bus messages on the object *)

(** [gst_hls_sink_handle_message] on the whole object; [None] when the
    end of the stream finds a NULL playlist to write through. *)
Definition handle_message (env : MessageEnv) (message : GstMessage)
    (st : GstHlsSinkObject * World)
    : option (GstHlsSinkObject * World) :=
  match message, playlist (base (fst st)) with
  | GST_MESSAGE_EOS, None => None
  | _, _ => Some (lift (gst_hls_sink_handle_message env message) st)
  end.

End Element.

(** ** Runs of calls and other notions the statements use *)

Module Runs.

Import M3U8.

(** The arguments of one [gst_m3u8_playlist_add_entry] call with a
    non-null [url]. *)
Record AddCall := {
  call_url : string;
  call_title : option string;
  call_duration : FP.gfloat;
  call_index : Z;
  call_discontinuous : bool;
  call_program_date_time : option GLib.GDateTime
}.

Definition add_entry_call (p : GstM3U8Playlist) (c : AddCall)
    : bool * option GstM3U8Playlist :=
  gst_m3u8_playlist_add_entry (Some p) (Some (call_url c)) (call_title c)
    (call_duration c) (call_index c) (call_discontinuous c)
    (call_program_date_time c).

(** The entry a call appends. *)
Definition entry_of_call (c : AddCall) : GstM3U8Entry :=
  {| duration := call_duration c; title := call_title c;
     url := call_url c; discontinuous := call_discontinuous c;
     program_date_time := call_program_date_time c |}.

(** A run of calls, each of which has to succeed. *)
Fixpoint add_entries (p : GstM3U8Playlist) (calls : list AddCall)
    : option GstM3U8Playlist :=
  match calls with
  | [] => Some p
  | c :: rest =>
      match add_entry_call p c with
      | (true, Some p') => add_entries p' rest
      | _ => None
      end
  end.

(** The last [n] elements of a list, oldest first. *)
Definition lastn {A : Type} (n : nat) (l : list A) : list A :=
  drop (length l - n) l.

(** The calls carry the indices [n], [n + 1], ... in this order. *)
Fixpoint consecutive_from (n : Z) (calls : list AddCall) : Prop :=
  match calls with
  | [] => True
  | c :: rest => call_index c = n /\ consecutive_from (n + 1) rest
  end.

(** The big-endian encoding of a 32-bit value, most significant byte
    first. *)
Definition big_endian_32 (x : Z) : list Z :=
  [(x / 2 ^ 24) mod 256; (x / 2 ^ 16) mod 256; (x / 2 ^ 8) mod 256;
   x mod 256].

(** [x] is the normalized float of precision [prec] whose value is the
    natural number [n]. *)
Definition holds (prec : Z) (x : spec_float) (n : Z) : Prop :=
  match x with
  | S754_zero s => s = false /\ n = 0
  | S754_finite s a e =>
      s = false /\ Z.pos (digits2_pos a) = prec
      /\ (if e <? 0 then Z.pos a = n * 2 ^ (- e) else n = Z.pos a * 2 ^ e)
  | _ => False
  end.

(** A natural number that a float of precision [prec] holds exactly: the
    bits below its [prec] leading ones are zero. *)
Definition fits (prec n : Z) : Prop :=
  0 <= n /\ n mod 2 ^ Z.max 0 (Z.log2 n + 1 - prec) = 0.

(** The largest of a list of durations, 0 for none. *)
Definition max_ns (ns : list Z) : Z := fold_right Z.max 0 ns.

(** [a / b] rounded up, for [0 <= a] and [0 < b]. *)
Definition ceil_div (a b : Z) : Z := (a + b - 1) / b.

(** The document of a playlist of version 3 without entries, key or end
    marker, whose first sequence number is 0. *)
Definition empty_playlist_text (target_duration : Z) : string :=
  "#EXTM3U" +:+ Text.nl
    +:+ "#EXT-X-VERSION:3" +:+ Text.nl
    +:+ "#EXT-X-MEDIA-SEQUENCE:0" +:+ Text.nl
    +:+ "#EXT-X-TARGETDURATION:" +:+ Text.decimal target_duration +:+ Text.nl
    +:+ Text.nl.



(** An upstream force-key-unit request that went out. *)
Definition is_request (e : HlsSink.Effect) : bool :=
  match e with
  | HlsSink.ScheduleKeyUnit (Some _) true => true
  | _ => false
  end.

(** A closed segment, as the bin reports it. *)
Definition segment_closed (filename : string) (running_time : Z)
    : HlsSink.GstMessage :=
  HlsSink.GST_MESSAGE_ELEMENT "GstMultiFileSink" filename running_time.

End Runs.

(** ** The segment handler, phase by phase *)

Module Phases.

Import HlsSink.

(** The state after the handler has appended the entry. *)
Definition after_append (env : MessageEnv) (filename : string)
    (running_time : Z) (s : GstHlsSink) (w : World)
    : GstHlsSink * World :=
  let url :=
    match playlist_root s with
    | None => GLib.g_path_get_basename filename
    | Some root =>
        GLib.g_build_filename root (GLib.g_path_get_basename filename)
    end in
  let added :=
    M3U8.gst_m3u8_playlist_add_entry (playlist s) (Some url) None
      (FP.f32_of_Z (C.to_guint64 (running_time - last_running_time s)))
      (index s) false (program_date_time_result env) in
  (set_playlist (snd added) (set_last_running_time running_time s),
   emit (PlaylistAppend url (fst added)) w).

(** The state after the encryption step that follows. *)
Definition after_encrypt (env : MessageEnv) (filename : string)
    (st : GstHlsSink * World) : GstHlsSink * World :=
  let encrypted :=
    gst_hls_sink_encrypt_chunk (encrypt_env env) (fst st) filename
      (files (snd st)) in
  (fst st,
   emit (ChunkEncrypt filename (fst encrypted))
     (set_files (snd encrypted) (snd st))).

(** The state after the flags are set, just before the scheduler runs. *)
Definition after_flags (st : GstHlsSink * World) : GstHlsSink * World :=
  (set_waiting_fku false
     (set_state (Z.lor (state (fst st)) GST_M3U8_PLAYLIST_RENDER_STARTED)
        (fst st)),
   snd st).

End Phases.

(** ** Concrete playlists, sinks and environments *)

Module Samples.

Import M3U8 HlsSink Runs.

(** A 2.4 s segment added under index [i]. *)
Definition call (i : Z) : AddCall :=
  {| call_url := "segment" +:+ Text.decimal i +:+ ".ts";
     call_title := None;
     call_duration := FP.f32_of_Z 2400000000;
     call_index := i;
     call_discontinuous := false;
     call_program_date_time := None |}.

Definition playlist_window_2 : GstM3U8Playlist :=
  gst_m3u8_playlist_new 3 2.


(** A playlist after [end_list] has been set. *)
Definition playlist_ended : GstM3U8Playlist :=
  set_end_list true (gst_m3u8_playlist_new 3 5).


(** A playlist that retains entries of the given durations, in
    nanoseconds. *)
Definition playlist_of_durations (ns : list Z) : GstM3U8Playlist :=
  set_entries
    (map (fun n => entry_of_call
                     {| call_url := "segment.ts"; call_title := None;
                        call_duration := FP.f32_of_Z n; call_index := 0;
                        call_discontinuous := false;
                        call_program_date_time := None |}) ns)
    (gst_m3u8_playlist_new 3 0).

(** A stand-in for the block cipher: every byte is complemented. *)
Definition toy_cbc (key iv plaintext : list Z) : list Z :=
  map (fun b => Z.lxor b 255) plaintext.

Definition encrypt_env_ok : EncryptEnv :=
  {| host_order := G_LITTLE_ENDIAN; backend := HAVE_GCRYPT;
     aes_128_cbc := toy_cbc; init_ok := true; open_chunk_ok := true;
     open_encrypted_ok := true; stat_ok := true; read_stop := None;
     cipher_ok := true; write_stop := None; rename_ok := true |}.

Definition encrypt_env_stat_fails : EncryptEnv :=
  {| host_order := G_LITTLE_ENDIAN; backend := HAVE_GCRYPT;
     aes_128_cbc := toy_cbc; init_ok := true; open_chunk_ok := true;
     open_encrypted_ok := true; stat_ok := false; read_stop := None;
     cipher_ok := true; write_stop := None; rename_ok := true |}.


Definition message_env : MessageEnv :=
  {| encrypt_env := encrypt_env_ok;
     program_date_time_result := None;
     playlist_write_ok := true;
     push_event_ok := true;
     gst_m3u8_playlist_add_discontinuity := fun p => p |}.

(** A sink after [gst_hls_sink_reset], with AES-128 switched on. *)
Definition sink_encrypting : GstHlsSink :=
  gst_hls_sink_reset
    {| playlist_location := "playlist.m3u8"; playlist_root := None;
       playlist_length := 5; target_duration := 15;
       encryption_method := GST_HLS_SINK_ENC_AES_128;
       is_reset_index_on_stop := true; index := 0; playlist := None;
       last_running_time := 0; waiting_fku := false; state := 0;
       key := replicate 16 7 |}.

Definition sink_index_5 : GstHlsSink := set_index 5 sink_encrypting.

Definition disk : gmap string (list Z) :=
  {[ "/tmp/hls/segment00000.ts" := [1; 2; 3] ]}.

Definition world : World := {| files := disk; log := [] |}.

Definition buffer (running_time : Z) : Observation :=
  {| buffer_timestamp := Some running_time;
     buffer_running_time := running_time;
     push_ok := true |}.

End Samples.

(** ** Calls into the element, and further notions the statements use *)

Module Pipeline.

Import M3U8 HlsSink Element.

(** One call into the element from outside: a property write, an event
    or a buffer on the ghost pad, a message from the bin, a state
    change. *)
Inductive Call :=
| SetProperty (prop_id : PropId) (value : GValue)
| PadEvent (event : GstEvent)
| PadBuffer (o : Observation)
| BusMessage (env : MessageEnv) (message : GstMessage)
| StateChange (env : StateEnv) (trans : GstStateChange).

Definition call (c : Call) (st : GstHlsSinkObject * World)
    : option (GstHlsSinkObject * World) :=
  match c with
  | SetProperty prop_id value =>
      option_map (fun o => (o, snd st))
        (gst_hls_sink_set_property prop_id value (fst st))
  | PadEvent event => Some (gst_hls_sink_ghost_event_probe event (fst st),
                            snd st)
  | PadBuffer o => Some (lift (gst_hls_sink_ghost_buffer_probe o) st)
  | BusMessage env message => handle_message env message st
  | StateChange env trans =>
      option_map snd (gst_hls_sink_change_state env trans st)
  end.

(** A run of calls, in order; [None] as soon as one of them is. *)
Fixpoint calls (cs : list Call) (st : GstHlsSinkObject * World)
    : option (GstHlsSinkObject * World) :=
  match cs with
  | [] => Some st
  | c :: rest =>
      match call c st with
      | Some st' => calls rest st'
      | None => None
      end
  end.

(** The request the scheduler has just sent, when the last effect is
    one: the running time and the count it asks for. *)
Definition last_request (w : World) : option (Z * Z) :=
  match last (log w) with
  | Some (ScheduleKeyUnit (Some request) true) => Some request
  | _ => None
  end.

(** The force-key-unit event with which upstream answers that request:
    it carries the count asked for. *)
Definition answer (w : World) : GstEvent :=
  GST_EVENT_CUSTOM_DOWNSTREAM (option_map snd (last_request w)).

(** A segment closes after upstream has answered: the event passes the
    ghost pad, then the bin reports the closed file. *)
Record ClosedSegment := {
  closed_env : MessageEnv;
  closed_filename : string;
  closed_running_time : Z
}.

Fixpoint close_segments (segments : list ClosedSegment)
    (st : GstHlsSinkObject * World) : option (GstHlsSinkObject * World) :=
  match segments with
  | [] => Some st
  | g :: rest =>
      match calls [PadEvent (answer (snd st));
                   BusMessage (closed_env g)
                     (Runs.segment_closed (closed_filename g)
                        (closed_running_time g))] st with
      | Some st' => close_segments rest st'
      | None => None
      end
  end.

(** A call that leaves the target duration at 0 when it is 0. *)
Definition keeps_manual (c : Call) : Prop :=
  match c with
  | SetProperty PROP_TARGET_DURATION value => value = G_UINT 0
  | _ => True
  end.



(** The number [gst_m3u8_playlist_render] prints after
    [#EXT-X-MEDIA-SEQUENCE:]. *)
Definition media_sequence (p : GstM3U8Playlist) : Z :=
  C.to_gint (sequence_number p - Z.of_nat (length (entries p))).

(** The media sequence number of the entry at position [i] of the queue:
    that of the first entry, plus [i]. *)
Definition entry_media_sequence (p : GstM3U8Playlist) (i : Z) : Z :=
  sequence_number p - Z.of_nat (length (entries p)) + i.

(** [s] ends with the characters of [suffix]. *)
Definition ends_with (suffix s : string) : bool :=
  bool_decide
    (list_ascii_of_string suffix `suffix_of` list_ascii_of_string s).


(** An attempt to send a force-key-unit request upstream. *)
Definition is_attempt (e : Effect) : bool :=
  match e with
  | ScheduleKeyUnit (Some _) _ => true
  | _ => false
  end.

(** A playlist document that was written out. *)
Definition is_write (e : Effect) : bool :=
  match e with
  | PlaylistWrite _ _ => true
  | _ => false
  end.

(** The properties whose getter reads the field the setter writes. *)
Definition reads_back (prop_id : PropId) : bool :=
  match prop_id with
  | PROP_LOCATION | PROP_PLAYLIST_LOCATION | PROP_PLAYLIST_ROOT
  | PROP_MAX_FILES | PROP_TARGET_DURATION | PROP_PLAYLIST_LENGTH
  | PROP_ENCRYPTION_METHOD | PROP_KEY_LOCATION | PROP_KEY_URI
  | PROP_PROGRAM_DATE_TIME_MODE | PROP_PROGRAM_DATE_TIME_SHIFT
  | PROP_RESET_INDEX_ON_STOP => true
  | _ => false
  end.



(** The window of the playlist is the playlist length of the sink. *)
Definition window_in_step (o : GstHlsSinkObject) : Prop :=
  option_map M3U8.window_size (playlist (base o))
  = Some (playlist_length (base o)).

(** A call whose [gst_m3u8_playlist_add_discontinuity] leaves the window
    size alone. *)
Definition keeps_window (c : Call) : Prop :=
  match c with
  | BusMessage env _ =>
      forall p, M3U8.window_size (gst_m3u8_playlist_add_discontinuity env p)
                = M3U8.window_size p
  | StateChange env _ =>
      forall p, M3U8.window_size (add_discontinuity env p)
                = M3U8.window_size p
  | _ => True
  end.

(** The sink waits for the key unit whose count is its index plus one:
    that request is the last effect. *)
Definition awaiting (st : GstHlsSinkObject * World) : Prop :=
  exists (p : M3U8.GstM3U8Playlist) (t : Z),
    playlist (base (fst st)) = Some p
    /\ M3U8.type p = M3U8.GST_M3U8_PLAYLIST_TYPE_EVENT
    /\ target_duration (base (fst st)) <> 0
    /\ waiting_fku (base (fst st)) = true
    /\ last_request (snd st)
       = Some (t, C.to_guint (index (base (fst st)) + 1)).

(** The durations of the entries of [p] are the whole numbers of
    nanoseconds [ds], each below [2^52] (about 52 days), converted to
    [gfloat]. *)
Definition measured (p : GstM3U8Playlist) (ds : list Z) : Prop :=
  Forall2 (fun e d => duration e = FP.f32_of_Z d) (entries p) ds
  /\ Forall (fun d => 0 <= d < 2 ^ 52) ds.

End Pipeline.

(** ** Concrete elements, environments and runs *)

Module Fixtures.

Import M3U8 HlsSink Element Pipeline Runs Samples.

Definition state_env : StateEnv :=
  {| factory_make_ok := true; key_open_ok := true; key_read_stop := None;
     now_utc := {| GLib.date_time_format_FT := Some "2024-05-01T12:00:00";
                   GLib.date_time_microsecond := 0 |};
     parent_change_state := GST_STATE_CHANGE_SUCCESS;
     drain_write_ok := true;
     add_discontinuity := fun p => p |}.

(** The element as [gst_hls_sink_init] leaves it, with AES-128 switched
    on in the sink. *)
Definition element_encrypting : GstHlsSinkObject :=
  on_base (HlsSink.set_encryption_method GST_HLS_SINK_ENC_AES_128)
    gst_hls_sink_init.

(** The same with a target duration of 0: the application schedules the
    key units. *)
Definition element_manual : GstHlsSinkObject :=
  on_base (set_target_duration 0) gst_hls_sink_init.

(** An element that has written a playlist and not yet ended it. *)
Definition element_started : GstHlsSinkObject :=
  on_base
    (set_state (Z.lor GST_M3U8_PLAYLIST_RENDER_INIT
                  GST_M3U8_PLAYLIST_RENDER_STARTED))
    gst_hls_sink_init.

(** The segment file [i], closed at the running time [t]. *)
Definition closed (i t : Z) : ClosedSegment :=
  {| closed_env := message_env;
     closed_filename := "/tmp/hls/segment" +:+ Text.decimal i +:+ ".ts";
     closed_running_time := t |}.

(** A session: two properties are set, the element goes to READY, a
    buffer passes, a segment closes, the stream ends, the element
    stops. *)
Definition session : list Call :=
  [SetProperty PROP_PLAYLIST_LENGTH (G_UINT 3);
   SetProperty PROP_LOCATION (G_STRING (Some "/tmp/hls/segment%05d.ts"));
   StateChange state_env GST_STATE_CHANGE_NULL_TO_READY;
   PadBuffer (buffer 0);
   BusMessage message_env
     (segment_closed "/tmp/hls/segment00000.ts" 2400000000);
   BusMessage message_env GST_MESSAGE_EOS;
   StateChange state_env GST_STATE_CHANGE_PAUSED_TO_READY].

(** A key file of twenty bytes. *)
Definition key_bytes : list Z :=
  [1; 2; 3; 4; 5; 6; 7; 8; 9; 10; 11; 12; 13; 14; 15; 16; 17; 18; 19; 20].

Definition key_disk : gmap string (list Z) :=
  {[ "playlist.key" := key_bytes ]}.


End Fixtures.

(** * Properties *)

Section PlaylistProperties.

Import M3U8 Runs.

Lemma delete_old_entries_drop (w : Z) (q : list GstM3U8Entry) :
  0 < w ->
  delete_old_entries w q = lastn (Z.to_nat w - 1) q.
Proof.
  intros Hw. unfold lastn.
  induction q as [|e q IH]; [reflexivity|].
  cbn [delete_old_entries].
  destruct (w <=? Z.of_nat (length (e :: q))) eqn:Hle.
  - apply Z.leb_le in Hle. rewrite IH. cbn [length] in *.
    replace (S (length q) - (Z.to_nat w - 1))%nat
      with (S (length q - (Z.to_nat w - 1)))%nat by lia.
    reflexivity.
  - apply Z.leb_gt in Hle. cbn [length] in *.
    replace (S (length q) - (Z.to_nat w - 1))%nat with 0%nat by lia.
    reflexivity.
Qed.

Lemma lastn_length {A : Type} (n : nat) (l : list A) :
  length (lastn n l) = Nat.min n (length l).
Proof. unfold lastn. rewrite length_drop. lia. Qed.

Lemma lastn_snoc {A : Type} (n : nat) (l : list A) (x : A) :
  lastn n l ++ [x] = lastn (S n) (l ++ [x]).
Proof.
  unfold lastn. rewrite length_app. cbn [length].
  replace (length l + 1 - S n)%nat with (length l - n)%nat by lia.
  rewrite drop_app_le by lia. reflexivity.
Qed.

Lemma lastn_lastn {A : Type} (n m : nat) (l : list A) :
  (n <= m)%nat -> lastn n (lastn m l) = lastn n l.
Proof.
  intros Hnm. unfold lastn. rewrite drop_drop, length_drop.
  f_equal. lia.
Qed.

Lemma lastn_app_lastn {A : Type} (n : nat) (l k : list A) :
  lastn n (lastn n l ++ k) = lastn n (l ++ k).
Proof.
  unfold lastn. rewrite !length_app, length_drop.
  destruct (decide (length l <= n)%nat) as [Hle|Hgt].
  - replace (length l - n)%nat with 0%nat by lia.
    rewrite drop_0, Nat.sub_0_r. reflexivity.
  - destruct (decide (length k <= n)%nat) as [Hk|Hk].
    + rewrite !drop_app_le by (rewrite ?length_drop; lia).
      rewrite drop_drop. do 2 f_equal. lia.
    + rewrite !drop_app_ge by (rewrite ?length_drop; lia).
      rewrite length_drop. f_equal. lia.
Qed.

(** One successful call: the oldest entries go until fewer than
    [window_size] are left, the new entry is appended, and the sequence
    number is the index plus one. *)
Lemma add_entry_call_event (p : GstM3U8Playlist) (c : AddCall) :
  type p = GST_M3U8_PLAYLIST_TYPE_EVENT ->
  add_entry_call p c =
    (true,
     Some (set_entries
             ((if 0 <? window_size p
               then delete_old_entries (window_size p) (entries p)
               else entries p) ++ [entry_of_call c])
             (set_sequence_number (C.to_guint (call_index c + 1)) p))).
Proof.
  intros Ht. unfold add_entry_call, gst_m3u8_playlist_add_entry.
  rewrite Ht. reflexivity.
Qed.

Lemma add_entry_call_window (p : GstM3U8Playlist) (c : AddCall) :
  type p = GST_M3U8_PLAYLIST_TYPE_EVENT ->
  0 < window_size p ->
  exists p',
    add_entry_call p c = (true, Some p')
    /\ entries p' = lastn (Z.to_nat (window_size p))
                      (entries p ++ [entry_of_call c])
    /\ window_size p' = window_size p
    /\ type p' = type p
    /\ sequence_number p' = C.to_guint (call_index c + 1).
Proof.
  intros Ht Hw. eexists. split; [apply add_entry_call_event, Ht|].
  cbn. apply Z.ltb_lt in Hw as Hw'. rewrite Hw'.
  rewrite delete_old_entries_drop by exact Hw.
  rewrite lastn_snoc.
  replace (S (Z.to_nat (window_size p) - 1)) with (Z.to_nat (window_size p))
    by lia.
  auto.
Qed.

Lemma add_entries_window_aux (calls : list AddCall) :
  forall (p : GstM3U8Playlist) (c : AddCall),
    type p = GST_M3U8_PLAYLIST_TYPE_EVENT ->
    0 < window_size p ->
    exists p',
      add_entries p (c :: calls) = Some p'
      /\ entries p' = lastn (Z.to_nat (window_size p))
                        (entries p ++ map entry_of_call (c :: calls)).
Proof.
  induction calls as [|c' rest IH]; intros p c Ht Hw;
    destruct (add_entry_call_window p c Ht Hw)
      as (p1 & Hcall & Hent & Hwin & Htype & _).
  - exists p1. cbn [add_entries map]. rewrite Hcall. auto.
  - destruct (IH p1 c') as (p' & Hrun & Hent');
      [congruence | lia |].
    exists p'. split.
    + change (add_entries p (c :: c' :: rest))
        with (match add_entry_call p c with
              | (true, Some q) => add_entries q (c' :: rest)
              | _ => None
              end).
      rewrite Hcall. exact Hrun.
    + rewrite Hent', Hent, Hwin, lastn_app_lastn.
      cbn [map]. rewrite <- app_assoc. reflexivity.
Qed.

(** C4.  On a playlist with window size [W > 0], after every run of one
    or more successful [add_entry] calls the queue holds at most [W]
    entries, and they are the [W] most recently added ones (all of them
    while fewer than [W] exist), oldest first. *)
Theorem window_keeps_most_recent
    (p : GstM3U8Playlist) (calls : list AddCall) :
  type p = GST_M3U8_PLAYLIST_TYPE_EVENT ->
  0 < window_size p ->
  calls <> [] ->
  exists p',
    add_entries p calls = Some p'
    /\ (length (entries p') <= Z.to_nat (window_size p))%nat
    /\ entries p' = lastn (Z.to_nat (window_size p))
                      (entries p ++ map entry_of_call calls).
Proof.
  intros Ht Hw Hne. destruct calls as [|c rest]; [congruence|].
  destruct (add_entries_window_aux rest p c Ht Hw) as (p' & Hrun & Hent).
  exists p'. repeat split; try assumption.
  rewrite Hent, lastn_length. lia.
Qed.

Lemma add_entries_sequence_aux (calls : list AddCall) :
  forall (p : GstM3U8Playlist),
    type p = GST_M3U8_PLAYLIST_TYPE_EVENT ->
    consecutive_from (sequence_number p) calls ->
    0 <= sequence_number p ->
    sequence_number p + Z.of_nat (length calls) < 2 ^ 32 ->
    exists p',
      add_entries p calls = Some p'
      /\ sequence_number p' = sequence_number p + Z.of_nat (length calls).
Proof.
  induction calls as [|c rest IH]; intros p Ht Hcons Hlo Hhi.
  - exists p. cbn. split; [reflexivity | lia].
  - cbn [consecutive_from] in Hcons. destruct Hcons as [Hidx Hcons].
    cbn [length] in Hhi.
    pose proof (add_entry_call_event p c Ht) as Hcall.
    set (p1 := set_entries _ _) in Hcall.
    assert (Hseq : sequence_number p1 = sequence_number p + 1).
    { subst p1. cbn. rewrite Hidx. unfold C.to_guint.
      apply Z.mod_small. lia. }
    destruct (IH p1) as (p' & Hrun & Hseq').
    + subst p1. cbn. exact Ht.
    + rewrite Hseq. exact Hcons.
    + lia.
    + lia.
    + exists p'. cbn [add_entries]. rewrite Hcall. split; [exact Hrun|].
      rewrite Hseq', Hseq. cbn [length]. lia.
Qed.




(** The [end_list] flag plays no part in [add_entry]: on an EVENT playlist
    a call with a non-null [url] succeeds whether the flag is set or
    not. *)
Lemma add_entry_ignores_end_list
    (p : GstM3U8Playlist) (url : string) (title : option string)
    (duration : FP.gfloat) (index : Z) (discontinuous : bool)
    (program_date_time : option GLib.GDateTime) :
  type p = GST_M3U8_PLAYLIST_TYPE_EVENT ->
  fst (gst_m3u8_playlist_add_entry (Some p) (Some url) title duration
         index discontinuous program_date_time) = true.
Proof.
  intros Ht. unfold gst_m3u8_playlist_add_entry. rewrite Ht. reflexivity.
Qed.

(** C10.  A call with a null [url] returns FALSE and leaves the playlist
    as it was; so does a call on a null playlist; and no entry is made
    from a null [url]. *)
Theorem add_entry_null_url_fails
    (playlist : option GstM3U8Playlist) (url title : option string)
    (duration : FP.gfloat) (index : Z) (discontinuous : bool)
    (program_date_time : option GLib.GDateTime) :
  gst_m3u8_playlist_add_entry playlist None title duration index
    discontinuous program_date_time = (false, playlist)
  /\ gst_m3u8_playlist_add_entry None url title duration index
       discontinuous program_date_time = (false, None)
  /\ gst_m3u8_entry_new None title duration discontinuous
       program_date_time = None.
Proof.
  repeat split. destruct playlist; reflexivity.
Qed.

End PlaylistProperties.

Section IVProperties.

Import HlsSink Runs.

Lemma land_255 (x : Z) : Z.land x 255 = x mod 256.
Proof. change 255 with (Z.ones 8). rewrite Z.land_ones by lia. reflexivity. Qed.

Lemma testbit_255 (n : Z) : Z.testbit 255 n = (0 <=? n) && (n <? 8).
Proof.
  change 255 with (Z.ones 8).
  destruct (Z.leb_spec 0 n), (Z.ltb_spec n 8); cbn [andb].
  - apply Z.ones_spec_low; lia.
  - apply Z.ones_spec_high; lia.
  - apply Z.testbit_neg_r; lia.
  - apply Z.testbit_neg_r; lia.
Qed.

Lemma testbit_shiftl_total (a k n : Z) :
  0 <= k ->
  Z.testbit (Z.shiftl a k) n = (0 <=? n) && Z.testbit a (n - k).
Proof.
  intros Hk. destruct (Z.leb_spec 0 n).
  - apply Z.shiftl_spec; lia.
  - apply Z.testbit_neg_r; lia.
Qed.

(** Bit [n] of [val] masked to the byte that starts at bit [k]. *)
Lemma testbit_byte_mask (val k n : Z) :
  0 <= k ->
  Z.testbit (Z.land val (Z.shiftl 255 k)) n
  = Z.testbit val n && ((k <=? n) && (n <? k + 8)).
Proof.
  intros Hk. rewrite Z.land_spec, testbit_shiftl_total, testbit_255 by lia.
  f_equal.
  destruct (Z.leb_spec 0 n), (Z.leb_spec 0 (n - k)), (Z.ltb_spec (n - k) 8),
    (Z.leb_spec k n), (Z.ltb_spec n (k + 8)); cbn [andb]; try reflexivity;
    lia.
Qed.

Ltac byte_bits :=
  apply Z.bits_inj'; intros ?n ?Hn;
  repeat first
    [ rewrite testbit_byte_mask by lia
    | rewrite testbit_255
    | rewrite Z.land_spec
    | rewrite Z.lor_spec
    | rewrite Z.shiftr_spec by lia
    | rewrite testbit_shiftl_total by lia ];
  repeat match goal with
         | |- context [?a <=? ?b] => destruct (Z.leb_spec a b); try lia
         | |- context [?a <? ?b] => destruct (Z.ltb_spec a b); try lia
         end;
  cbn [andb orb];
  rewrite ?andb_true_r, ?andb_false_r, ?orb_false_r, ?orb_false_l;
  try reflexivity; try (f_equal; lia).

Lemma raw_byte_big_endian (order : byte_order) (val : Z) (i : nat) :
  (i < 4)%nat ->
  raw_byte order (GUINT_TO_BE order val) i
  = (val / 2 ^ (8 * (3 - Z.of_nat i))) mod 256.
Proof.
  intros Hi. rewrite <- land_255, <- Z.shiftr_div_pow2 by lia.
  destruct order; unfold raw_byte, GUINT_TO_BE; [|reflexivity].
  unfold GUINT32_SWAP_LE_BE, C.to_guint.
  rewrite <- (Z.land_ones _ 32) by lia.
  change (Z.ones 32)
    with (Z.lor (Z.lor (Z.shiftl 255 0) (Z.shiftl 255 8))
            (Z.lor (Z.shiftl 255 16) (Z.shiftl 255 24))).
  change 65280 with (Z.shiftl 255 8).
  change 16711680 with (Z.shiftl 255 16).
  change 4278190080 with (Z.shiftl 255 24).
  destruct i as [|[|[|[|i]]]]; try lia;
    cbn [Z.of_nat Pos.of_succ_nat Pos.succ Z.mul Z.sub Z.add Z.opp
           Pos.mul Z.pos_sub Pos.pred_double Pos.add];
    byte_bits.
Qed.

Lemma big_endian_32_decodes (x : Z) :
  0 <= x < 2 ^ 32 ->
  match big_endian_32 x with
  | [b3; b2; b1; b0] => b3 * 2 ^ 24 + b2 * 2 ^ 16 + b1 * 2 ^ 8 + b0 = x
  | _ => False
  end.
Proof.
  intros Hx. cbn [big_endian_32].
  pose proof (Z.div_mod x 256 ltac:(lia)).
  pose proof (Z.div_mod (x / 2 ^ 8) 256 ltac:(lia)).
  pose proof (Z.div_mod (x / 2 ^ 16) 256 ltac:(lia)).
  replace (x / 2 ^ 16) with (x / 2 ^ 8 / 256) in *
    by (rewrite Z.div_div by lia; reflexivity).
  replace (x / 2 ^ 24) with (x / 2 ^ 8 / 256 / 256) in *
    by (rewrite !Z.div_div by lia; reflexivity).
  change (2 ^ 8) with 256 in *.
  assert (x / 256 / 256 / 256 < 256).
  { repeat (apply Z.div_lt_upper_bound; [lia|]). lia. }
  assert (0 <= x / 256 / 256 / 256).
  { repeat (apply Z.div_pos; [|lia]). lia. }
  rewrite (Z.mod_small (x / 256 / 256 / 256)) by lia.
  lia.
Qed.

Lemma create_iv_zero_buffer (order : byte_order) (sink : GstHlsSink) :
  gst_hls_sink_create_iv order sink (replicate (Z.to_nat AES_BLOCK_SIZE) 0)
  = replicate 12 0 ++ big_endian_32 (index sink).
Proof.
  unfold gst_hls_sink_create_iv.
  change (replicate (Z.to_nat AES_BLOCK_SIZE) 0)
    with [0; 0; 0; 0; 0; 0; 0; 0; 0; 0; 0; 0; 0; 0; 0; 0].
  cbn [copy_raw]. rewrite !raw_byte_big_endian by lia.
  change (8 * (3 - Z.of_nat 3)) with 0.
  rewrite Z.pow_0_r, Z.div_1_r.
  reflexivity.
Qed.

(** C8.  The IV a segment is encrypted with is 16 bytes long: twelve zero
    bytes, then the four bytes of the big-endian encoding of the sink's
    index, on a host of either byte order and with every cipher
    library. *)
Theorem iv_is_big_endian_index
    (env : EncryptEnv) (sink : GstHlsSink) (ctx : crypto_ctx_t) :
  gst_hls_sink_init_encrypting env sink = Some ctx ->
  ctx_iv ctx = replicate 12 0 ++ big_endian_32 (index sink)
  /\ length (ctx_iv ctx) = 16%nat.
Proof.
  unfold gst_hls_sink_init_encrypting. rewrite create_iv_zero_buffer.
  intros H.
  assert (Hctx : ctx = {| ctx_key := key sink;
                          ctx_iv := replicate 12 0
                                      ++ big_endian_32 (index sink) |}).
  { destruct (backend env), (init_ok env); congruence. }
  subst ctx. split; reflexivity.
Qed.

End IVProperties.

Section SchedulerProperties.

Import HlsSink Runs.

Ltac unfold_M :=
  unfold exec, mbind, M_bind, bind, mret, M_ret, ret, get_sink, get_world,
    update_sink, update_world in *;
  cbn [fst snd] in *.

Lemma probe_while_waiting (o : Observation) (s : GstHlsSink) (w : World) :
  waiting_fku s = true ->
  gst_hls_sink_ghost_buffer_probe o (s, w) = (tt, (s, w)).
Proof.
  intros Hw. unfold gst_hls_sink_ghost_buffer_probe. unfold_M.
  rewrite Hw, orb_true_r. reflexivity.
Qed.

Lemma observe_while_waiting (os : list Observation) (s : GstHlsSink)
    (w : World) :
  waiting_fku s = true ->
  exec (observe os) (s, w) = (s, w).
Proof.
  intros Hw. induction os as [|o os IH]; [reflexivity|].
  cbn [observe]. unfold exec, mbind, M_bind, bind in *.
  rewrite probe_while_waiting by exact Hw. cbn [fst snd]. exact IH.
Qed.

(** What one probe does when the sink is not waiting and scheduling is
    on. *)
Lemma probe_when_idle (o : Observation) (s : GstHlsSink) (w : World) :
  waiting_fku s = false ->
  target_duration s <> 0 ->
  exec (gst_hls_sink_ghost_buffer_probe o) (s, w) =
    match buffer_timestamp o with
    | None => (s, w)
    | Some _ =>
        (set_waiting_fku (push_ok o)
           (set_last_running_time (buffer_running_time o) s),
         emit (ScheduleKeyUnit
                 (Some (C.to_guint64
                          (buffer_running_time o
                           + target_duration s * M3U8.GST_SECOND),
                        C.to_guint (index s + 1)))
                 (push_ok o)) w)
    end.
Proof.
  intros Hw Ht. unfold gst_hls_sink_ghost_buffer_probe. unfold_M.
  apply Z.eqb_neq in Ht. rewrite Hw, Ht. cbn [orb].
  unfold gst_hls_sink_check_schedule_next_key_unit.
  destruct (buffer_timestamp o); [|reflexivity].
  unfold schedule_next_key_unit. unfold_M.
  cbn [target_duration set_last_running_time]. rewrite Ht.
  reflexivity.
Qed.

(** C7.  Once an observation has sent a force-key-unit request upstream,
    the sink waits, and every later observation leaves the sink and the
    world as they are: no further request goes out until a closed segment
    clears the flag. *)
Theorem no_second_request_while_waiting
    (o : Observation) (os : list Observation) (s : GstHlsSink) (w : World)
    (req : Z * Z) :
  log (snd (exec (gst_hls_sink_ghost_buffer_probe o) (s, w)))
    = log w ++ [ScheduleKeyUnit (Some req) true] ->
  waiting_fku (fst (exec (gst_hls_sink_ghost_buffer_probe o) (s, w))) = true
  /\ exec (observe os) (exec (gst_hls_sink_ghost_buffer_probe o) (s, w))
     = exec (gst_hls_sink_ghost_buffer_probe o) (s, w).
Proof.
  intros Hlog.
  assert (Hwait :
    waiting_fku (fst (exec (gst_hls_sink_ghost_buffer_probe o) (s, w)))
    = true).
  { destruct (waiting_fku s) eqn:Hw.
    - unfold exec in *. rewrite probe_while_waiting in * by exact Hw.
      exact Hw.
    - destruct (decide (target_duration s = 0)) as [Ht|Ht].
      + exfalso. revert Hlog.
        unfold gst_hls_sink_ghost_buffer_probe. unfold_M.
        rewrite Ht. cbn. intros Hlog.
        apply (f_equal length) in Hlog. rewrite length_app in Hlog.
        cbn in Hlog. lia.
      + rewrite probe_when_idle in * by assumption.
        destruct (buffer_timestamp o).
        * cbn in Hlog. apply app_inv_head in Hlog.
          cbn. congruence.
        * exfalso. cbn in Hlog.
          apply (f_equal length) in Hlog. rewrite length_app in Hlog.
          cbn in Hlog. lia. }
  split; [exact Hwait|].
  destruct (exec (gst_hls_sink_ghost_buffer_probe o) (s, w)) as [s1 w1].
  apply observe_while_waiting. exact Hwait.
Qed.

(** X1.  In a run of observations, from any sink, at most one
    force-key-unit request goes out: after the first one that is sent the
    sink waits, and a push that fails is not a request sent. *)
Lemma observe_at_most_one_request (os : list Observation) :
  forall (s : GstHlsSink) (w : World),
    exists sent,
      log (snd (exec (observe os) (s, w))) = log w ++ sent
      /\ (length (List.filter is_request sent) <= 1)%nat.
Proof.
  induction os as [|o os IH]; intros s w.
  - exists []. cbn. rewrite app_nil_r. split; [reflexivity | lia].
  - cbn [observe].
    change (exec (gst_hls_sink_ghost_buffer_probe o;; observe os) (s, w))
      with (exec (observe os)
              (exec (gst_hls_sink_ghost_buffer_probe o) (s, w))).
    destruct (waiting_fku s) eqn:Hw.
    { unfold exec at 2. rewrite probe_while_waiting by exact Hw.
      cbn [snd]. apply IH. }
    destruct (decide (target_duration s = 0)) as [Ht|Ht].
    { replace (exec (gst_hls_sink_ghost_buffer_probe o) (s, w))
        with (s, w); [apply IH|].
      unfold gst_hls_sink_ghost_buffer_probe. unfold_M.
      rewrite Ht. reflexivity. }
    rewrite probe_when_idle by assumption.
    destruct (buffer_timestamp o); [|apply IH].
    destruct (push_ok o).
    + rewrite observe_while_waiting by reflexivity.
      eexists [_]. split; [reflexivity|]. cbn. lia.
    + match goal with
      | |- context [exec (observe os) (?s1, ?w1)] =>
          destruct (IH s1 w1) as (sent & Hsent & Hcount)
      end.
      eexists (_ :: sent). cbn [log emit] in Hsent. rewrite Hsent.
      split; [rewrite <- app_assoc; reflexivity|].
      cbn. exact Hcount.
Qed.

End SchedulerProperties.

Section EncryptionProperties.

Import HlsSink Runs.



End EncryptionProperties.

Section HandlerProperties.

Import HlsSink Runs Phases.

Ltac unfold_M :=
  unfold exec, mbind, M_bind, bind, mret, M_ret, ret, get_sink, get_world,
    update_sink, update_world in *;
  cbn [fst snd] in *.

Lemma exec_bind {A B : Type} (m : M A) (k : A -> M B)
    (st : GstHlsSink * World) :
  exec (m ≫= k) st = exec (k (fst (m st))) (snd (m st)).
Proof. reflexivity. Qed.

Lemma exec_update_sink (f : GstHlsSink -> GstHlsSink) (s : GstHlsSink)
    (w : World) :
  update_sink f (s, w) = (tt, (f s, w)).
Proof. reflexivity. Qed.

Lemma exec_update_world (f : World -> World) (s : GstHlsSink) (w : World) :
  update_world f (s, w) = (tt, (s, f w)).
Proof. reflexivity. Qed.

Ltac step :=
  rewrite exec_bind;
  rewrite ?exec_update_sink, ?exec_update_world;
  try change (get_sink (?s, ?w)) with (s, (s, w));
  try change (get_world (?s, ?w)) with (w, (s, w));
  cbn [fst snd].

Lemma write_playlist_log (write_ok : bool) (s : GstHlsSink) (w : World) :
  exists (res : bool),
    fst (exec (gst_hls_sink_write_playlist write_ok) (s, w)) = s
    /\ log (snd (exec (gst_hls_sink_write_playlist write_ok) (s, w)))
       = log w ++ [PlaylistWrite
                     (match playlist s with
                      | Some p => M3U8.gst_m3u8_playlist_render p
                      | None => None
                      end) res].
Proof.
  unfold gst_hls_sink_write_playlist. unfold_M.
  destruct (match playlist s with
            | Some p => M3U8.gst_m3u8_playlist_render p
            | None => None
            end) as [text|].
  - exists write_ok. destruct write_ok; cbn; auto.
  - exists false. cbn. auto.
Qed.


Lemma handle_segment_closed_exec
    (env : MessageEnv) (filename : string) (running_time : Z)
    (s : GstHlsSink) (w : World) :
  exec (gst_hls_sink_handle_message env
          (segment_closed filename running_time)) (s, w)
  = exec (schedule_next_key_unit (push_event_ok env))
      (after_flags
         (exec (gst_hls_sink_write_playlist (playlist_write_ok env))
            (if negb (encryption_method s =? GST_HLS_SINK_ENC_NONE)
             then after_encrypt env filename
                    (after_append env filename running_time s w)
             else after_append env filename running_time s w))).
Proof.
  unfold gst_hls_sink_handle_message, segment_closed.
  change (negb (String.eqb "GstMultiFileSink" "GstMultiFileSink"))
    with false.
  cbv iota. do 4 step.
  cbn [encryption_method set_last_running_time set_playlist].
  destruct (negb (encryption_method s =? GST_HLS_SINK_ENC_NONE));
    reflexivity.
Qed.


End HandlerProperties.

Section TargetDuration.

Import FP M3U8 Runs.

(** [digits2_pos] counts binary digits. *)
Lemma digits2_pos_bounds (m : positive) :
  2 ^ (Z.pos (digits2_pos m) - 1) <= Z.pos m < 2 ^ Z.pos (digits2_pos m).
Proof.
  induction m as [m IH|m IH|]; cbn [digits2_pos].
  - rewrite Pos2Z.inj_succ.
    replace (Z.succ (Z.pos (digits2_pos m)) - 1)
      with (Z.succ (Z.pos (digits2_pos m) - 1)) by lia.
    rewrite !Z.pow_succ_r by lia. lia.
  - rewrite Pos2Z.inj_succ.
    replace (Z.succ (Z.pos (digits2_pos m)) - 1)
      with (Z.succ (Z.pos (digits2_pos m) - 1)) by lia.
    rewrite !Z.pow_succ_r by lia. lia.
  - cbn. lia.
Qed.

Lemma digits2_pos_unique (m : positive) (d : Z) :
  2 ^ (d - 1) <= Z.pos m < 2 ^ d -> Z.pos (digits2_pos m) = d.
Proof.
  intros [Hlo Hhi]. pose proof (digits2_pos_bounds m) as [Hlo' Hhi'].
  assert (Hd : 0 < d).
  { destruct (Z.ltb_spec 0 d) as [|Hle]; [assumption|].
    exfalso. destruct (Z.eq_dec d 0) as [->|Hne].
    - cbn in Hhi. lia.
    - rewrite Z.pow_neg_r in Hhi by lia. lia. }
  destruct (Z.lt_trichotomy (Z.pos (digits2_pos m)) d) as [Hlt|[Heq|Hgt]];
    [exfalso | exact Heq | exfalso].
  - assert (2 ^ Z.pos (digits2_pos m) <= 2 ^ (d - 1))
      by (apply Z.pow_le_mono_r; lia).
    lia.
  - assert (2 ^ d <= 2 ^ (Z.pos (digits2_pos m) - 1))
      by (apply Z.pow_le_mono_r; lia).
    lia.
Qed.

Lemma iter_xO_mul (k m : positive) :
  Z.pos (Pos.iter xO m k) = Z.pos m * 2 ^ Z.pos k.
Proof.
  revert m. induction k as [|k IH] using Pos.peano_ind; intros m.
  - cbn. lia.
  - rewrite Pos.iter_succ, Pos2Z.inj_succ, Z.pow_succ_r by lia.
    rewrite Pos2Z.inj_xO, IH. lia.
Qed.

Lemma iter_pos_Pos_iter {A : Type} (f : A -> A) (n : positive) (x : A) :
  SpecFloat.iter_pos f n x = Pos.iter f x n.
Proof.
  revert x. induction n as [n IH|n IH|]; intros x;
    cbn [SpecFloat.iter_pos Pos.iter].
  - rewrite !IH, <- !Pos.iter_swap. reflexivity.
  - rewrite !IH. reflexivity.
  - reflexivity.
Qed.

Lemma shr_1_even (a : Z) :
  0 <= a ->
  shr_1 {| shr_m := a * 2; shr_r := false; shr_s := false |}
  = {| shr_m := a; shr_r := false; shr_s := false |}.
Proof.
  intros Ha. destruct a as [|b|b]; [reflexivity | | lia].
  rewrite Z.mul_comm. reflexivity.
Qed.

(** Shifting out [k] zero bits is exact. *)
Lemma iter_shr_1_exact (k : positive) (a : Z) :
  0 <= a ->
  SpecFloat.iter_pos shr_1 k
    {| shr_m := a * 2 ^ Z.pos k; shr_r := false; shr_s := false |}
  = {| shr_m := a; shr_r := false; shr_s := false |}.
Proof.
  rewrite iter_pos_Pos_iter. revert a.
  induction k as [|k IH] using Pos.peano_ind; intros a Ha.
  - cbn [Pos.iter]. change (2 ^ 1) with 2. apply shr_1_even, Ha.
  - rewrite Pos.iter_succ_r, Pos2Z.inj_succ, Z.pow_succ_r by lia.
    replace (a * (2 * 2 ^ Z.pos k)) with ((a * 2 ^ Z.pos k) * 2) by lia.
    rewrite shr_1_even by (apply Z.mul_nonneg_nonneg; lia).
    apply IH, Ha.
Qed.

Lemma digits2_pos_shift (a M : positive) (k : Z) :
  0 <= k -> Z.pos M = Z.pos a * 2 ^ k ->
  Z.pos (digits2_pos M) = Z.pos (digits2_pos a) + k.
Proof.
  intros Hk HM. apply digits2_pos_unique.
  pose proof (digits2_pos_bounds a) as [Hlo Hhi].
  replace (Z.pos (digits2_pos a) + k - 1)
    with ((Z.pos (digits2_pos a) - 1) + k) by lia.
  rewrite !Z.pow_add_r by lia. rewrite HM.
  assert (0 < 2 ^ k) by (apply Z.pow_pos_nonneg; lia).
  split.
  - apply Z.mul_le_mono_nonneg_r; lia.
  - apply Z.mul_lt_mono_pos_r; lia.
Qed.

Section Precision.

Variable prec : Z.
Hypothesis Hprec : 0 < prec.

Lemma digits2_pos_log2 (M : positive) :
  Z.pos (digits2_pos M) = Z.log2 (Z.pos M) + 1.
Proof.
  apply digits2_pos_unique.
  pose proof (Z.log2_spec (Z.pos M) ltac:(lia)) as [Hlo Hhi].
  replace (Z.log2 (Z.pos M) + 1 - 1) with (Z.log2 (Z.pos M)) by lia.
  replace (Z.log2 (Z.pos M) + 1) with (Z.succ (Z.log2 (Z.pos M))) by lia.
  lia.
Qed.

(** The normalized representation of a number that fits. *)
Lemma normalized_exists (N : positive) :
  fits prec (Z.pos N) ->
  exists (a : positive) (e : Z),
    e = Z.log2 (Z.pos N) + 1 - prec
    /\ holds prec (S754_finite false a e) (Z.pos N).
Proof.
  intros [_ Hfit]. set (d := Z.log2 (Z.pos N) + 1) in *.
  assert (Hd : Z.pos (digits2_pos N) = d) by apply digits2_pos_log2.
  destruct (Z.leb_spec d prec) as [Hle|Hgt].
  - assert (Hpos : 0 < Z.pos N * 2 ^ (prec - d)).
    { apply Z.mul_pos_pos; [lia | apply Z.pow_pos_nonneg; lia]. }
    destruct (Z.pos N * 2 ^ (prec - d)) as [|a|a] eqn:Ha; try lia.
    exists a, (d - prec). split; [reflexivity|].
    cbn [holds]. split; [reflexivity|]. split.
    + rewrite (digits2_pos_shift N a (prec - d)) by lia. lia.
    + destruct (Z.ltb_spec (d - prec) 0).
      * rewrite <- Ha. f_equal. f_equal. lia.
      * assert (Hdp : d - prec = 0) by lia.
        assert (Hpd : prec - d = 0) by lia.
        rewrite Hdp. rewrite Hpd in Ha.
        change (2 ^ 0) with 1 in *. lia.
  - rewrite Z.max_r in Hfit by lia.
    assert (H2 : 0 < 2 ^ (d - prec)) by (apply Z.pow_pos_nonneg; lia).
    pose proof (Z.div_mod (Z.pos N) (2 ^ (d - prec)) ltac:(lia)) as Hdm.
    rewrite Hfit, Z.add_0_r in Hdm.
    assert (Hq : 0 < Z.pos N / 2 ^ (d - prec)).
    { destruct (Z.pos N / 2 ^ (d - prec)) as [|q|q] eqn:Hq; nia. }
    destruct (Z.pos N / 2 ^ (d - prec)) as [|a|a] eqn:Ha; try lia.
    exists a, (d - prec). split; [reflexivity|].
    cbn [holds]. split; [reflexivity|]. split.
    + pose proof (digits2_pos_shift a N (d - prec) ltac:(lia)) as Hs.
      rewrite Hd in Hs. rewrite Z.mul_comm in Hs. specialize (Hs Hdm). lia.
    + destruct (Z.ltb_spec (d - prec) 0); [lia|]. lia.
Qed.

Lemma holds_truncate (x : spec_float) (n : Z) :
  holds prec x n -> FP.truncate x = Some n.
Proof.
  destruct x as [s|s| |s a e]; cbn [holds FP.truncate]; try tauto.
  - intros [_ ->]. reflexivity.
  - intros (-> & _ & Hv). cbn [cond_Zopp]. f_equal.
    destruct (Z.ltb_spec e 0).
    + rewrite Hv. apply Z.div_mul.
      apply Z.pow_nonzero; lia.
    + lia.
Qed.

(** The value of a normalized float lies between two powers of two. *)
Lemma holds_bounds (a : positive) (e n : Z) :
  holds prec (S754_finite false a e) n ->
  0 < n /\ 0 <= prec - 1 + e
  /\ 2 ^ (prec - 1 + e) <= n < 2 ^ (prec + e).
Proof.
  intros (_ & Hd & Hv).
  pose proof (digits2_pos_bounds a) as [Hlo Hhi]. rewrite Hd in *.
  destruct (Z.ltb_spec e 0) as [Hneg|Hpos].
  - assert (H2 : 0 < 2 ^ (- e)) by (apply Z.pow_pos_nonneg; lia).
    assert (Hn : 0 < n) by nia.
    assert (He : 0 <= prec - 1 + e).
    { destruct (Z.leb_spec 0 (prec - 1 + e)) as [|Hlt]; [assumption|].
      exfalso.
      assert (2 ^ prec <= 2 ^ (- e)) by (apply Z.pow_le_mono_r; lia).
      nia. }
    repeat split; try assumption.
    + apply (Z.mul_le_mono_pos_r _ _ (2 ^ (- e))); [exact H2|].
      rewrite <- Z.pow_add_r by lia.
      replace (prec - 1 + e + - e) with (prec - 1) by lia. lia.
    + apply (Z.mul_lt_mono_pos_r (2 ^ (- e))); [exact H2|].
      rewrite <- Z.pow_add_r by lia.
      replace (prec + e + - e) with prec by lia. lia.
  - assert (H2 : 0 < 2 ^ e) by (apply Z.pow_pos_nonneg; lia).
    rewrite !Z.pow_add_r by lia. subst n.
    repeat split; try nia.
Qed.

Lemma holds_ltb (x y : spec_float) (n n' : Z) :
  holds prec x n -> holds prec y n' -> SFltb x y = (n <? n').
Proof.
  destruct x as [s|s| |s a e], y as [s'|s'| |s' a' e'];
    cbn [holds]; try tauto.
  - intros [-> ->] [-> ->]. reflexivity.
  - intros [-> ->] (-> & Hd' & Hv').
    destruct (holds_bounds a' e' n') as [Hpos _]; [cbn; auto|].
    cbn. symmetry. apply Z.ltb_lt. exact Hpos.
  - intros (-> & Hd & Hv) [-> ->].
    destruct (holds_bounds a e n) as [Hpos _]; [cbn; auto|].
    cbn. symmetry. apply Z.ltb_ge. lia.
  - intros (-> & Hd & Hv) (-> & Hd' & Hv').
    destruct (holds_bounds a e n) as (Hn & He & Hlo & Hhi); [cbn; auto|].
    destruct (holds_bounds a' e' n') as (Hn' & He' & Hlo' & Hhi');
      [cbn; auto|].
    unfold SFltb, SFcompare.
    destruct (Z.compare_spec e e') as [Heq|Hlt|Hgt].
    + subst e'. rewrite Pos.compare_cont_spec. cbn [Pos.switch_Eq].
      change (a ?= a')%positive with (Z.pos a ?= Z.pos a').
      assert (H2 : 0 < 2 ^ Z.abs e) by (apply Z.pow_pos_nonneg; lia).
      destruct (Z.ltb_spec e 0).
      * replace (- e) with (Z.abs e) in * by lia.
        destruct (Z.compare_spec (Z.pos a) (Z.pos a')) as [Hc|Hc|Hc];
          symmetry; [apply Z.ltb_ge | apply Z.ltb_lt | apply Z.ltb_ge]; nia.
      * replace e with (Z.abs e) in Hv, Hv' by lia.
        destruct (Z.compare_spec (Z.pos a) (Z.pos a')) as [Hc|Hc|Hc];
          symmetry; [apply Z.ltb_ge | apply Z.ltb_lt | apply Z.ltb_ge]; nia.
    + symmetry. apply Z.ltb_lt.
      assert (2 ^ (prec + e) <= 2 ^ (prec - 1 + e'))
        by (apply Z.pow_le_mono_r; lia).
      lia.
    + symmetry. apply Z.ltb_ge.
      assert (2 ^ (prec + e') <= 2 ^ (prec - 1 + e))
        by (apply Z.pow_le_mono_r; lia).
      lia.
Qed.

Lemma fits_small (n : Z) : 0 <= n < 2 ^ prec -> fits prec n.
Proof.
  intros [Hlo Hhi]. split; [exact Hlo|].
  destruct (Z.eq_dec n 0) as [->|Hne]; [apply Z.mod_0_l|].
  { apply Z.pow_nonzero; lia. }
  assert (Z.log2 n < prec) by (apply Z.log2_lt_pow2; lia).
  rewrite Z.max_l by lia. apply Z.mod_1_r.
Qed.

Lemma shl_align_fst (m : positive) (e e' : Z) :
  e' <= e -> Z.pos (fst (shl_align m e e')) = Z.pos m * 2 ^ (e - e').
Proof.
  intros Hle. unfold shl_align.
  destruct (e' - e) as [|k|k] eqn:Hk; cbn [fst]; try lia.
  - replace (e - e') with 0 by lia. lia.
  - rewrite iter_xO_mul. f_equal. f_equal. lia.
Qed.

End Precision.

Section Rounding.

Variables prec emax : Z.
Hypothesis Hprec : 0 < prec.
Hypothesis Hemax : prec < emax.

Lemma fexp_normal (e : Z) :
  3 - emax <= e -> fexp prec emax e = e - prec.
Proof. intros He. unfold fexp, emin. lia. Qed.

(** A number that has a normalized representation [(a, e')] is rounded to
    it. *)
Lemma binary_round_exact (M a : positive) (E e' : Z) :
  Z.pos (digits2_pos a) = prec ->
  3 - emax - prec <= e' <= emax - prec ->
  (e' <= E /\ Z.pos a = Z.pos M * 2 ^ (E - e')
   \/ E < e' /\ Z.pos M = Z.pos a * 2 ^ (e' - E)) ->
  binary_round prec emax false M E = S754_finite false a e'.
Proof.
  intros Hda He' Hval.
  assert (HdM : Z.pos (digits2_pos M) + E = prec + e').
  { destruct Hval as [[Hle Hv]|[Hlt Hv]].
    - rewrite <- Hda, (digits2_pos_shift M a (E - e')) by lia. lia.
    - rewrite (digits2_pos_shift a M (e' - E)) by lia. lia. }
  unfold binary_round.
  rewrite HdM, fexp_normal by lia.
  replace (prec + e' - prec) with e' by lia.
  assert (Hfin : forall (mrs : shr_record) (e : Z),
            mrs = {| shr_m := Z.pos a; shr_r := false; shr_s := false |} ->
            e = e' ->
            (let '(mrs', e1) := (mrs, e) in
             let '(mrs'', e2) :=
               shr_fexp prec emax
                 (round_nearest_even (shr_m mrs') (loc_of_shr_record mrs'))
                 e1 loc_Exact in
             match shr_m mrs'' with
             | 0 => S754_zero false
             | Z.pos m =>
                 if e2 <=? emax - prec then S754_finite false m e2
                 else S754_infinity false
             | Z.neg _ => S754_nan
             end) = S754_finite false a e').
  { intros mrs e -> ->. cbn [shr_m loc_of_shr_record round_nearest_even].
    unfold shr_fexp. cbn [Zdigits2]. rewrite Hda, fexp_normal by lia.
    replace (prec + e' - prec - e') with 0 by lia.
    cbn [shr shr_record_of_loc shr_m].
    destruct (Z.leb_spec e' (emax - prec)); [reflexivity | lia]. }
  unfold shl_align, binary_round_aux.
  destruct Hval as [[Hle Hv]|[Hlt Hv]].
  - destruct (e' - E) as [|k|k] eqn:Hk; try lia.
    + assert (E = e') by lia. subst E.
      replace (e' - e') with 0 in Hv by lia. rewrite Z.mul_1_r in Hv.
      injection Hv as <-.
      unfold shr_fexp. cbn [Zdigits2]. rewrite Hda, fexp_normal by lia.
      replace (prec + e' - prec - e') with 0 by lia.
      cbn [shr shr_record_of_loc]. apply Hfin; reflexivity.
    + assert (Ha : Pos.iter xO M k = a).
      { apply Pos2Z.inj. rewrite iter_xO_mul, Hv. f_equal. f_equal. lia. }
      rewrite Ha.
      unfold shr_fexp. cbn [Zdigits2]. rewrite Hda, fexp_normal by lia.
      replace (prec + e' - prec - e') with 0 by lia.
      cbn [shr shr_record_of_loc]. apply Hfin; reflexivity.
  - destruct (e' - E) as [|k|k] eqn:Hk; try lia.
    unfold shr_fexp. cbn [Zdigits2]. rewrite HdM, fexp_normal by lia.
    replace (prec + e' - prec - E) with (Z.pos k) by lia.
    cbn [shr shr_record_of_loc].
    rewrite Hv, iter_shr_1_exact by lia.
    apply Hfin; [reflexivity | lia].
Qed.

(** Rounding a number that fits gives the float that holds it. *)
Lemma binary_round_fits (M : positive) (E : Z) (N : positive) :
  E <= 0 ->
  Z.pos M = Z.pos N * 2 ^ (- E) ->
  fits prec (Z.pos N) ->
  Z.log2 (Z.pos N) + 1 <= emax ->
  holds prec (binary_round prec emax false M E) (Z.pos N).
Proof.
  intros HE HM Hfit Hmax.
  destruct (normalized_exists prec N Hfit) as (a & e & He & Hholds).
  rewrite (binary_round_exact M a E e); [exact Hholds | | |].
  - apply Hholds.
  - pose proof (Z.log2_nonneg (Z.pos N)). lia.
  - destruct Hholds as (_ & _ & Hv).
    destruct (Z.ltb_spec e 0) as [Hneg|Hpos].
    + destruct (Z.leb_spec e E) as [Hle|Hlt].
      * left. split; [exact Hle|]. rewrite Hv, HM.
        replace (- e) with (- E + (E - e)) by lia.
        rewrite Z.pow_add_r by lia. lia.
      * right. split; [exact Hlt|]. rewrite HM, Hv.
        replace (- E) with (- e + (e - E)) by lia.
        rewrite Z.pow_add_r by lia. lia.
    + destruct (Z.eq_dec e E) as [Heq|Hne].
      * left. assert (He0 : e = 0) by lia. assert (HE0 : E = 0) by lia.
        rewrite He0 in Hv |- *. rewrite HE0 in HM |- *.
        change (2 ^ (0 - 0)) with 1. change (2 ^ (- 0)) with 1 in HM.
        change (2 ^ 0) with 1 in Hv. lia.
      * right. split; [lia|]. rewrite HM, Hv.
        replace (e - E) with (e + - E) by lia.
        rewrite Z.pow_add_r by lia. lia.
Qed.

Lemma binary_normalize_fits (n : Z) :
  fits prec n ->
  Z.log2 n + 1 <= emax ->
  holds prec (binary_normalize prec emax n 0 false) n.
Proof.
  intros Hfit Hmax. destruct n as [|N|N].
  - cbn. auto.
  - cbn [binary_normalize].
    apply binary_round_fits; [lia | cbn; lia | exact Hfit | exact Hmax].
  - destruct Hfit. lia.
Qed.

(** Adding two floats whose sum still fits is exact. *)
Lemma holds_add (x y : spec_float) (n n' : Z) :
  holds prec x n -> holds prec y n' -> n + n' < 2 ^ prec ->
  holds prec (SFadd prec emax x y) (n + n').
Proof.
  destruct x as [s|s| |s a e], y as [s'|s'| |s' a' e'];
    cbn [holds]; try tauto.
  - intros [-> ->] [-> ->] _. cbn. auto.
  - intros [-> ->] Hy _. exact Hy.
  - intros Hx [-> ->] _. rewrite Z.add_0_r. exact Hx.
  - intros (-> & Hd & Hv) (-> & Hd' & Hv') Hsum.
    destruct (holds_bounds prec Hprec a e n) as (Hn & He & Hlo & Hhi);
      [cbn; auto|].
    destruct (holds_bounds prec Hprec a' e' n') as (Hn' & He' & Hlo' & Hhi');
      [cbn; auto|].
    assert (Hex : e <= 0).
    { destruct (Z.leb_spec e 0); [assumption|]. exfalso.
      assert (2 ^ prec <= 2 ^ (prec - 1 + e))
        by (apply Z.pow_le_mono_r; lia). lia. }
    assert (Hex' : e' <= 0).
    { destruct (Z.leb_spec e' 0); [assumption|]. exfalso.
      assert (2 ^ prec <= 2 ^ (prec - 1 + e'))
        by (apply Z.pow_le_mono_r; lia). lia. }
    assert (Ha : Z.pos a = n * 2 ^ (- e)).
    { destruct (Z.ltb_spec e 0); [exact Hv|].
      assert (e = 0) by lia. subst e. cbn in *. lia. }
    assert (Ha' : Z.pos a' = n' * 2 ^ (- e')).
    { destruct (Z.ltb_spec e' 0); [exact Hv'|].
      assert (e' = 0) by lia. subst e'. cbn in *. lia. }
    cbn [SFadd cond_Zopp]. set (ez := Z.min e e').
    assert (H1 : Z.pos (fst (shl_align a e ez)) = n * 2 ^ (- ez)).
    { rewrite shl_align_fst, Ha by (unfold ez; lia).
      rewrite <- Z.mul_assoc, <- Z.pow_add_r by (unfold ez; lia).
      f_equal. f_equal. lia. }
    assert (H2 : Z.pos (fst (shl_align a' e' ez)) = n' * 2 ^ (- ez)).
    { rewrite shl_align_fst, Ha' by (unfold ez; lia).
      rewrite <- Z.mul_assoc, <- Z.pow_add_r by (unfold ez; lia).
      f_equal. f_equal. lia. }
    rewrite <- Pos2Z.inj_add. cbn [binary_normalize].
    destruct (n + n') as [|N|N] eqn:HN; try lia.
    apply binary_round_fits.
    + unfold ez. lia.
    + rewrite Pos2Z.inj_add, H1, H2, <- HN. lia.
    + apply (fits_small prec Hprec). lia.
    + assert (Z.log2 (Z.pos N) < prec) by (apply Z.log2_lt_pow2; lia).
      lia.
Qed.

(** Rounding a quotient digit string of [prec] or [prec + 1] digits: the
    result, read in units of [2 ^ e'], is [q] or the next number up (the
    next even numbers, when a digit is dropped), and [q] itself when nothing
    is lost. *)
Lemma binary_round_aux_near (q e' : Z) (loc : location) :
  2 ^ (prec - 1) <= q < 2 ^ (prec + 1) ->
  3 - emax <= e' + prec -> e' + 2 <= emax - prec ->
  exists (mf : positive) (ef V : Z),
    binary_round_aux prec emax false q e' loc = S754_finite false mf ef
    /\ e' <= ef <= e' + 2 /\ Z.pos mf * 2 ^ (ef - e') = V
    /\ (loc = loc_Exact -> q < 2 ^ prec \/ Z.even q = true -> V = q)
    /\ (q < 2 ^ prec -> V = q \/ V = q + 1)
    /\ (2 ^ prec <= q -> V = 2 * (q / 2) \/ V = 2 * (q / 2) + 2).
Proof.
  intros [Hqlo Hqhi] Helo Hehi.
  assert (Hpp : 0 < 2 ^ (prec - 1)) by (apply Z.pow_pos_nonneg; lia).
  assert (Hp2 : 2 ^ prec = 2 * 2 ^ (prec - 1)).
  { rewrite <- Z.pow_succ_r by lia. f_equal. lia. }
  assert (Hp3 : 2 ^ (prec + 1) = 2 * 2 ^ prec).
  { rewrite <- Z.pow_succ_r by lia. f_equal. }
  (* the second normalization step *)
  assert (Hsecond : forall (m1 e1 : Z),
            2 ^ (prec - 1) <= m1 <= 2 ^ prec ->
            e' <= e1 <= e' + 1 ->
            exists (mf : positive) (ef : Z),
              (let '(mrs'', e'') := shr_fexp prec emax m1 e1 loc_Exact in
               match shr_m mrs'' with
               | 0 => S754_zero false
               | Z.pos m =>
                   if e'' <=? emax - prec then S754_finite false m e''
                   else S754_infinity false
               | Z.neg _ => S754_nan
               end) = S754_finite false mf ef
              /\ e1 <= ef <= e1 + 1 /\ Z.pos mf * 2 ^ (ef - e1) = m1).
  { intros m1 e1 [Hm1lo Hm1hi] He1.
    destruct m1 as [|m1|m1]; try lia.
    unfold shr_fexp. cbn [Zdigits2].
    destruct (Z.eq_dec (Z.pos m1) (2 ^ prec)) as [Heq|Hne].
    - assert (Hdig : Z.pos (digits2_pos m1) = prec + 1).
      { apply digits2_pos_unique.
        replace (prec + 1 - 1) with prec by lia. lia. }
      rewrite Hdig, fexp_normal by lia.
      replace (prec + 1 + e1 - prec - e1) with 1 by lia.
      cbn [shr shr_record_of_loc SpecFloat.iter_pos].
      rewrite Heq, Hp2.
      rewrite (Z.mul_comm 2), shr_1_even by lia.
      cbn [shr_m].
      destruct (2 ^ (prec - 1)) as [|h|h] eqn:Hh; try lia.
      exists h, (e1 + 1).
      destruct (Z.leb_spec (e1 + 1) (emax - prec)); [|lia].
      split; [reflexivity|]. split; [lia|].
      replace (e1 + 1 - e1) with 1 by lia. lia.
    - assert (Hdig : Z.pos (digits2_pos m1) = prec).
      { apply digits2_pos_unique. lia. }
      rewrite Hdig, fexp_normal by lia.
      replace (prec + e1 - prec - e1) with 0 by lia.
      cbn [shr shr_record_of_loc shr_m].
      exists m1, e1.
      destruct (Z.leb_spec e1 (emax - prec)); [|lia].
      split; [reflexivity|]. split; [lia|].
      replace (e1 - e1) with 0 by lia. lia. }
  assert (Hloc : forall (m : Z) (l : location),
            loc_of_shr_record (shr_record_of_loc m l) = l).
  { intros m [|[ | | ]]; reflexivity. }
  assert (Hrne : forall (m : Z) (l : location),
            round_nearest_even m l = m \/ round_nearest_even m l = m + 1).
  { intros m [|[ | | ]]; cbn; auto. destruct (Z.even m); auto. }
  destruct q as [|q|q]; try lia.
  unfold binary_round_aux.
  destruct (Z.ltb_spec (Z.pos q) (2 ^ prec)) as [Hsmall|Hbig].
  - (* [prec] digits: nothing is dropped *)
    assert (Hdig : Z.pos (digits2_pos q) = prec).
    { apply digits2_pos_unique. lia. }
    unfold shr_fexp at 1. cbn [Zdigits2].
    rewrite Hdig, fexp_normal by lia.
    replace (prec + e' - prec - e') with 0 by lia.
    cbn [shr]. rewrite Hloc.
    assert (Hsm : shr_m (shr_record_of_loc (Z.pos q) loc) = Z.pos q).
    { destruct loc as [|[ | | ]]; reflexivity. }
    rewrite Hsm.
    destruct (Hsecond (round_nearest_even (Z.pos q) loc) e')
      as (mf & ef & Hres & Hef & Hval).
    { destruct (Hrne (Z.pos q) loc) as [-> | ->]; lia. }
    { lia. }
    exists mf, ef, (round_nearest_even (Z.pos q) loc).
    split; [exact Hres|]. split; [lia|]. split; [exact Hval|].
    split; [intros -> _; reflexivity|].
    split; [intros _; apply Hrne | lia].
  - (* [prec + 1] digits: the last one is dropped *)
    assert (Hdig : Z.pos (digits2_pos q) = prec + 1).
    { apply digits2_pos_unique.
      replace (prec + 1 - 1) with prec by lia. lia. }
    unfold shr_fexp at 1. cbn [Zdigits2].
    rewrite Hdig, fexp_normal by lia.
    replace (prec + 1 + e' - prec - e') with 1 by lia.
    cbn [shr SpecFloat.iter_pos].
    set (mrs := shr_1 (shr_record_of_loc (Z.pos q) loc)).
    assert (Hm : shr_m mrs = Z.pos q / 2).
    { subst mrs. destruct loc as [|[ | | ]], q as [q|q|];
        cbn [shr_record_of_loc shr_1 shr_m];
        try (rewrite Pos2Z.inj_xI); try (rewrite Pos2Z.inj_xO);
        try reflexivity;
        first [ apply Z.div_unique with (r := 1); lia
              | apply Z.div_unique with (r := 0); lia ]. }
    assert (Hexact : loc = loc_Exact -> Z.even (Z.pos q) = true ->
                     loc_of_shr_record mrs = loc_Exact).
    { intros -> Hev. subst mrs. destruct q as [q|q|]; try discriminate.
      reflexivity. }
    assert (Hhalf : 2 ^ (prec - 1) <= Z.pos q / 2 < 2 ^ prec).
    { split.
      - apply Z.div_le_lower_bound; lia.
      - apply Z.div_lt_upper_bound; lia. }
    destruct (Hsecond (round_nearest_even (shr_m mrs)
                         (loc_of_shr_record mrs)) (e' + 1))
      as (mf & ef & Hres & Hef & Hval).
    { rewrite Hm.
      destruct (Hrne (Z.pos q / 2) (loc_of_shr_record mrs)) as [-> | ->];
        lia. }
    { lia. }
    exists mf, ef,
      (2 * round_nearest_even (shr_m mrs) (loc_of_shr_record mrs)).
    split; [exact Hres|]. split; [lia|]. split.
    { rewrite <- Hval.
      replace (ef - e') with (1 + (ef - (e' + 1))) by lia.
      rewrite Z.pow_add_r by lia. change (2 ^ 1) with 2. lia. }
    split.
    { intros Hl [Hlt|Hev]; [lia|].
      rewrite (Hexact Hl Hev), Hm. cbn [round_nearest_even].
      pose proof (Zeven_div2 (Z.pos q)) as H2.
      rewrite Z.div2_div in H2. symmetry. apply H2.
      apply Zeven_bool_iff. exact Hev. }
    split; [lia|].
    intros _. rewrite Hm.
    destruct (Hrne (Z.pos q / 2) (loc_of_shr_record mrs)) as [-> | ->];
      [left | right]; lia.
Qed.

End Rounding.

(** [ceil] of a float given in units of [2 ^ e']. *)
Lemma ceiling_in_units (mf : positive) (ef e' V K : Z) :
  ef < 0 -> e' <= ef ->
  Z.pos mf * 2 ^ (ef - e') = V ->
  (K - 1) * 2 ^ (- e') < V <= K * 2 ^ (- e') ->
  FP.ceiling (S754_finite false mf ef) = Some K.
Proof.
  intros Hef He' HV [Hlo Hhi]. unfold FP.ceiling.
  destruct (Z.ltb_spec ef 0); [|lia]. cbn [cond_Zopp]. f_equal.
  assert (Ht : 0 < 2 ^ (- ef)) by (apply Z.pow_pos_nonneg; lia).
  assert (Hu : 0 < 2 ^ (ef - e')) by (apply Z.pow_pos_nonneg; lia).
  assert (Hsplit : 2 ^ (- e') = 2 ^ (- ef) * 2 ^ (ef - e')).
  { rewrite <- Z.pow_add_r by lia. f_equal. lia. }
  rewrite Hsplit in Hlo, Hhi. subst V.
  assert (H1 : (K - 1) * 2 ^ (- ef) < Z.pos mf) by nia.
  assert (H2 : Z.pos mf <= K * 2 ^ (- ef)) by nia.
  assert (Hq : - K = - Z.pos mf / 2 ^ (- ef)).
  { apply Z.div_unique with (r := K * 2 ^ (- ef) - Z.pos mf); lia. }
  lia.
Qed.

(** Dividing a whole number of nanoseconds by [GST_SECOND] in binary64 and
    taking [ceil] gives the whole seconds, rounded up, for every count up to
    [2^23] seconds. *)
Lemma ceiling_div_second (x : spec_float) (N : Z) :
  holds 53 x N ->
  500000000 <= N <= 8388608000000000 ->
  FP.ceiling (FP.f64_div x (FP.f64_of_Z M3U8.GST_SECOND))
  = Some ((N + 999999999) / 1000000000).
Proof.
  intros Hx [HNlo HNhi].
  change (FP.f64_of_Z M3U8.GST_SECOND)
    with (S754_finite false 8388608000000000 (-23)).
  destruct x as [s|s| |s mx ex]; cbn [holds] in Hx; try tauto; [lia|].
  destruct (holds_bounds 53 ltac:(lia) mx ex N) as (_ & Hex & Hlo & Hhi).
  { destruct Hx as (-> & ?). cbn; auto. }
  destruct Hx as (-> & Hd & Hv).
  assert (Hex0 : ex <= 0).
  { destruct (Z.leb_spec ex 0); [assumption|]. exfalso.
    assert (2 ^ 53 <= 2 ^ (53 - 1 + ex)) by (apply Z.pow_le_mono_r; lia).
    change (2 ^ 53) with 9007199254740992 in *. lia. }
  assert (Hmx : Z.pos mx = N * 2 ^ (- ex)).
  { destruct (Z.ltb_spec ex 0); [exact Hv|].
    assert (ex = 0) by lia. subst ex. cbn in *. lia. }
  set (T := 2 ^ (30 - ex)).
  assert (HT : 2 ^ 30 <= T) by (apply Z.pow_le_mono_r; lia).
  change (2 ^ 30) with 1073741824 in HT.
  assert (HTeven : T = 2 * 2 ^ (29 - ex)).
  { unfold T. rewrite <- Z.pow_succ_r by lia. f_equal. lia. }
  assert (H29 : 0 < 2 ^ (29 - ex)) by (apply Z.pow_pos_nonneg; lia).
  assert (HP : 2 ^ 82 <= N * T < 2 ^ 83).
  { assert (H82 : 2 ^ 82 = 2 ^ (53 - 1 + ex) * T).
    { unfold T. rewrite <- Z.pow_add_r by lia. f_equal. lia. }
    assert (H83 : 2 ^ 83 = 2 ^ (53 + ex) * T).
    { unfold T. rewrite <- Z.pow_add_r by lia. f_equal. lia. }
    rewrite H82, H83. nia. }
  change (2 ^ 82) with 4835703278458516698824704 in HP.
  change (2 ^ 83) with 9671406556917033397649408 in HP.
  (* the quotient and the remainder the division starts from *)
  unfold FP.f64_div, SFdiv, SFdiv_core_binary. cbn [xorb Zdigits2].
  rewrite Hd.
  change (Z.pos (digits2_pos 8388608000000000)) with 53.
  replace (53 + ex - (53 + -23)) with (ex + 23) by lia.
  replace (ex - -23) with (ex + 23) by lia.
  rewrite (fexp_normal 53 1024) by lia.
  rewrite Z.min_l by lia.
  replace (ex + 23 - (ex + 23 - 53)) with 53 by lia.
  rewrite Z.shiftl_mul_pow2 by lia.
  assert (Hm' : Z.pos mx * 2 ^ 53 = N * T * 8388608).
  { rewrite Hmx. unfold T.
    replace (30 - ex) with (- ex + 30) by lia.
    rewrite Z.pow_add_r by lia.
    change (2 ^ 53) with (2 ^ 30 * 8388608). lia. }
  rewrite Hm'.
  change (Z.pos 8388608000000000) with (1000000000 * 8388608).
  pose proof (Z.div_mul_cancel_r (N * T) 1000000000 8388608
                ltac:(lia) ltac:(lia)) as Hq.
  pose proof (Z.mul_mod_distr_r (N * T) 1000000000 8388608
                ltac:(lia) ltac:(lia)) as Hr.
  destruct (Z.div_eucl (N * T * 8388608) (1000000000 * 8388608))
    as [q r] eqn:Hqr.
  assert (Hq' : q = N * T / 1000000000).
  { rewrite <- Hq. unfold Z.div. rewrite Hqr. reflexivity. }
  assert (Hr' : r = (N * T) mod 1000000000 * 8388608).
  { rewrite <- Hr. unfold Z.modulo. rewrite Hqr. reflexivity. }
  clear Hq Hr Hqr.
  assert (Hqrange : 2 ^ (53 - 1) <= q < 2 ^ (53 + 1)).
  { change (2 ^ (53 - 1)) with 4503599627370496.
    change (2 ^ (53 + 1)) with 18014398509481984. subst q. split.
    - apply Z.div_le_lower_bound; lia.
    - apply Z.div_lt_upper_bound; lia. }
  destruct (binary_round_aux_near 53 1024 ltac:(lia) q
              (ex + 23 - 53)
              (new_location (1000000000 * 8388608) r) Hqrange)
    as (mf & ef & V & Hres & Hef & HV & Hexact & Hsmall & Hbig);
    [lia | lia |].
  rewrite Hres.
  apply (ceiling_in_units mf ef (ex + 23 - 53) V); [lia | lia | exact HV |].
  replace (- (ex + 23 - 53)) with (30 - ex) by lia. fold T.
  (* whole seconds and the rest *)
  pose proof (Z.div_mod N 1000000000 ltac:(lia)) as HN.
  pose proof (Z.mod_pos_bound N 1000000000 ltac:(lia)) as Hrho.
  set (k0 := N / 1000000000) in *. set (rho := N mod 1000000000) in *.
  change (2 ^ 53) with 9007199254740992 in *.
  destruct (Z.eq_dec rho 0) as [Hz|Hnz].
  - (* a whole number of seconds: the division is exact *)
    assert (HK : (N + 999999999) / 1000000000 = k0).
    { symmetry. apply Z.div_unique with (r := 999999999); lia. }
    rewrite HK.
    assert (HNT : N * T = k0 * T * 1000000000) by lia.
    assert (Hqv : q = k0 * T).
    { rewrite Hq', HNT. apply Z.div_mul. lia. }
    assert (Hrv : r = 0).
    { rewrite Hr', HNT, Z.mod_mul by lia. reflexivity. }
    assert (HVq : V = q).
    { apply Hexact.
      - rewrite Hrv. reflexivity.
      - right. rewrite Hqv, HTeven.
        replace (k0 * (2 * 2 ^ (29 - ex))) with (2 * (k0 * 2 ^ (29 - ex)))
          by lia.
        rewrite Z.even_mul. reflexivity. }
    rewrite HVq, Hqv. nia.
  - (* a started second counts *)
    assert (HK : (N + 999999999) / 1000000000 = k0 + 1).
    { symmetry. apply Z.div_unique with (r := rho - 1); lia. }
    rewrite HK. replace (k0 + 1 - 1) with k0 by lia.
    assert (Hk0 : 0 <= k0) by (apply Z.div_pos; lia).
    assert (Hqlo : k0 * T + T / 1000000000 <= q).
    { rewrite Hq'. apply Z.div_le_lower_bound; [lia|].
      pose proof (Z.mul_div_le T 1000000000 ltac:(lia)). nia. }
    assert (Hqhi : q < (k0 + 1) * T).
    { rewrite Hq'. apply Z.div_lt_upper_bound; [lia|]. nia. }
    assert (H1 : 1 <= T / 1000000000)
      by (apply Z.div_le_lower_bound; lia).
    destruct (Z.ltb_spec q 9007199254740992) as [Hlt|Hge].
    + destruct (Hsmall Hlt) as [-> | ->]; lia.
    + assert (Hexneg : ex <= -1).
      { destruct (Z.eq_dec ex 0) as [->|]; [|lia]. exfalso.
        unfold T in *. change (2 ^ (30 - 0)) with 1073741824 in *.
        assert (k0 < 8388608) by lia. nia. }
      assert (HT2 : 2 ^ 31 <= T) by (apply Z.pow_le_mono_r; lia).
      change (2 ^ 31) with 2147483648 in HT2.
      assert (H2 : 2 <= T / 1000000000)
        by (apply Z.div_le_lower_bound; lia).
      pose proof (Z.div_mod q 2 ltac:(lia)) as Hq2.
      pose proof (Z.mod_pos_bound q 2 ltac:(lia)) as Hq2b.
      destruct (Hbig Hge) as [-> | ->]; nia.
Qed.


Lemma max_ns_nonneg (ns : list Z) : 0 <= max_ns ns.
Proof. unfold max_ns. induction ns as [|n ns IH]; cbn; lia. Qed.

Lemma max_ns_bound (ns : list Z) (b : Z) :
  0 <= b -> Forall (fun n => n <= b) ns -> max_ns ns <= b.
Proof.
  intros Hb H. unfold max_ns. induction H as [|n ns Hn _ IH]; cbn; lia.
Qed.

Lemma f32_of_Z_holds (n : Z) :
  fits 24 n -> n <= 8388607500000000 -> holds 24 (FP.f32_of_Z n) n.
Proof.
  intros Hfit Hn.
  apply (binary_normalize_fits 24 128); [lia | lia | exact Hfit |].
  destruct Hfit as [H0 _].
  destruct (Z.eq_dec n 0) as [->|]; [cbn; lia|].
  assert (Z.log2 n < 53); [|lia].
  apply Z.log2_lt_pow2; [lia|].
  change (2 ^ 53) with 9007199254740992. lia.
Qed.

Lemma f64_of_Z_holds (n : Z) :
  0 <= n <= 8388608000000000 -> holds 53 (FP.f64_of_Z n) n.
Proof.
  intros Hn.
  assert (Hlt : n < 2 ^ 53) by (change (2 ^ 53) with 9007199254740992; lia).
  apply (binary_normalize_fits 53 1024); [lia | lia | |].
  - apply fits_small; lia.
  - destruct (Z.eq_dec n 0) as [->|]; [cbn; lia|].
    assert (Z.log2 n < 53) by (apply Z.log2_lt_pow2; lia). lia.
Qed.

(** The loop finds the largest duration. *)
Lemma max_duration_fits (q : list GstM3U8Entry) (ns : list Z) :
  Forall2 (fun e n => duration e = FP.f32_of_Z n) q ns ->
  Forall (fun n => fits 24 n /\ n <= 8388607500000000) ns ->
  forall t : Z,
    fits 24 t -> t <= 8388607500000000 ->
    max_duration q t = Some (Z.max t (max_ns ns)).
Proof.
  intros Hq. induction Hq as [|e n q ns He _ IH]; intros Hns t Ht Htb.
  - cbn. f_equal. destruct Ht. lia.
  - inversion Hns as [|? ? [Hfit Hnb] Hns']; subst.
    cbn [max_duration max_ns fold_right]. fold (max_ns ns).
    rewrite He. unfold FP.f32_ltb.
    rewrite (holds_ltb 24 ltac:(lia) _ _ t n)
      by (apply f32_of_Z_holds; assumption).
    destruct (Z.ltb_spec t n) as [Hlt|Hge].
    + rewrite (holds_truncate 24 _ n) by (apply f32_of_Z_holds; assumption).
      assert (Hin : FP.to_guint64 (Some n) = Some n).
      { unfold FP.to_guint64, FP.in_range. destruct Hfit as [H0 _].
        destruct (Z.leb_spec 0 n); [|lia].
        destruct (Z.ltb_spec n (2 ^ 64)); [reflexivity|].
        change (2 ^ 64) with 18446744073709551616 in *. lia. }
      rewrite Hin, IH by assumption. f_equal. lia.
    + rewrite IH by assumption. f_equal. lia.
Qed.

Lemma half_second :
  FP.f64_mul (FP.f64_of_Z 500) (FP.f64_of_Z GST_MSECOND)
  = FP.f64_of_Z 500000000.
Proof. reflexivity. Qed.

(** C6.  When every retained duration is a whole number of nanoseconds that
    the [gfloat] holds exactly, none above 8,388,607.5 s, the target duration
    is the largest of them plus 500 ms, in whole seconds rounded up; with no
    entry it is the 500 ms alone, rounded up to 1. *)
Theorem target_duration_is_ceiling (p : GstM3U8Playlist) (ns : list Z) :
  Forall2 (fun e n => duration e = FP.f32_of_Z n) (entries p) ns ->
  Forall (fun n => fits 24 n /\ n <= 8388607500000000) ns ->
  gst_m3u8_playlist_target_duration p
  = Some (ceil_div (max_ns ns + 500 * GST_MSECOND) GST_SECOND).
Proof.
  intros Hq Hns. unfold gst_m3u8_playlist_target_duration.
  rewrite (max_duration_fits _ ns Hq Hns 0);
    [| split; [lia | reflexivity] | lia].
  pose proof (max_ns_nonneg ns) as H0.
  assert (Hb : max_ns ns <= 8388607500000000).
  { apply max_ns_bound; [lia|].
    eapply Forall_impl; [exact Hns|]. cbn. tauto. }
  rewrite Z.max_r by lia. rewrite half_second.
  assert (Hsum : holds 53
                   (FP.f64_add (FP.f64_of_Z (max_ns ns))
                      (FP.f64_of_Z 500000000))
                   (max_ns ns + 500000000)).
  { apply (holds_add 53 1024); [lia | lia | | |].
    - apply f64_of_Z_holds. lia.
    - apply f64_of_Z_holds. lia.
    - change (2 ^ 53) with 9007199254740992. lia. }
  rewrite (ceiling_div_second _ _ Hsum) by lia.
  unfold ceil_div. change (500 * GST_MSECOND) with 500000000.
  change GST_SECOND with 1000000000.
  replace (max_ns ns + 500000000 + 1000000000 - 1)
    with (max_ns ns + 500000000 + 999999999) by lia.
  unfold FP.to_guint, FP.in_range.
  assert (0 <= (max_ns ns + 500000000 + 999999999) / 1000000000 < 8388609).
  { split.
    - apply Z.div_pos; lia.
    - apply Z.div_lt_upper_bound; lia. }
  destruct (Z.leb_spec 0 ((max_ns ns + 500000000 + 999999999) / 1000000000));
    [|lia].
  destruct (Z.ltb_spec ((max_ns ns + 500000000 + 999999999) / 1000000000)
              (2 ^ 32)); [reflexivity|].
  change (2 ^ 32) with 4294967296 in *. lia.
Qed.

End TargetDuration.

Section RenderProperties.

Import M3U8 Runs.

(** C3, as the code has it.  A freshly constructed playlist of version 3,
    whatever its window size, renders to the header alone, without end
    marker, and its target duration is 1: the 500 ms that
    [gst_m3u8_playlist_target_duration] adds, rounded up. *)
Theorem render_fresh_playlist (window_size : Z) :
  gst_m3u8_playlist_render (gst_m3u8_playlist_new 3 window_size)
  = Some (empty_playlist_text 1).
Proof. reflexivity. Qed.

End RenderProperties.

Section PlaylistRuns.

Import M3U8 Runs Pipeline.

Lemma add_entries_unbounded (calls : list AddCall) :
  forall p : GstM3U8Playlist,
    type p = GST_M3U8_PLAYLIST_TYPE_EVENT ->
    window_size p = 0 ->
    exists p',
      add_entries p calls = Some p'
      /\ entries p' = entries p ++ map entry_of_call calls.
Proof.
  induction calls as [|c rest IH]; intros p Ht Hw.
  - exists p. cbn. rewrite app_nil_r. auto.
  - pose proof (add_entry_call_event p c Ht) as Hcall.
    rewrite Hw in Hcall. cbn [Z.ltb Z.compare] in Hcall.
    set (p1 := set_entries _ _) in Hcall.
    destruct (IH p1) as (p' & Hrun & Hent); [exact Ht | exact Hw |].
    exists p'. cbn [add_entries]. rewrite Hcall. split; [exact Hrun|].
    rewrite Hent. subst p1. cbn. rewrite <- app_assoc. reflexivity.
Qed.

(** X3.  On a playlist whose window size is 0 nothing is evicted: a run of
    [add_entry] calls on an EVENT playlist succeeds and leaves the entries
    there were, followed by one entry per call, in call order. *)
Theorem unbounded_window_keeps_every_entry
    (p : GstM3U8Playlist) (calls : list AddCall) :
  type p = GST_M3U8_PLAYLIST_TYPE_EVENT ->
  window_size p = 0 ->
  exists p',
    add_entries p calls = Some p'
    /\ entries p' = entries p ++ map entry_of_call calls.
Proof. intros Ht Hw. apply add_entries_unbounded; assumption. Qed.

Lemma delete_old_entries_length (w : Z) (q : list GstM3U8Entry) :
  (length (delete_old_entries w q) <= length q)%nat.
Proof.
  induction q as [|e q IH]; [reflexivity|].
  cbn [delete_old_entries].
  destruct (w <=? Z.of_nat (length (e :: q))); cbn [length] in *; lia.
Qed.

Lemma add_entries_length (calls : list AddCall) :
  forall p p' : GstM3U8Playlist,
    add_entries p calls = Some p' ->
    (length (entries p') <= length (entries p) + length calls)%nat.
Proof.
  induction calls as [|c rest IH]; intros p p' Hrun.
  - cbn in Hrun. injection Hrun as <-. lia.
  - cbn [add_entries] in Hrun.
    destruct (add_entry_call p c) as [[|] [p1|]] eqn:Hcall; try discriminate.
    apply IH in Hrun. cbn [length].
    assert (length (entries p1) <= S (length (entries p)))%nat; [|lia].
    unfold add_entry_call, gst_m3u8_playlist_add_entry in Hcall.
    destruct (type p); [|discriminate]. cbn in Hcall.
    injection Hcall as <-. cbn. rewrite length_app. cbn.
    destruct (0 <? window_size p);
      [pose proof (delete_old_entries_length (window_size p) (entries p))|];
      lia.
Qed.

(** X4.  The number printed after [#EXT-X-MEDIA-SEQUENCE:]
    ([render_prints_media_sequence]) goes up by one for each entry that
    leaves the window: after a run of calls with consecutive indices that
    start at the sequence number, it has grown by the number of entries
    the run evicted. *)
Theorem media_sequence_advances_by_evictions
    (p : GstM3U8Playlist) (calls : list AddCall) :
  type p = GST_M3U8_PLAYLIST_TYPE_EVENT ->
  consecutive_from (sequence_number p) calls ->
  Z.of_nat (length (entries p)) <= sequence_number p ->
  sequence_number p + Z.of_nat (length calls) < 2 ^ 31 ->
  exists p',
    add_entries p calls = Some p'
    /\ (length (entries p') <= length (entries p) + length calls)%nat
    /\ media_sequence p'
       = media_sequence p
         + (Z.of_nat (length (entries p)) + Z.of_nat (length calls)
            - Z.of_nat (length (entries p'))).
Proof.
  intros Ht Hcons Hlen Hhi.
  destruct (add_entries_sequence_aux calls p Ht Hcons)
    as (p' & Hrun & Hseq); [lia | lia |].
  pose proof (add_entries_length calls p p' Hrun) as Hle.
  exists p'. split; [exact Hrun|]. split; [exact Hle|].
  unfold media_sequence, C.to_gint. rewrite Hseq.
  change (2 ^ 32) with 4294967296 in *.
  change (2 ^ 31) with 2147483648 in *.
  rewrite !Z.mod_small by lia.
  destruct (Z.ltb_spec
              (sequence_number p + Z.of_nat (length calls)
               - Z.of_nat (length (entries p'))) 2147483648); [|lia].
  destruct (Z.ltb_spec
              (sequence_number p - Z.of_nat (length (entries p)))
              2147483648); lia.
Qed.

Lemma render_prints_media_sequence (p : GstM3U8Playlist) (text : string) :
  gst_m3u8_playlist_render p = Some text ->
  exists rest : string,
    text = "#EXTM3U" +:+ Text.nl
             +:+ "#EXT-X-VERSION:" +:+ Text.decimal (C.to_gint (version p))
             +:+ Text.nl
             +:+ "#EXT-X-MEDIA-SEQUENCE:" +:+ Text.decimal (media_sequence p)
             +:+ Text.nl +:+ rest.
Proof.
  unfold gst_m3u8_playlist_render.
  destruct (gst_m3u8_playlist_target_duration p) as [target|];
    [|discriminate].
  destruct (render_entries p true (entries p)) as [body|]; [|discriminate].
  intros [= <-]. eexists. reflexivity.
Qed.

Lemma list_ascii_of_string_app (a b : string) :
  list_ascii_of_string (a +:+ b)
  = list_ascii_of_string a ++ list_ascii_of_string b.
Proof.
  induction a as [|c a IH]; simpl; [reflexivity|].
  rewrite IH. reflexivity.
Qed.

(** The text of the entries is empty or ends in a line feed. *)
Lemma render_entries_last (p : GstM3U8Playlist) (q : list GstM3U8Entry) :
  forall (is_head : bool) (body : string),
    render_entries p is_head q = Some body ->
    last (list_ascii_of_string body) = None
    \/ last (list_ascii_of_string body) = Some "010"%char.
Proof.
  induction q as [|e q IH]; intros is_head body Hb.
  - injection Hb as <-. left. reflexivity.
  - cbn [render_entries] in Hb.
    destruct (render_extinf p e) as [extinf|]; [|discriminate].
    destruct (render_entries p false q) as [tail|] eqn:Htail; [|discriminate].
    injection Hb as <-. right.
    rewrite !list_ascii_of_string_app.
    rewrite !app_assoc. rewrite last_app.
    destruct (IH false tail Htail) as [-> | ->]; [|reflexivity].
    rewrite last_app. reflexivity.
Qed.

Lemma render_last (p : GstM3U8Playlist) (text : string) :
  gst_m3u8_playlist_render p = Some text ->
  end_list p = false ->
  last (list_ascii_of_string text) = Some "010"%char.
Proof.
  unfold gst_m3u8_playlist_render.
  destruct (gst_m3u8_playlist_target_duration p) as [target|];
    [|discriminate].
  destruct (render_entries p true (entries p)) as [body|] eqn:Hbody;
    [|discriminate].
  intros [= <-] ->.
  rewrite !list_ascii_of_string_app.
  rewrite !app_assoc. rewrite last_app. cbn [list_ascii_of_string last].
  rewrite last_app.
  destruct (render_entries_last p _ _ _ Hbody) as [-> | ->]; [|reflexivity].
  rewrite last_app. reflexivity.
Qed.

Lemma render_with_end_list (p : GstM3U8Playlist) (text : string) :
  gst_m3u8_playlist_render p = Some text ->
  end_list p = true ->
  ends_with "#EXT-X-ENDLIST" text = true.
Proof.
  intros Hr He. apply bool_decide_eq_true_2.
  unfold gst_m3u8_playlist_render in Hr.
  destruct (gst_m3u8_playlist_target_duration p); [|discriminate].
  destruct (render_entries p true (entries p)); [|discriminate].
  injection Hr as <-. rewrite He.
  rewrite !list_ascii_of_string_app, !app_assoc.
  eexists. reflexivity.
Qed.

(** X5.  A rendered document ends with [#EXT-X-ENDLIST] exactly when
    [end_list] is set; without the flag its last character is a line
    feed. *)
Theorem end_marker_iff_end_list (p : GstM3U8Playlist) (text : string) :
  gst_m3u8_playlist_render p = Some text ->
  ends_with "#EXT-X-ENDLIST" text = end_list p.
Proof.
  intros Hr. destruct (end_list p) eqn:He.
  - apply (render_with_end_list p text Hr He).
  - apply bool_decide_eq_false_2. intros [k Hk].
    pose proof (render_last p text Hr He) as Hl.
    rewrite Hk in Hl. rewrite last_app in Hl. cbn in Hl. discriminate.
Qed.

End PlaylistRuns.

Section TargetDurationBound.

Import FP M3U8 Runs.

(** The target duration in whole seconds, for durations a [gfloat] holds
    exactly. *)
Lemma target_duration_in_seconds (p : GstM3U8Playlist) (ns : list Z) :
  Forall2 (fun e n => duration e = FP.f32_of_Z n) (entries p) ns ->
  Forall (fun n => fits 24 n /\ n <= 8388607500000000) ns ->
  gst_m3u8_playlist_target_duration p
  = Some ((max_ns ns + 500000000 + 999999999) / 1000000000).
Proof.
  intros Hq Hns. unfold gst_m3u8_playlist_target_duration.
  rewrite (max_duration_fits _ ns Hq Hns 0);
    [| split; [lia | reflexivity] | lia].
  pose proof (max_ns_nonneg ns) as H0.
  assert (Hb : max_ns ns <= 8388607500000000).
  { apply max_ns_bound; [lia|].
    eapply Forall_impl; [exact Hns|]. cbn. tauto. }
  rewrite Z.max_r by lia. rewrite half_second.
  assert (Hsum : holds 53
                   (FP.f64_add (FP.f64_of_Z (max_ns ns))
                      (FP.f64_of_Z 500000000))
                   (max_ns ns + 500000000)).
  { apply (holds_add 53 1024); [lia | lia | | |].
    - apply f64_of_Z_holds. lia.
    - apply f64_of_Z_holds. lia.
    - change (2 ^ 53) with 9007199254740992. lia. }
  rewrite (ceiling_div_second _ _ Hsum) by lia.
  unfold FP.to_guint, FP.in_range.
  assert (0 <= (max_ns ns + 500000000 + 999999999) / 1000000000 < 8388609).
  { split.
    - apply Z.div_pos; lia.
    - apply Z.div_lt_upper_bound; lia. }
  destruct (Z.leb_spec 0 ((max_ns ns + 500000000 + 999999999) / 1000000000));
    [|lia].
  destruct (Z.ltb_spec ((max_ns ns + 500000000 + 999999999) / 1000000000)
              (2 ^ 32)); [reflexivity|].
  change (2 ^ 32) with 4294967296 in *. lia.
Qed.

Lemma max_ns_upper (ns : list Z) :
  Forall (fun n => n <= max_ns ns) ns.
Proof.
  unfold max_ns. induction ns as [|n ns IH]; constructor; cbn.
  - lia.
  - eapply Forall_impl; [exact IH|]. cbn. intros. lia.
Qed.

(** X6.  When every retained duration is a whole number of nanoseconds
    that the [gfloat] holds exactly, none above 8,388,607.5 s, no retained
    entry is longer than the target duration the document announces: each
    duration plus half a second is at most the target duration, so the
    duration rounded to whole seconds is too. *)
Theorem no_entry_exceeds_target_duration
    (p : GstM3U8Playlist) (ns : list Z) :
  Forall2 (fun e n => duration e = FP.f32_of_Z n) (entries p) ns ->
  Forall (fun n => fits 24 n /\ n <= 8388607500000000) ns ->
  exists t : Z,
    gst_m3u8_playlist_target_duration p = Some t
    /\ Forall (fun n => (n + 500 * GST_MSECOND) / GST_SECOND <= t) ns
    /\ Forall (fun n => n + 500 * GST_MSECOND <= t * GST_SECOND) ns.
Proof.
  intros Hq Hns. eexists.
  split; [apply (target_duration_in_seconds p ns Hq Hns)|].
  change (500 * GST_MSECOND) with 500000000.
  change GST_SECOND with 1000000000.
  pose proof (max_ns_upper ns) as Hmax.
  split; (eapply Forall_impl; [exact Hmax|]); cbn; intros n Hn.
  - apply Z.div_le_mono; lia.
  - pose proof (Z.div_mod (max_ns ns + 500000000 + 999999999) 1000000000
                  ltac:(lia)).
    pose proof (Z.mod_pos_bound (max_ns ns + 500000000 + 999999999)
                  1000000000 ltac:(lia)).
    lia.
Qed.

End TargetDurationBound.


Section IntegerRounding.

Import Runs.

Variables prec emax : Z.
Hypothesis Hprec : 0 < prec.
Hypothesis Hemax : prec < emax.

Lemma shr_1_m (r : shr_record) :
  0 <= shr_m r -> shr_m (shr_1 r) = shr_m r / 2.
Proof.
  destruct r as [m r s]. cbn [shr_m]. intros Hm.
  destruct m as [|[p|p|]|p]; cbn [shr_1 shr_m]; [reflexivity| | | |lia].
  - rewrite Pos2Z.inj_xI. apply Z.div_unique with (r := 1); lia.
  - rewrite Pos2Z.inj_xO. apply Z.div_unique with (r := 0); lia.
  - reflexivity.
Qed.

Lemma iter_shr_1_m (k : positive) :
  forall r : shr_record,
    0 <= shr_m r ->
    shr_m (SpecFloat.iter_pos shr_1 k r) = shr_m r / 2 ^ Z.pos k.
Proof.
  induction k as [|k IH] using Pos.peano_ind; intros r Hr;
    rewrite iter_pos_Pos_iter in *.
  - cbn [Pos.iter]. change (2 ^ 1) with 2. apply shr_1_m, Hr.
  - rewrite Pos.iter_succ_r, Pos2Z.inj_succ, Z.pow_succ_r by lia.
    specialize (IH (shr_1 r)). rewrite iter_pos_Pos_iter in IH.
    rewrite IH by (rewrite shr_1_m by exact Hr; apply Z.div_pos; lia).
    rewrite shr_1_m by exact Hr.
    rewrite Z.div_div by lia. reflexivity.
Qed.

Lemma round_nearest_even_cases (m : Z) (l : location) :
  round_nearest_even m l = m \/ round_nearest_even m l = m + 1.
Proof. destruct l as [|[ | | ]]; cbn; auto. destruct (Z.even m); auto. Qed.

(** An integer with more than [prec] digits is rounded to one of the two
    neighbours that have [prec] digits. *)
Lemma binary_round_integer (M : positive) :
  prec < Z.pos (digits2_pos M) ->
  Z.pos (digits2_pos M) + 1 <= emax ->
  exists n : Z,
    holds prec (binary_round prec emax false M 0) n
    /\ (n = Z.pos M / 2 ^ (Z.pos (digits2_pos M) - prec)
            * 2 ^ (Z.pos (digits2_pos M) - prec)
        \/ n = (Z.pos M / 2 ^ (Z.pos (digits2_pos M) - prec) + 1)
               * 2 ^ (Z.pos (digits2_pos M) - prec)).
Proof.
  intros Hd Hmax. set (d := Z.pos (digits2_pos M)) in *.
  set (k := d - prec).
  assert (Hk : 0 < k) by (unfold k; lia).
  pose proof (digits2_pos_bounds M) as [HMlo HMhi]. fold d in HMlo, HMhi.
  assert (H2k : 0 < 2 ^ k) by (apply Z.pow_pos_nonneg; lia).
  assert (Hpp : 0 < 2 ^ (prec - 1)) by (apply Z.pow_pos_nonneg; lia).
  assert (Hp2 : 2 ^ prec = 2 * 2 ^ (prec - 1)).
  { rewrite <- Z.pow_succ_r by lia. f_equal. lia. }
  assert (Hq : 2 ^ (prec - 1) <= Z.pos M / 2 ^ k < 2 ^ prec).
  { split.
    - apply Z.div_le_lower_bound; [lia|].
      rewrite Z.mul_comm, <- Z.pow_add_r by lia.
      replace (prec - 1 + k) with (d - 1) by (unfold k; lia). exact HMlo.
    - apply Z.div_lt_upper_bound; [lia|].
      rewrite <- Z.pow_add_r by lia.
      replace (k + prec) with d by (unfold k; lia). exact HMhi. }
  unfold binary_round.
  fold d. rewrite Z.add_0_r, fexp_normal by lia. fold k.
  unfold shl_align. replace (k - 0) with k by lia.
  destruct k as [|kp|kp] eqn:Hkp; try lia.
  (* the digits below the leading [prec] are shifted out *)
  unfold binary_round_aux, shr_fexp at 1. cbn [Zdigits2]. fold d.
  rewrite Z.add_0_r, fexp_normal by lia.
  replace (d - prec - 0) with (Z.pos kp) by lia.
  cbn [shr shr_record_of_loc].
  set (mrs := SpecFloat.iter_pos shr_1 kp _).
  assert (Hm : shr_m mrs = Z.pos M / 2 ^ Z.pos kp).
  { subst mrs. rewrite iter_shr_1_m by (cbn; lia). reflexivity. }
  set (r := round_nearest_even (shr_m mrs) (loc_of_shr_record mrs)).
  assert (Hr : r = Z.pos M / 2 ^ Z.pos kp
               \/ r = Z.pos M / 2 ^ Z.pos kp + 1).
  { subst r. rewrite <- Hm. apply round_nearest_even_cases. }
  assert (Hrr : 2 ^ (prec - 1) <= r <= 2 ^ prec) by (destruct Hr; lia).
  exists (r * 2 ^ Z.pos kp). split; [|destruct Hr as [-> | ->]; auto].
  replace (0 + Z.pos kp) with (Z.pos kp) by lia.
  (* the second normalization step *)
  unfold shr_fexp. destruct r as [|rp|rp] eqn:Hrp; try lia.
  cbn [Zdigits2].
  destruct (Z.eq_dec (Z.pos rp) (2 ^ prec)) as [Heq|Hne].
  - assert (Hdig : Z.pos (digits2_pos rp) = prec + 1).
    { apply digits2_pos_unique.
      replace (prec + 1 - 1) with prec by lia.
      rewrite Heq. split; [lia|]. apply Z.pow_lt_mono_r; lia. }
    rewrite Hdig, fexp_normal by lia.
    replace (prec + 1 + Z.pos kp - prec - Z.pos kp) with 1 by lia.
    cbn [shr shr_record_of_loc SpecFloat.iter_pos].
    rewrite Heq, Hp2.
    rewrite (Z.mul_comm 2), shr_1_even by lia.
    cbn [shr_m].
    destruct (2 ^ (prec - 1)) as [|h|h] eqn:Hh; try lia.
    destruct (Z.leb_spec (Z.pos kp + 1) (emax - prec)); [|lia].
    cbn [holds]. split; [reflexivity|]. split.
    + apply digits2_pos_unique. rewrite <- Hh.
      split; [lia|]. apply Z.pow_lt_mono_r; lia.
    + destruct (Z.ltb_spec (Z.pos kp + 1) 0); [lia|].
      rewrite Z.pow_add_r by lia. change (2 ^ 1) with 2. lia.
  - assert (Hdig : Z.pos (digits2_pos rp) = prec).
    { apply digits2_pos_unique. lia. }
    rewrite Hdig, fexp_normal by lia.
    replace (prec + Z.pos kp - prec - Z.pos kp) with 0 by lia.
    cbn [shr shr_record_of_loc shr_m].
    destruct (Z.leb_spec (Z.pos kp) (emax - prec)); [|lia].
    cbn [holds]. split; [reflexivity|]. split; [exact Hdig|].
    destruct (Z.ltb_spec (Z.pos kp) 0); [lia|]. reflexivity.
Qed.

End IntegerRounding.

Section RoundedDurations.

Import FP M3U8 Runs Pipeline.

Lemma holds_fits (prec : Z) (x : spec_float) (n : Z) :
  0 < prec -> holds prec x n -> fits prec n.
Proof.
  intros Hprec Hx. destruct x as [s|s| |s a e]; cbn [holds] in Hx;
    try tauto.
  - destruct Hx as [_ ->]. apply fits_small; [exact Hprec|].
    split; [lia|]. apply Z.pow_pos_nonneg; lia.
  - assert (Hx' : holds prec (S754_finite false a e) n).
    { destruct Hx as (-> & ?). cbn; auto. }
    destruct (holds_bounds prec Hprec a e n Hx') as (Hpos & He & Hlo & Hhi).
    destruct Hx as (_ & Hd & Hv).
    split; [lia|].
    assert (Hlog : Z.log2 n = prec - 1 + e).
    { apply Z.log2_unique; [lia|].
      replace (Z.succ (prec - 1 + e)) with (prec + e) by lia. lia. }
    rewrite Hlog. replace (prec - 1 + e + 1 - prec) with e by lia.
    destruct (Z.ltb_spec e 0).
    + rewrite Z.max_l by lia. apply Z.mod_1_r.
    + rewrite Z.max_r by lia. rewrite Hv. apply Z.mod_mul.
      apply Z.pow_nonzero; lia.
Qed.

(** A whole number of nanoseconds below [2^52] is converted to a [gfloat]
    that is off by at most [2^28]. *)
Lemma f32_of_Z_near (d : Z) :
  0 <= d < 2 ^ 52 ->
  exists n : Z,
    holds 24 (FP.f32_of_Z d) n /\ d - 2 ^ 28 <= n <= d + 2 ^ 28.
Proof.
  intros [Hlo Hhi].
  destruct (Z.ltb_spec d (2 ^ 24)) as [Hsmall|Hbig].
  - exists d. split; [|lia].
    apply f32_of_Z_holds; [apply fits_small; lia|].
    change (2 ^ 24) with 16777216 in Hsmall. lia.
  - destruct d as [|M|M]; [cbn in Hbig; lia | | lia].
    unfold FP.f32_of_Z. cbn [binary_normalize].
    pose proof (digits2_pos_bounds M) as [HMlo HMhi].
    set (dg := Z.pos (digits2_pos M)) in *.
    assert (Hdg : 24 < dg <= 52).
    { split.
      - destruct (Z.ltb_spec 24 dg) as [|Hle]; [assumption|]. exfalso.
        assert (2 ^ dg <= 2 ^ 24) by (apply Z.pow_le_mono_r; lia). lia.
      - destruct (Z.leb_spec dg 52) as [|Hgt]; [assumption|]. exfalso.
        assert (2 ^ 52 <= 2 ^ (dg - 1)) by (apply Z.pow_le_mono_r; lia).
        lia. }
    destruct (binary_round_integer 24 128 ltac:(lia) ltac:(lia) M)
      as (n & Hn & Hval); [fold dg; lia | fold dg; lia |].
    fold dg in Hval. exists n. split; [exact Hn|].
    assert (Hk : 0 < 2 ^ (dg - 24) <= 2 ^ 28).
    { split; [apply Z.pow_pos_nonneg; lia|].
      apply Z.pow_le_mono_r; lia. }
    pose proof (Z.div_mod (Z.pos M) (2 ^ (dg - 24)) ltac:(lia)) as Hdm.
    pose proof (Z.mod_pos_bound (Z.pos M) (2 ^ (dg - 24)) ltac:(lia))
      as Hmod.
    destruct Hval as [-> | ->]; lia.
Qed.

(** The loop finds the largest of the durations the entries hold. *)
Lemma max_duration_holds (q : list GstM3U8Entry) (ns : list Z) :
  Forall2 (fun e n => holds 24 (duration e) n) q ns ->
  Forall (fun n => n <= 8388607500000000) ns ->
  forall t : Z,
    fits 24 t -> t <= 8388607500000000 ->
    max_duration q t = Some (Z.max t (max_ns ns)).
Proof.
  intros Hq. induction Hq as [|e n q ns He _ IH]; intros Hns t Ht Htb.
  - cbn. f_equal. destruct Ht. lia.
  - inversion Hns as [|? ? Hnb Hns']; subst.
    assert (Hfit : fits 24 n)
      by (apply (holds_fits 24 (duration e) n); [lia | exact He]).
    cbn [max_duration max_ns fold_right]. fold (max_ns ns).
    unfold FP.f32_ltb.
    rewrite (holds_ltb 24 ltac:(lia) _ _ t n);
      [| apply f32_of_Z_holds; assumption | exact He].
    destruct (Z.ltb_spec t n) as [Hlt|Hge].
    + rewrite (holds_truncate 24 _ n) by exact He.
      assert (Hin : FP.to_guint64 (Some n) = Some n).
      { unfold FP.to_guint64, FP.in_range. destruct Hfit as [H0 _].
        destruct (Z.leb_spec 0 n); [|lia].
        destruct (Z.ltb_spec n (2 ^ 64)); [reflexivity|].
        change (2 ^ 64) with 18446744073709551616 in *. lia. }
      rewrite Hin, IH by assumption. f_equal. lia.
    + rewrite IH by assumption. f_equal. lia.
Qed.

(** The target duration in whole seconds, from the durations the entries
    hold. *)
Lemma target_duration_of_held (p : GstM3U8Playlist) (ns : list Z) :
  Forall2 (fun e n => holds 24 (duration e) n) (entries p) ns ->
  Forall (fun n => n <= 8388607500000000) ns ->
  gst_m3u8_playlist_target_duration p
  = Some ((max_ns ns + 500000000 + 999999999) / 1000000000).
Proof.
  intros Hq Hns. unfold gst_m3u8_playlist_target_duration.
  rewrite (max_duration_holds _ ns Hq Hns 0);
    [| split; [lia | reflexivity] | lia].
  pose proof (max_ns_nonneg ns) as H0.
  assert (Hb : max_ns ns <= 8388607500000000).
  { apply max_ns_bound; [lia | exact Hns]. }
  rewrite Z.max_r by lia. rewrite half_second.
  assert (Hsum : holds 53
                   (FP.f64_add (FP.f64_of_Z (max_ns ns))
                      (FP.f64_of_Z 500000000))
                   (max_ns ns + 500000000)).
  { apply (holds_add 53 1024); [lia | lia | | |].
    - apply f64_of_Z_holds. lia.
    - apply f64_of_Z_holds. lia.
    - change (2 ^ 53) with 9007199254740992. lia. }
  rewrite (ceiling_div_second _ _ Hsum) by lia.
  unfold FP.to_guint, FP.in_range.
  assert (0 <= (max_ns ns + 500000000 + 999999999) / 1000000000 < 8388609).
  { split.
    - apply Z.div_pos; lia.
    - apply Z.div_lt_upper_bound; lia. }
  destruct (Z.leb_spec 0 ((max_ns ns + 500000000 + 999999999) / 1000000000));
    [|lia].
  destruct (Z.ltb_spec ((max_ns ns + 500000000 + 999999999) / 1000000000)
              (2 ^ 32)); [reflexivity|].
  change (2 ^ 32) with 4294967296 in *. lia.
Qed.

(** The values the entries hold, each near the nanoseconds measured. *)
Lemma measured_held (q : list GstM3U8Entry) (ds : list Z) :
  Forall2 (fun e d => duration e = FP.f32_of_Z d) q ds ->
  Forall (fun d => 0 <= d < 2 ^ 52) ds ->
  exists ns : list Z,
    Forall2 (fun e n => holds 24 (duration e) n) q ns
    /\ Forall2 (fun d n => d - 2 ^ 28 <= n <= d + 2 ^ 28) ds ns.
Proof.
  intros Hq. induction Hq as [|e d q ds He _ IH]; intros Hds.
  - exists []. split; constructor.
  - inversion Hds as [|? ? Hd Hds']; subst.
    destruct (IH Hds') as (ns & Hns & Hnear).
    destruct (f32_of_Z_near d Hd) as (n & Hn & Hdn).
    exists (n :: ns). split; constructor; try assumption.
    rewrite He. exact Hn.
Qed.

Lemma max_ns_near (ds ns : list Z) (c : Z) :
  0 <= c ->
  Forall2 (fun d n => d - c <= n <= d + c) ds ns ->
  max_ns ds - c <= max_ns ns <= max_ns ds + c
  /\ Forall (fun d => d <= max_ns ns + c) ds.
Proof.
  intros Hc H. unfold max_ns.
  induction H as [|d n ds ns Hdn _ [IH1 IH2]]; cbn [fold_right].
  - split; [lia | constructor].
  - split; [lia|]. constructor; [lia|].
    eapply Forall_impl; [exact IH2|]. cbn. intros. lia.
Qed.

(** The target duration of a playlist of measured durations: that of
    values within [2^28] ns of them. *)
Lemma measured_target_duration (p : GstM3U8Playlist) (ds : list Z) :
  measured p ds ->
  exists ns : list Z,
    Forall2 (fun d n => d - 2 ^ 28 <= n <= d + 2 ^ 28) ds ns
    /\ max_ns ds <= 2 ^ 52
    /\ gst_m3u8_playlist_target_duration p
       = Some ((max_ns ns + 500000000 + 999999999) / 1000000000).
Proof.
  intros [Hq Hds].
  destruct (measured_held _ _ Hq Hds) as (ns & Hns & Hnear).
  destruct (max_ns_near ds ns (2 ^ 28) ltac:(lia) Hnear) as [Hmax _].
  assert (Hdmax : max_ns ds <= 2 ^ 52).
  { apply max_ns_bound; [lia|]. eapply Forall_impl; [exact Hds|].
    cbn. intros. lia. }
  exists ns. split; [exact Hnear|]. split; [exact Hdmax|].
  apply target_duration_of_held; [exact Hns|].
  change (2 ^ 28) with 268435456 in *.
  change (2 ^ 52) with 4503599627370496 in *.
  pose proof (max_ns_upper ns) as Hup.
  eapply Forall_impl; [exact Hup|]. cbn. intros. lia.
Qed.

Lemma render_entries_defined (p : GstM3U8Playlist) :
  3 <= version p ->
  forall (q : list GstM3U8Entry) (is_head : bool),
    is_Some (render_entries p is_head q).
Proof.
  intros Hv q. induction q as [|e q IH]; intros is_head; cbn.
  - eauto.
  - unfold render_extinf. destruct (Z.ltb_spec (version p) 3); [lia|].
    destruct (IH false) as [tail ->]. eauto.
Qed.

(** From version 3 on, a playlist of measured durations has a
    document. *)
Lemma measured_renders (p : GstM3U8Playlist) (ds : list Z) :
  measured p ds -> 3 <= version p ->
  is_Some (gst_m3u8_playlist_render p).
Proof.
  intros Hm Hv.
  destruct (measured_target_duration p ds Hm) as (ns & _ & _ & Ht).
  unfold gst_m3u8_playlist_render. rewrite Ht.
  destruct (render_entries_defined p Hv (entries p) true) as [body ->].
  eauto.
Qed.

(** X29.  Whatever whole numbers of nanoseconds below [2^52] (about 52
    days) the durations of the retained entries were converted from, the
    target duration is defined and no segment lasted longer than it, although
    the [gfloat] rounds the durations; and it is less than two seconds above
    the longest of them. *)
Theorem target_duration_covers_measured_durations
    (p : GstM3U8Playlist) (ds : list Z) :
  measured p ds ->
  exists t : Z,
    gst_m3u8_playlist_target_duration p = Some t
    /\ Forall (fun d => d <= t * GST_SECOND) ds
    /\ t * GST_SECOND < max_ns ds + 2 * GST_SECOND.
Proof.
  intros Hm.
  destruct (measured_target_duration p ds Hm) as (ns & Hnear & Hdmax & Ht).
  destruct (max_ns_near ds ns (2 ^ 28) ltac:(lia) Hnear) as [Hmax Hall].
  change (2 ^ 28) with 268435456 in *.
  eexists. split; [exact Ht|].
  change GST_SECOND with 1000000000.
  pose proof (Z.div_mod (max_ns ns + 500000000 + 999999999) 1000000000
                ltac:(lia)) as Hdm.
  pose proof (Z.mod_pos_bound (max_ns ns + 500000000 + 999999999)
                1000000000 ltac:(lia)) as Hmod.
  split.
  - eapply Forall_impl; [exact Hall|]. cbn. intros. lia.
  - lia.
Qed.

End RoundedDurations.

Section SegmentFiles.

Import M3U8 HlsSink Runs Phases Pipeline.





(** X10.  No exit of [gst_hls_sink_encrypt_chunk] removes the temporary
    file: once it has been opened, every run that does not end with the
    rename leaves a file [encrypted] in the segment's directory. *)
Theorem failed_encryption_leaves_temporary_file
    (env : EncryptEnv) (sink : GstHlsSink) (filename : string)
    (fs : gmap string (list Z)) :
  open_encrypted_ok env = true ->
  fst (gst_hls_sink_encrypt_chunk env sink filename fs) <> EncryptDone ->
  fst (gst_hls_sink_encrypt_chunk env sink filename fs) <> InitFailed ->
  is_Some (snd (gst_hls_sink_encrypt_chunk env sink filename fs)
             !! encrypted_chunk_path filename).
Proof.
  intros Hopen. unfold gst_hls_sink_encrypt_chunk.
  destruct (gst_hls_sink_init_encrypting env sink) as [ctx|];
    [|cbn; congruence].
  cbv zeta. rewrite Hopen.
  repeat match goal with
         | |- context [if ?b then _ else _] =>
             destruct b; cbn [fst snd negb andb orb]
         end;
    intros Hdone _; try congruence;
    rewrite ?lookup_insert_eq; eauto.
Qed.

Lemma init_encrypting_iv (env : EncryptEnv) (sink : GstHlsSink)
    (ctx : crypto_ctx_t) :
  gst_hls_sink_init_encrypting env sink = Some ctx ->
  ctx_iv ctx = replicate 12 0 ++ big_endian_32 (index sink).
Proof.
  unfold gst_hls_sink_init_encrypting. rewrite create_iv_zero_buffer.
  destruct (backend env), (init_ok env); intros [= <-]; reflexivity.
Qed.

Lemma big_endian_32_inj (x y : Z) :
  0 <= x < 2 ^ 32 -> 0 <= y < 2 ^ 32 ->
  big_endian_32 x = big_endian_32 y -> x = y.
Proof.
  intros Hx Hy Heq.
  pose proof (big_endian_32_decodes x Hx) as Dx.
  pose proof (big_endian_32_decodes y Hy) as Dy.
  rewrite Heq in Dx. cbn [big_endian_32] in Dx, Dy. lia.
Qed.

(** X11.  Two sinks whose indices differ (both in the range of [guint])
    encrypt with different IVs. *)
Theorem distinct_indices_give_distinct_ivs
    (env : EncryptEnv) (s1 s2 : GstHlsSink) (c1 c2 : crypto_ctx_t) :
  gst_hls_sink_init_encrypting env s1 = Some c1 ->
  gst_hls_sink_init_encrypting env s2 = Some c2 ->
  0 <= index s1 < 2 ^ 32 ->
  0 <= index s2 < 2 ^ 32 ->
  index s1 <> index s2 ->
  ctx_iv c1 <> ctx_iv c2.
Proof.
  intros H1 H2 Hr1 Hr2 Hne Heq.
  rewrite (init_encrypting_iv _ _ _ H1), (init_encrypting_iv _ _ _ H2) in Heq.
  apply app_inv_head in Heq.
  apply Hne, big_endian_32_inj; assumption.
Qed.

(** X12.  The IV a closed segment is encrypted with is the big-endian
    media sequence number of its playlist entry.  The handler appends the
    entry under the sink's index and encrypts on the sink the append
    leaves ([handle_segment_closed_exec]); the entry is the last of the
    queue, and its media sequence number is the index. *)
Theorem segment_iv_is_its_media_sequence_number
    (env : MessageEnv) (filename : string) (running_time : Z)
    (s : GstHlsSink) (w : World) (p : GstM3U8Playlist)
    (ctx : crypto_ctx_t) :
  playlist s = Some p ->
  type p = GST_M3U8_PLAYLIST_TYPE_EVENT ->
  0 <= index s < 2 ^ 32 ->
  gst_hls_sink_init_encrypting (encrypt_env env)
    (fst (after_append env filename running_time s w)) = Some ctx ->
  exists p1 : GstM3U8Playlist,
    playlist (fst (after_append env filename running_time s w)) = Some p1
    /\ ctx_iv ctx
       = replicate 12 0
           ++ big_endian_32
                (C.to_guint
                   (entry_media_sequence p1
                      (Z.of_nat (length (entries p1)) - 1))).
Proof.
  intros Hp Ht Hidx Hctx.
  rewrite (init_encrypting_iv _ _ _ Hctx).
  unfold after_append. cbn [fst playlist set_playlist index
                             set_last_running_time].
  rewrite Hp. unfold gst_m3u8_playlist_add_entry. rewrite Ht.
  cbn [gst_m3u8_entry_new snd]. eexists. split; [reflexivity|].
  f_equal. f_equal. unfold entry_media_sequence. cbn [sequence_number
    set_entries set_sequence_number entries].
  replace (C.to_guint (index s + 1)
           - Z.of_nat (length ((if 0 <? window_size p
                                then delete_old_entries (window_size p)
                                       (entries p)
                                else entries p) ++ [_]))
           + (Z.of_nat (length ((if 0 <? window_size p
                                 then delete_old_entries (window_size p)
                                        (entries p)
                                 else entries p) ++ [_])) - 1))
    with (C.to_guint (index s + 1) - 1) by lia.
  unfold C.to_guint.
  rewrite Zminus_mod_idemp_l.
  replace (index s + 1 - 1) with (index s) by lia.
  symmetry. apply Z.mod_small. exact Hidx.
Qed.


End SegmentFiles.

Section SegmentHandling.

Import M3U8 HlsSink Element Runs Phases Pipeline.

Ltac unfold_M :=
  unfold exec, mbind, M_bind, bind, mret, M_ret, ret, get_sink, get_world,
    update_sink, update_world in *;
  cbn [fst snd] in *.

Lemma write_playlist_sink (write_ok : bool) (st : GstHlsSink * World) :
  fst (exec (gst_hls_sink_write_playlist write_ok) st) = fst st.
Proof.
  destruct st as [s w].
  destruct (write_playlist_log write_ok s w) as (res & Hs & _). exact Hs.
Qed.

Lemma schedule_sink (push_ok : bool) (st : GstHlsSink * World) :
  fst (exec (schedule_next_key_unit push_ok) st)
  = set_waiting_fku
      (if target_duration (fst st) =? 0 then true else push_ok) (fst st).
Proof.
  destruct st as [s w]. unfold schedule_next_key_unit. unfold_M.
  destruct (target_duration s =? 0); reflexivity.
Qed.

(** The sink a closed segment leaves behind. *)
Lemma handle_segment_closed_sink
    (env : MessageEnv) (filename : string) (running_time : Z)
    (s : GstHlsSink) (w : World) :
  fst (exec (gst_hls_sink_handle_message env
               (segment_closed filename running_time)) (s, w))
  = set_waiting_fku
      (if target_duration s =? 0 then true else push_event_ok env)
      (set_state (Z.lor (state s) GST_M3U8_PLAYLIST_RENDER_STARTED)
         (fst (after_append env filename running_time s w))).
Proof.
  rewrite handle_segment_closed_exec, schedule_sink.
  unfold after_flags. cbn [fst snd]. rewrite write_playlist_sink.
  destruct (negb (encryption_method s =? GST_HLS_SINK_ENC_NONE));
    reflexivity.
Qed.

Lemma schedule_exec (push_ok : bool) (s : GstHlsSink) (w : World) :
  exec (schedule_next_key_unit push_ok) (s, w)
  = (set_waiting_fku (if target_duration s =? 0 then true else push_ok) s,
     emit (ScheduleKeyUnit
             (if target_duration s =? 0 then None
              else Some (C.to_guint64
                           (last_running_time s
                            + target_duration s * M3U8.GST_SECOND),
                         C.to_guint (index s + 1)))
             (if target_duration s =? 0 then true else push_ok)) w).
Proof.
  unfold schedule_next_key_unit. unfold_M.
  destruct (target_duration s =? 0); reflexivity.
Qed.

(** The effects of a closed segment: the append, the encryption when it
    is on, the write of the playlist as the append left it, the call of
    the scheduler. *)
Lemma handle_segment_closed_log
    (env : MessageEnv) (filename : string) (running_time : Z)
    (s : GstHlsSink) (w : World) :
  exists (url : string) (added : bool) (outcome : encrypt_outcome)
         (written : bool),
    log (snd (exec (gst_hls_sink_handle_message env
                      (segment_closed filename running_time)) (s, w)))
    = log w
        ++ [PlaylistAppend url added]
        ++ (if negb (encryption_method s =? GST_HLS_SINK_ENC_NONE)
            then [ChunkEncrypt filename outcome] else [])
        ++ [PlaylistWrite
              (match playlist (fst (after_append env filename running_time
                                      s w)) with
               | Some p => M3U8.gst_m3u8_playlist_render p
               | None => None
               end) written;
            ScheduleKeyUnit
              (if target_duration s =? 0 then None
               else Some (C.to_guint64
                            (running_time
                             + target_duration s * M3U8.GST_SECOND),
                          C.to_guint (index s + 1)))
              (if target_duration s =? 0 then true
               else push_event_ok env)].
Proof.
  rewrite handle_segment_closed_exec.
  set (stE := if negb (encryption_method s =? GST_HLS_SINK_ENC_NONE)
              then _ else _).
  destruct (write_playlist_log (playlist_write_ok env) (fst stE) (snd stE))
    as (written & Hs & Hwrite).
  rewrite <- surjective_pairing in Hwrite, Hs.
  set (stW := exec (gst_hls_sink_write_playlist _) stE) in *.
  unfold after_flags.
  rewrite schedule_exec. cbn [snd log emit target_duration set_waiting_fku
    set_state last_running_time index].
  rewrite Hwrite, Hs.
  do 4 eexists.
  subst stE.
  destruct (negb (encryption_method s =? GST_HLS_SINK_ENC_NONE));
    unfold after_encrypt;
    cbn [fst snd log emit set_files];
    unfold after_append at 1 2 3 4;
    cbn [fst snd log emit set_files target_duration set_playlist
           set_last_running_time last_running_time index];
    rewrite <- !app_assoc; reflexivity.
Qed.

Lemma handle_eos_sink (env : MessageEnv) (s : GstHlsSink) (w : World)
    (p : M3U8.GstM3U8Playlist) :
  playlist s = Some p ->
  fst (exec (gst_hls_sink_handle_message env GST_MESSAGE_EOS) (s, w))
  = set_state (Z.lor (state s) GST_M3U8_PLAYLIST_RENDER_ENDED)
      (close_playlist (gst_m3u8_playlist_add_discontinuity env) p s).
Proof.
  intros Hp.
  unfold gst_hls_sink_handle_message, gst_hls_sink_write_playlist,
    close_playlist.
  unfold_M.
  destruct (is_reset_index_on_stop s); cbn [fst snd playlist set_playlist
    set_index]; rewrite Hp; cbn [option_map];
    match goal with
    | |- context [M3U8.gst_m3u8_playlist_render ?q] =>
        destruct (M3U8.gst_m3u8_playlist_render q)
    end;
    destruct (playlist_write_ok env); reflexivity.
Qed.

Lemma handle_eos_log (env : MessageEnv) (s : GstHlsSink) (w : World) :
  exists (content : option string) (written : bool),
    log (snd (exec (gst_hls_sink_handle_message env GST_MESSAGE_EOS)
                (s, w)))
    = log w ++ [PlaylistWrite content written].
Proof.
  unfold gst_hls_sink_handle_message, gst_hls_sink_write_playlist.
  unfold_M.
  destruct (is_reset_index_on_stop s); cbn [fst snd playlist set_playlist
    set_index];
    match goal with
    | |- context [match ?q with Some _ => _ | None => _ end] =>
        destruct q
    end;
    destruct (playlist_write_ok env); cbn; eauto.
Qed.

(** X13.  When a closed segment has re-armed the scheduler, the buffers
    that pass until the next closure leave the sink alone, and the entry
    of the next segment gets the time between the two closures as its
    duration. *)
Theorem segment_duration_is_time_since_last_closure
    (env1 env2 : MessageEnv) (f1 f2 : string) (t1 t2 : Z)
    (os : list Observation) (s : GstHlsSink) (w : World)
    (p : GstM3U8Playlist) :
  playlist s = Some p ->
  type p = GST_M3U8_PLAYLIST_TYPE_EVENT ->
  push_event_ok env1 = true ->
  exists p3 : GstM3U8Playlist,
    playlist
      (fst (exec (gst_hls_sink_handle_message env2 (segment_closed f2 t2))
              (exec (observe os)
                 (exec (gst_hls_sink_handle_message env1
                          (segment_closed f1 t1)) (s, w)))))
    = Some p3
    /\ option_map duration (last (entries p3))
       = Some (FP.f32_of_Z (C.to_guint64 (t2 - t1))).
Proof.
  intros Hp Ht Hpush.
  pose proof (handle_segment_closed_sink env1 f1 t1 s w) as H1.
  destruct (exec (gst_hls_sink_handle_message env1 (segment_closed f1 t1))
              (s, w)) as [s1 w1].
  cbn [fst] in H1.
  assert (Hwait : waiting_fku s1 = true).
  { rewrite H1, Hpush. cbn. destruct (target_duration s =? 0); reflexivity. }
  rewrite (observe_while_waiting os s1 w1 Hwait).
  rewrite handle_segment_closed_sink.
  unfold after_append at 1. cbn [fst playlist set_waiting_fku set_state
                                   set_playlist].
  rewrite H1.
  cbn [playlist set_waiting_fku set_state last_running_time index].
  unfold after_append.
  cbn [fst playlist set_playlist last_running_time set_last_running_time
         index].
  rewrite Hp. unfold gst_m3u8_playlist_add_entry at 2. rewrite Ht.
  cbn [gst_m3u8_entry_new snd].
  unfold gst_m3u8_playlist_add_entry. cbn [type set_entries
    set_sequence_number]. rewrite Ht.
  cbn [gst_m3u8_entry_new snd]. eexists. split; [reflexivity|].
  cbn [entries set_entries]. rewrite last_snoc. reflexivity.
Qed.

(** X14.  At the end of the stream, with reset-index on, the handler sets
    [end_list], writes the playlist once, with the end marker as its last
    line, to the playlist location when the write succeeds, and sets the
    ENDED flag; nothing else of the sink changes. *)
Theorem end_of_stream_writes_end_marker
    (env : MessageEnv) (s : GstHlsSink) (w : World) (p : GstM3U8Playlist)
    (text : string) :
  is_reset_index_on_stop s = true ->
  playlist s = Some p ->
  gst_m3u8_playlist_render (set_end_list true p) = Some text ->
  fst (exec (gst_hls_sink_handle_message env GST_MESSAGE_EOS) (s, w))
  = set_state (Z.lor (state s) GST_M3U8_PLAYLIST_RENDER_ENDED)
      (set_playlist (Some (set_end_list true p)) s)
  /\ log (snd (exec (gst_hls_sink_handle_message env GST_MESSAGE_EOS)
                 (s, w)))
     = log w ++ [PlaylistWrite (Some text) (playlist_write_ok env)]
  /\ ends_with "#EXT-X-ENDLIST" text = true
  /\ (playlist_write_ok env = true ->
      files (snd (exec (gst_hls_sink_handle_message env GST_MESSAGE_EOS)
                    (s, w))) !! playlist_location s
      = Some (bytes_of_string text)).
Proof.
  intros Hreset Hp Hr.
  unfold gst_hls_sink_handle_message, gst_hls_sink_write_playlist.
  unfold_M. rewrite Hreset. cbn [fst snd playlist set_playlist].
  rewrite Hp. cbn [option_map]. rewrite Hr.
  destruct (playlist_write_ok env); cbn [fst snd];
    (split; [reflexivity|]); (split; [reflexivity|]);
    (split; [apply (render_with_end_list _ _ Hr); reflexivity|]).
  - intros _. cbn. apply lookup_insert_eq.
  - intros Hbad. discriminate Hbad.
Qed.

Lemma delete_old_entries_measured (window : Z) (q : list GstM3U8Entry) :
  forall ds : list Z,
    Forall2 (fun e d => duration e = FP.f32_of_Z d) q ds ->
    Forall (fun d => 0 <= d < 2 ^ 52) ds ->
    exists ds' : list Z,
      Forall2 (fun e d => duration e = FP.f32_of_Z d)
        (delete_old_entries window q) ds'
      /\ Forall (fun d => 0 <= d < 2 ^ 52) ds'.
Proof.
  induction q as [|e q IH]; intros ds Hq Hds.
  - exists []. split; constructor.
  - inversion Hq as [|? d ? ds0 He Hq']; subst.
    inversion Hds as [|? ? Hd Hds']; subst.
    cbn [delete_old_entries].
    destruct (window <=? Z.of_nat (length (e :: q))).
    + apply (IH ds0); assumption.
    + exists (d :: ds0). split; assumption.
Qed.

(** X30.  When the playlist of the sink has version 3 or more and
    durations measured in nanoseconds below [2^52], and a segment closes
    less than [2^52] ns after the last running time, the handler writes a
    document that is defined, the one of the playlist it leaves, and that
    playlist has measured durations again: segment after segment, no
    conversion in the rendering is out of range. *)
Theorem closed_segment_writes_a_defined_playlist
    (env : MessageEnv) (filename : string) (running_time : Z)
    (s : GstHlsSink) (w : World) (p : GstM3U8Playlist) (ds : list Z) :
  playlist s = Some p ->
  3 <= version p ->
  measured p ds ->
  0 <= running_time - last_running_time s < 2 ^ 52 ->
  exists (p' : GstM3U8Playlist) (ds' : list Z) (text : string)
         (written : bool),
    playlist
      (fst (exec (gst_hls_sink_handle_message env
                    (segment_closed filename running_time)) (s, w)))
    = Some p'
    /\ 3 <= version p'
    /\ measured p' ds'
    /\ gst_m3u8_playlist_render p' = Some text
    /\ In (PlaylistWrite (Some text) written)
         (log (snd (exec (gst_hls_sink_handle_message env
                            (segment_closed filename running_time))
                      (s, w)))).
Proof.
  intros Hp Hv [Hq Hds] Hrt.
  rewrite handle_segment_closed_sink.
  destruct (handle_segment_closed_log env filename running_time s w)
    as (url & added & outcome & written & Hlog).
  rewrite Hlog. clear Hlog.
  cbn [playlist set_waiting_fku set_state].
  unfold after_append. cbn [fst playlist set_playlist set_last_running_time].
  rewrite Hp.
  assert (Hd : C.to_guint64 (running_time - last_running_time s)
               = running_time - last_running_time s).
  { unfold C.to_guint64. apply Z.mod_small.
    change (2 ^ 52) with 4503599627370496 in Hrt.
    change (2 ^ 64) with 18446744073709551616. lia. }
  rewrite Hd.
  set (d := running_time - last_running_time s) in *.
  set (location :=
         match playlist_root s with
         | Some root =>
             GLib.g_build_filename root (GLib.g_path_get_basename filename)
         | None => GLib.g_path_get_basename filename
         end).
  assert (Hnew : exists (p' : GstM3U8Playlist) (ds' : list Z),
            snd (gst_m3u8_playlist_add_entry (Some p) (Some location) None
                   (FP.f32_of_Z d) (index s) false
                   (program_date_time_result env)) = Some p'
            /\ version p' = version p /\ measured p' ds').
  { unfold gst_m3u8_playlist_add_entry.
    destruct (type p); cbn [gst_m3u8_entry_new snd].
    - destruct (0 <? window_size p).
      + destruct (delete_old_entries_measured (window_size p) (entries p)
                    ds Hq Hds) as (ds' & Hq' & Hds').
        eexists. exists (ds' ++ [d]). split; [reflexivity|].
        split; [reflexivity|]. split; cbn [entries set_entries].
        * apply Forall2_app; [exact Hq'|]. repeat constructor.
        * apply Forall_app. split; [exact Hds'|]. repeat constructor; lia.
      + eexists. exists (ds ++ [d]). split; [reflexivity|].
        split; [reflexivity|]. split; cbn [entries set_entries].
        * apply Forall2_app; [exact Hq|]. repeat constructor.
        * apply Forall_app. split; [exact Hds|]. repeat constructor; lia.
    - exists p, ds. split; [reflexivity|]. split; [reflexivity|].
      split; assumption. }
  destruct Hnew as (p' & ds' & Hp' & Hv' & Hm').
  rewrite Hp'.
  destruct (measured_renders p' ds' Hm' ltac:(lia)) as [text Htext].
  exists p', ds', text, written.
  split; [reflexivity|]. split; [lia|]. split; [exact Hm'|].
  split; [exact Htext|]. rewrite Htext.
  rewrite !in_app_iff. right. right. right. left. reflexivity.
Qed.

End SegmentHandling.

Section ElementProperties.

Import HlsSink Element Pipeline Runs Phases.

Ltac unfold_M :=
  unfold exec, mbind, M_bind, bind, mret, M_ret, ret, get_sink, get_world,
    update_sink, update_world in *;
  cbn [fst snd] in *.

(** X15.  For the twelve writable properties other than the two start
    sequence numbers, [get_property] after a successful [set_property]
    returns the value that was set. *)
Theorem property_reads_back
    (get_discontinuity_number : M3U8.GstM3U8Playlist -> Z)
    (prop_id : PropId) (value : GValue) (o o' : GstHlsSinkObject) :
  reads_back prop_id = true ->
  gst_hls_sink_set_property prop_id value o = Some o' ->
  gst_hls_sink_get_property get_discontinuity_number prop_id o'
  = Some value.
Proof.
  intros Hrb. unfold gst_hls_sink_set_property.
  destruct (accepts prop_id value) eqn:Hacc; [|discriminate].
  cbn [negb].
  destruct prop_id; try discriminate Hrb;
    destruct value as [[v|]|v|v|v|v|v]; try discriminate Hacc;
    unfold on_playlist; cbn [base on_base set_base playlist set_playlist
      set_playlist_length set_encryption_method set_key_uri];
    try (destruct (playlist (base o)) as [p|]; [|discriminate]);
    intros [= <-]; try reflexivity;
    cbn; try destruct (multifilesink o); reflexivity.
Qed.

(** X16.  The start media sequence does not read back: its getter
    returns the sequence number of the playlist, which the setter does
    not touch, so it returns after the write what it returned before. *)
Theorem start_media_sequence_reads_playlist
    (get_discontinuity_number : M3U8.GstM3U8Playlist -> Z)
    (value : GValue) (o o' : GstHlsSinkObject) :
  gst_hls_sink_set_property PROP_START_MEDIA_SEQUENCE value o = Some o' ->
  gst_hls_sink_get_property get_discontinuity_number
    PROP_START_MEDIA_SEQUENCE o'
  = option_map (fun p => G_UINT (M3U8.sequence_number p))
      (playlist (base o))
  /\ gst_hls_sink_get_property get_discontinuity_number
       PROP_START_MEDIA_SEQUENCE o'
     = gst_hls_sink_get_property get_discontinuity_number
         PROP_START_MEDIA_SEQUENCE o.
Proof.
  unfold gst_hls_sink_set_property.
  destruct (accepts PROP_START_MEDIA_SEQUENCE value) eqn:Hacc;
    [|discriminate].
  destruct value; try discriminate Hacc.
  intros [= <-]. split; reflexivity.
Qed.

(** What a buffer on the pad does to the sink: nothing, or the running
    time and the waiting flag are written. *)
Lemma buffer_probe_sink (ob : Observation) (s : GstHlsSink) (w : World) :
  fst (exec (gst_hls_sink_ghost_buffer_probe ob) (s, w)) = s
  \/ exists (b : bool),
       fst (exec (gst_hls_sink_ghost_buffer_probe ob) (s, w))
       = set_waiting_fku b
           (set_last_running_time (buffer_running_time ob) s).
Proof.
  destruct (waiting_fku s) eqn:Hw.
  - left. unfold exec. rewrite probe_while_waiting by exact Hw. reflexivity.
  - destruct (decide (target_duration s = 0)) as [Ht|Ht].
    + left. unfold gst_hls_sink_ghost_buffer_probe. unfold_M.
      rewrite Ht. reflexivity.
    + rewrite probe_when_idle by assumption.
      destruct (buffer_timestamp ob); [right; eexists|left]; reflexivity.
Qed.

(** What a message from the bin does to the sink. *)
Lemma handle_message_sink (env : MessageEnv) (message : GstMessage)
    (s : GstHlsSink) (w : World) (p : M3U8.GstM3U8Playlist) :
  playlist s = Some p ->
  fst (exec (gst_hls_sink_handle_message env message) (s, w)) = s
  \/ (exists (b : bool) (st t : Z) (q : M3U8.GstM3U8Playlist),
        fst (exec (gst_hls_sink_handle_message env message) (s, w))
        = set_waiting_fku b
            (set_state st (set_playlist (Some q)
                             (set_last_running_time t s)))
        /\ M3U8.window_size q = M3U8.window_size p)
  \/ fst (exec (gst_hls_sink_handle_message env message) (s, w))
     = set_state (Z.lor (state s) GST_M3U8_PLAYLIST_RENDER_ENDED)
         (close_playlist (gst_m3u8_playlist_add_discontinuity env) p s).
Proof.
  intros Hp. destruct message as [name filename running_time| |].
  - destruct (String.eqb name "GstMultiFileSink") eqn:Hname.
    + apply String.eqb_eq in Hname. subst name. right. left.
      change (GST_MESSAGE_ELEMENT "GstMultiFileSink" filename running_time)
        with (segment_closed filename running_time).
      rewrite handle_segment_closed_sink.
      unfold after_append. cbn [fst]. rewrite Hp.
      unfold M3U8.gst_m3u8_playlist_add_entry.
      destruct (M3U8.type p); cbn [snd M3U8.gst_m3u8_entry_new];
        do 4 eexists; (split; [reflexivity|]); reflexivity.
    + left. unfold gst_hls_sink_handle_message. rewrite Hname. reflexivity.
  - right. right. apply handle_eos_sink, Hp.
  - left. reflexivity.
Qed.


Lemma reset_window (o : GstHlsSinkObject) :
  (is_Some (playlist (base o)) -> window_in_step o) ->
  window_in_step (gst_hls_sink_reset o).
Proof.
  unfold window_in_step, gst_hls_sink_reset, HlsSink.gst_hls_sink_reset.
  cbn. destruct (is_reset_index_on_stop (base o)); cbn; [reflexivity|].
  destruct (playlist (base o)) eqn:Hp; cbn; [|reflexivity].
  intros H. rewrite Hp. apply H. eauto.
Qed.

Lemma lift_write_playlist (write_ok : bool) (o : GstHlsSinkObject)
    (w : World) :
  fst (lift (gst_hls_sink_write_playlist write_ok) (o, w)) = o.
Proof.
  unfold lift. cbn [fst snd]. rewrite write_playlist_sink. cbn [fst].
  destruct o; reflexivity.
Qed.

Lemma close_playlist_cases
    (f : M3U8.GstM3U8Playlist -> M3U8.GstM3U8Playlist)
    (p : M3U8.GstM3U8Playlist) (s : GstHlsSink) :
  exists (i : Z) (q : M3U8.GstM3U8Playlist),
    close_playlist f p s = set_playlist (Some q) (set_index i s)
    /\ ((forall r, M3U8.window_size (f r) = M3U8.window_size r) ->
        M3U8.window_size q = M3U8.window_size p).
Proof.
  unfold close_playlist. destruct (is_reset_index_on_stop s) eqn:Hr.
  - exists (index s), (M3U8.set_end_list true p). split.
    + destruct s; reflexivity.
    + reflexivity.
  - do 2 eexists. split; [reflexivity|]. intros Hf. cbn. apply Hf.
Qed.







Lemma call_window (c : Call) (st st' : GstHlsSinkObject * World) :
  call c st = Some st' ->
  window_in_step (fst st) ->
  keeps_window c ->
  window_in_step (fst st').
Proof.
  destruct st as [o w]. unfold window_in_step. cbn [fst].
  intros Hcall Hw Hkeep.
  destruct (playlist (base o)) as [p|] eqn:Hp; [|discriminate Hw].
  injection Hw as Hw.
  destruct c as [prop_id value|event|ob|env message|env trans];
    cbn [call fst snd] in Hcall.
  - unfold gst_hls_sink_set_property in Hcall.
    destruct (accepts prop_id value) eqn:Hty; [|discriminate Hcall].
    cbn [negb] in Hcall.
    destruct prop_id; destruct value as [[v|]|v|v|v|v|v];
      try discriminate Hty;
      unfold on_playlist in Hcall;
      cbn [base on_base set_base playlist set_playlist
             set_playlist_length set_encryption_method set_key_uri
             set_location set_max_files] in Hcall;
      rewrite ?Hp in Hcall; cbn [option_map] in Hcall;
      injection Hcall as <-; cbn;
      try (destruct (multifilesink o); cbn);
      rewrite ?Hp; cbn; congruence.
  - injection Hcall as <-.
    destruct event as [seg| |[count|]|]; cbn; rewrite Hp; cbn; congruence.
  - injection Hcall as <-. unfold lift. cbn [fst snd].
    destruct (buffer_probe_sink ob (base o) w) as [-> | [b ->]];
      cbn; rewrite Hp; cbn; congruence.
  - unfold handle_message in Hcall. cbn [fst] in Hcall. rewrite Hp in Hcall.
    assert (Hst : st' = lift (gst_hls_sink_handle_message env message)
                           (o, w))
      by (destruct message; congruence).
    subst st'. unfold lift. cbn [fst snd].
    destruct (handle_message_sink env message (base o) w p Hp)
      as [-> | [(b & st & t & q & -> & Hq) | ->]].
    + cbn. rewrite Hp. cbn. congruence.
    + cbn. congruence.
    + destruct (close_playlist_cases
                  (gst_m3u8_playlist_add_discontinuity env) p (base o))
        as (i & q & -> & Hq).
      cbn. rewrite Hq by exact Hkeep. congruence.
  - unfold gst_hls_sink_change_state in Hcall. cbn [fst snd] in Hcall.
    assert (Hafter : forall o1,
              playlist (base o1) = Some p ->
              playlist_length (base o1) = playlist_length (base o) ->
              option_map M3U8.window_size
                (playlist (base (fst (change_state_after env trans
                                        (o1, w)))))
              = Some (playlist_length
                        (base (fst (change_state_after env trans
                                      (o1, w)))))).
    { intros o1 Hp1 Hl1. unfold change_state_after. cbn [fst snd].
      destruct trans; cbn [fst snd]; try (rewrite Hp1; cbn; congruence).
      - rewrite Hp1.
        destruct (negb (Z.land _ _ =? 0) && (Z.land _ _ =? 0)).
        + cbn [fst]. rewrite lift_write_playlist.
          destruct (close_playlist_cases (add_discontinuity env) p
                      (base o1)) as (i & q & -> & Hq).
          apply reset_window. intros _. unfold window_in_step. cbn.
          rewrite Hq by exact Hkeep. congruence.
        + apply reset_window. intros _. unfold window_in_step.
          cbn [fst]. rewrite Hp1. cbn. congruence.
      - apply reset_window. intros _. unfold window_in_step.
        cbn [fst]. rewrite Hp1. cbn. congruence. }
    destruct trans; cbn [option_map] in Hcall;
      try (injection Hcall as <-; cbn [snd]; apply Hafter; auto; fail).
    unfold gst_hls_sink_create_elements in Hcall.
    destruct (elements_created o) eqn:Hec; cbn [fst snd negb] in Hcall.
    + destruct (negb (encryption_method (base o) =? GST_HLS_SINK_ENC_NONE)).
      * unfold gst_hls_sink_open_key in Hcall.
        destruct (key_location o) as [path|]; [|discriminate Hcall].
        destruct (if key_open_ok env then files w !! path else None);
          injection Hcall as <-; cbn [snd]; apply Hafter; auto.
      * injection Hcall as <-. cbn [snd]. apply Hafter; auto.
    + destruct (factory_make_ok env); cbn [fst snd negb] in Hcall.
      * destruct (negb (encryption_method _ =? GST_HLS_SINK_ENC_NONE)).
        -- unfold gst_hls_sink_open_key in Hcall.
           cbn [key_location set_elements_created set_multifilesink]
             in Hcall.
           destruct (key_location o) as [path|]; [|discriminate Hcall].
           destruct (if key_open_ok env then files w !! path else None);
             injection Hcall as <-; cbn [snd]; apply Hafter; auto.
        -- injection Hcall as <-. cbn [snd]. apply Hafter; auto.
      * injection Hcall as <-. cbn. rewrite Hp. cbn. congruence.
Qed.

(** X19.  Throughout a run from [gst_hls_sink_init] the window size of
    the playlist is the playlist-length property of the sink, provided
    [gst_m3u8_playlist_add_discontinuity] leaves the window size
    alone. *)
Theorem window_size_follows_playlist_length
    (cs : list Call) (w : World) (st' : GstHlsSinkObject * World) :
  Forall keeps_window cs ->
  calls cs (gst_hls_sink_init, w) = Some st' ->
  option_map M3U8.window_size (playlist (base (fst st')))
  = Some (playlist_length (base (fst st'))).
Proof.
  intros Hkeep.
  assert (Hinit : window_in_step (fst (gst_hls_sink_init, w)))
    by reflexivity.
  revert Hinit. generalize (gst_hls_sink_init, w).
  induction Hkeep as [|c cs Hc _ IH]; intros st Hw Hrun.
  - injection Hrun as <-. exact Hw.
  - cbn [calls] in Hrun.
    destruct (call c st) as [st1|] eqn:Hcall; [|discriminate Hrun].
    apply (IH st1); [|exact Hrun].
    apply (call_window c st st1 Hcall Hw Hc).
Qed.

Lemma reset_target_duration (o : GstHlsSinkObject) :
  target_duration (base (gst_hls_sink_reset o)) = target_duration (base o).
Proof.
  unfold gst_hls_sink_reset, HlsSink.gst_hls_sink_reset. cbn.
  destruct (is_reset_index_on_stop (base o)); cbn; [reflexivity|].
  destruct (playlist (base o)); reflexivity.
Qed.

Lemma call_manual (c : Call) (st st' : GstHlsSinkObject * World) :
  call c st = Some st' ->
  target_duration (base (fst st)) = 0 ->
  keeps_manual c ->
  target_duration (base (fst st')) = 0
  /\ exists sent : list Effect,
       log (snd st') = log (snd st) ++ sent
       /\ Forall (fun e => is_attempt e = false) sent.
Proof.
  destruct st as [o w]. cbn [fst snd]. intros Hcall Ht Hkeep.
  assert (Hnone : forall o', target_duration (base o') = 0 ->
            target_duration (base o') = 0
            /\ exists sent : list Effect,
                 log w = log w ++ sent
                 /\ Forall (fun e => is_attempt e = false) sent).
  { intros o' H. split; [exact H|]. exists []. rewrite app_nil_r. auto. }
  destruct c as [prop_id value|event|ob|env message|env trans];
    cbn [call fst snd] in Hcall.
  - unfold gst_hls_sink_set_property in Hcall.
    destruct (accepts prop_id value) eqn:Hty; [|discriminate Hcall].
    cbn [negb] in Hcall. cbn [keeps_manual] in Hkeep.
    destruct prop_id; destruct value as [[v|]|v|v|v|v|v];
      try discriminate Hty; try discriminate Hkeep;
      unfold on_playlist in Hcall;
      cbn [base on_base set_base playlist set_playlist
             set_playlist_length set_encryption_method set_key_uri
             set_location set_max_files] in Hcall;
      try (destruct (playlist (base o)); [|discriminate Hcall]);
      cbn [option_map] in Hcall;
      injection Hcall as <-; cbn [snd]; apply Hnone; cbn;
      try (destruct (multifilesink o); cbn); congruence.
  - injection Hcall as <-. cbn [snd]. apply Hnone.
    destruct event as [seg| |[count|]|]; cbn; exact Ht.
  - injection Hcall as <-. unfold lift. cbn [fst snd].
    unfold gst_hls_sink_ghost_buffer_probe. unfold_M.
    rewrite Ht. cbn [Z.eqb orb snd fst]. apply Hnone.
    destruct o as [[] ]; exact Ht.
  - unfold handle_message in Hcall. cbn [fst] in Hcall.
    destruct message as [name filename running_time| |].
    + assert (Hst : st' = lift (gst_hls_sink_handle_message env
                                  (GST_MESSAGE_ELEMENT name filename
                                     running_time)) (o, w))
        by (destruct (playlist (base o)); congruence).
      subst st'. clear Hcall. unfold lift. cbn [fst snd].
      destruct (String.eqb name "GstMultiFileSink") eqn:Hname.
      * apply String.eqb_eq in Hname. subst name.
        change (GST_MESSAGE_ELEMENT "GstMultiFileSink" filename
                  running_time)
          with (segment_closed filename running_time).
        rewrite handle_segment_closed_sink.
        destruct (handle_segment_closed_log env filename running_time
                    (base o) w)
          as (url & added & outcome & written & ->).
        rewrite Ht. cbn [Z.eqb base set_base target_duration
                           set_waiting_fku set_state].
        split.
        -- unfold after_append. cbn. exact Ht.
        -- eexists. split; [reflexivity|].
           destruct (negb (encryption_method (base o)
                           =? GST_HLS_SINK_ENC_NONE));
             repeat constructor.
      * unfold gst_hls_sink_handle_message. rewrite Hname. cbn [negb].
        apply Hnone. destruct o as [[] ]; exact Ht.
    + destruct (playlist (base o)) as [p|] eqn:Hp; [|discriminate Hcall].
      assert (Hst : st' = lift (gst_hls_sink_handle_message env
                                  GST_MESSAGE_EOS) (o, w))
        by congruence.
      subst st'. clear Hcall. unfold lift. cbn [fst snd].
      rewrite (handle_eos_sink env (base o) w p Hp).
      destruct (handle_eos_log env (base o) w) as (content & written & ->).
      split.
      * destruct (close_playlist_cases
                    (gst_m3u8_playlist_add_discontinuity env) p (base o))
          as (i & q & -> & _).
        cbn. exact Ht.
      * eexists. split; [reflexivity|]. repeat constructor.
    + assert (Hst : st' = lift (gst_hls_sink_handle_message env
                                  GST_MESSAGE_OTHER) (o, w))
        by (destruct (playlist (base o)); congruence).
      subst st'. unfold lift. cbn. apply Hnone. exact Ht.
  - unfold gst_hls_sink_change_state in Hcall. cbn [fst snd] in Hcall.
    assert (Hafter : forall o1,
              target_duration (base o1) = 0 ->
              target_duration
                (base (fst (change_state_after env trans (o1, w)))) = 0
              /\ exists sent : list Effect,
                   log (snd (change_state_after env trans (o1, w)))
                   = log w ++ sent
                   /\ Forall (fun e => is_attempt e = false) sent).
    { intros o1 Ht1. unfold change_state_after.
      destruct trans; cbn [fst snd]; try (apply Hnone; exact Ht1).
      - destruct (playlist (base o1)) as [p1|];
          [|rewrite reset_target_duration; apply Hnone; exact Ht1].
        destruct (negb (Z.land _ _ =? 0) && (Z.land _ _ =? 0));
          [|rewrite reset_target_duration; apply Hnone; exact Ht1].
        rewrite reset_target_duration, lift_write_playlist.
        split.
        + destruct (close_playlist_cases (add_discontinuity env) p1
                      (base o1)) as (i & q & -> & _).
          cbn. exact Ht1.
        + unfold lift. cbn [fst snd base set_base].
          destruct (write_playlist_log (drain_write_ok env)
                      (close_playlist (add_discontinuity env) p1 (base o1))
                      w) as (res & _ & ->).
          eexists. split; [reflexivity|]. repeat constructor.
      - rewrite reset_target_duration. apply Hnone; exact Ht1. }
    destruct trans; cbn [option_map] in Hcall;
      try (injection Hcall as <-; cbn [snd]; apply Hafter; auto; fail).
    unfold gst_hls_sink_create_elements in Hcall.
    destruct (elements_created o) eqn:Hec; cbn [fst snd negb] in Hcall.
    + destruct (negb (encryption_method (base o) =? GST_HLS_SINK_ENC_NONE)).
      * unfold gst_hls_sink_open_key in Hcall.
        destruct (key_location o) as [path|]; [|discriminate Hcall].
        destruct (if key_open_ok env then files w !! path else None);
          injection Hcall as <-; cbn [snd]; apply Hafter; auto.
      * injection Hcall as <-. cbn [snd]. apply Hafter; auto.
    + destruct (factory_make_ok env); cbn [fst snd negb] in Hcall.
      * destruct (negb (encryption_method _ =? GST_HLS_SINK_ENC_NONE)).
        -- unfold gst_hls_sink_open_key in Hcall.
           cbn [key_location set_elements_created set_multifilesink]
             in Hcall.
           destruct (key_location o) as [path|]; [|discriminate Hcall].
           destruct (if key_open_ok env then files w !! path else None);
             injection Hcall as <-; cbn [snd]; apply Hafter; auto.
        -- injection Hcall as <-. cbn [snd]. apply Hafter; auto.
      * injection Hcall as <-. cbn [snd]. apply Hnone. cbn. exact Ht.
Qed.

(** X20.  With a target duration of 0, no run of calls that leaves it at
    0 makes the sink try to send a force-key-unit request upstream. *)
Theorem manual_mode_sends_no_request
    (cs : list Call) (o : GstHlsSinkObject) (w : World)
    (st' : GstHlsSinkObject * World) :
  target_duration (base o) = 0 ->
  Forall keeps_manual cs ->
  calls cs (o, w) = Some st' ->
  exists sent : list Effect,
    log (snd st') = log w ++ sent
    /\ Forall (fun e => is_attempt e = false) sent.
Proof.
  intros Ht Hkeep.
  change (target_duration (base o) = 0)
    with (target_duration (base (fst (o, w))) = 0) in Ht.
  change (log w) with (log (snd (o, w))).
  revert Ht. generalize (o, w). clear o w.
  induction Hkeep as [|c cs Hc _ IH]; intros st Ht Hrun.
  - injection Hrun as <-. exists []. rewrite app_nil_r. auto.
  - cbn [calls] in Hrun.
    destruct (call c st) as [st1|] eqn:Hcall; [|discriminate Hrun].
    destruct (call_manual c st st1 Hcall Ht Hc)
      as (Ht1 & sent1 & Hlog1 & Hsent1).
    destruct (IH st1 Ht1 Hrun) as (sent & Hlog & Hsent).
    exists (sent1 ++ sent). split.
    + rewrite Hlog, Hlog1, app_assoc. reflexivity.
    + apply Forall_app. auto.
Qed.

Lemma close_segment_step (g : ClosedSegment)
    (st : GstHlsSinkObject * World) :
  awaiting st ->
  push_event_ok (closed_env g) = true ->
  exists (st' : GstHlsSinkObject * World) (p' : M3U8.GstM3U8Playlist),
    calls [PadEvent (answer (snd st));
           BusMessage (closed_env g)
             (segment_closed (closed_filename g) (closed_running_time g))]
      st = Some st'
    /\ awaiting st'
    /\ index (base (fst st')) = C.to_guint (index (base (fst st)) + 1)
    /\ playlist (base (fst st')) = Some p'
    /\ M3U8.sequence_number p' = C.to_guint (index (base (fst st')) + 1).
Proof.
  destruct st as [o w]. intros (p & t & Hp & Htype & Htd & Hwait & Hreq) Hpush.
  cbn [fst snd] in *.
  cbn [calls call fst snd]. unfold answer. rewrite Hreq. cbn [option_map snd].
  cbn [gst_hls_sink_ghost_event_probe].
  set (c := C.to_guint (index (base o) + 1)).
  set (o1 := on_base (set_index c) _).
  assert (Hp1 : playlist (base o1) = Some p) by exact Hp.
  unfold handle_message. cbn [fst]. rewrite Hp1.
  cbv iota. unfold segment_closed at 1.
  change (GST_MESSAGE_ELEMENT "GstMultiFileSink" (closed_filename g)
            (closed_running_time g))
    with (segment_closed (closed_filename g) (closed_running_time g)).
  unfold lift. cbn [fst snd].
  rewrite handle_segment_closed_sink.
  destruct (handle_segment_closed_log (closed_env g) (closed_filename g)
              (closed_running_time g) (base o1) w)
    as (url & added & outcome & written & Hlog).
  apply Z.eqb_neq in Htd as Htd'.
  assert (Htd1 : (target_duration (base o1) =? 0) = false) by exact Htd'.
  rewrite Htd1 in *. rewrite Hpush in *.
  unfold after_append in *. cbn [fst] in *. rewrite Hp1 in *.
  unfold M3U8.gst_m3u8_playlist_add_entry in *. rewrite Htype in *.
  cbn [M3U8.gst_m3u8_entry_new snd] in *.
  do 2 eexists. split; [reflexivity|].
  cbn [fst snd base set_base playlist set_waiting_fku set_state
         set_playlist index set_last_running_time]. repeat split.
  - unfold awaiting. cbn [fst snd base set_base playlist set_waiting_fku
      set_state set_playlist index set_last_running_time target_duration
      waiting_fku].
    do 2 eexists. split; [reflexivity|]. split; [exact Htype|].
    split; [exact Htd|]. split; [reflexivity|].
    unfold last_request. rewrite Hlog.
    match goal with
    | |- context [[?a; ?b]] => change [a; b] with ([a] ++ [b])
    end.
    rewrite !app_assoc, last_snoc. reflexivity.
Qed.

Lemma close_segments_run (segments : list ClosedSegment) :
  forall st : GstHlsSinkObject * World,
    awaiting st ->
    0 <= index (base (fst st)) < 2 ^ 32 ->
    Forall (fun g => push_event_ok (closed_env g) = true) segments ->
    exists (st' : GstHlsSinkObject * World) (p' : M3U8.GstM3U8Playlist),
      close_segments segments st = Some st'
      /\ awaiting st'
      /\ index (base (fst st'))
         = C.to_guint (index (base (fst st)) + Z.of_nat (length segments))
      /\ playlist (base (fst st')) = Some p'
      /\ (segments <> [] ->
          M3U8.sequence_number p'
          = C.to_guint (index (base (fst st')) + 1)).
Proof.
  induction segments as [|g rest IH]; intros st Haw Hidx Hpush.
  - destruct Haw as (p & t & Hp & Hrest).
    exists st, p. split; [reflexivity|].
    split; [exists p, t; auto|]. split.
    + cbn [length Z.of_nat]. rewrite Z.add_0_r. symmetry.
      apply Z.mod_small. exact Hidx.
    + split; [exact Hp | congruence].
  - inversion Hpush as [|? ? Hg Hrest]; subst.
    destruct (close_segment_step g st Haw Hg)
      as (st1 & p1 & Hcall & Haw1 & Hidx1 & Hp1 & Hseq1).
    assert (Hr1 : 0 <= index (base (fst st1)) < 2 ^ 32).
    { rewrite Hidx1. apply Z.mod_pos_bound. lia. }
    destruct (IH st1 Haw1 Hr1 Hrest)
      as (st' & p' & Hrun & Haw' & Hidx' & Hp' & Hseq').
    exists st', p'. cbn [close_segments]. rewrite Hcall.
    split; [exact Hrun|]. split; [exact Haw'|]. split.
    + rewrite Hidx', Hidx1. unfold C.to_guint.
      rewrite Zplus_mod_idemp_l. f_equal. cbn [length]. lia.
    + split; [exact Hp'|]. intros _.
      destruct rest as [|g' rest'].
      * cbn in Hrun. injection Hrun as <-.
        rewrite Hp1 in Hp'. injection Hp' as <-. exact Hseq1.
      * apply Hseq'. discriminate.
Qed.

(** X21.  When upstream answers every request with the count asked for,
    the index goes up by one per closed segment, modulo 2^32: after the
    first buffer and [n] segments it is the index at the start plus [n],
    the sequence number of the playlist is one more, and the request for
    the next index is out. *)
Theorem index_follows_answered_requests
    (segments : list ClosedSegment) (ob : Observation) (ts : Z)
    (o : GstHlsSinkObject) (w : World) (p : M3U8.GstM3U8Playlist) :
  playlist (base o) = Some p ->
  M3U8.type p = M3U8.GST_M3U8_PLAYLIST_TYPE_EVENT ->
  target_duration (base o) <> 0 ->
  waiting_fku (base o) = false ->
  0 <= index (base o) < 2 ^ 32 ->
  buffer_timestamp ob = Some ts ->
  push_ok ob = true ->
  Forall (fun g => push_event_ok (closed_env g) = true) segments ->
  exists (st' : GstHlsSinkObject * World) (p' : M3U8.GstM3U8Playlist)
         (t : Z),
    close_segments segments
      (lift (gst_hls_sink_ghost_buffer_probe ob) (o, w)) = Some st'
    /\ index (base (fst st'))
       = C.to_guint (index (base o) + Z.of_nat (length segments))
    /\ playlist (base (fst st')) = Some p'
    /\ (segments <> [] ->
        M3U8.sequence_number p' = C.to_guint (index (base (fst st')) + 1))
    /\ waiting_fku (base (fst st')) = true
    /\ last_request (snd st')
       = Some (t, C.to_guint (index (base (fst st')) + 1)).
Proof.
  intros Hp Htype Htd Hwait Hidx Hts Hpush Hall.
  assert (Haw : awaiting (lift (gst_hls_sink_ghost_buffer_probe ob) (o, w))).
  { unfold lift, awaiting. cbn [fst snd].
    rewrite (probe_when_idle ob (base o) w Hwait Htd), Hts, Hpush.
    cbn [fst snd base set_base playlist set_waiting_fku
           set_last_running_time target_duration waiting_fku index].
    exists p. eexists. repeat split; try assumption.
    unfold last_request. cbn [log emit]. rewrite last_snoc. reflexivity. }
  assert (Hidx0 : index (base (fst (lift (gst_hls_sink_ghost_buffer_probe ob)
                                      (o, w)))) = index (base o)).
  { unfold lift. cbn [fst snd].
    rewrite (probe_when_idle ob (base o) w Hwait Htd), Hts. reflexivity. }
  destruct (close_segments_run segments _ Haw) as
    (st' & p' & Hrun & (q & t & Hq & _ & _ & Hw' & Hreq) & Hi & Hp' & Hseq);
    [rewrite Hidx0; exact Hidx | exact Hall |].
  exists st', p', t. rewrite Hidx0 in Hi. auto 10.
Qed.

(** X22.  After start-media-sequence has been set to [v], the first
    request of the scheduler asks for the count [v]. *)
Theorem start_media_sequence_is_first_requested_index
    (v ts : Z) (ob : Observation) (o o' : GstHlsSinkObject) (w : World) :
  gst_hls_sink_set_property PROP_START_MEDIA_SEQUENCE (G_UINT v) o
  = Some o' ->
  target_duration (base o) <> 0 ->
  waiting_fku (base o) = false ->
  buffer_timestamp ob = Some ts ->
  push_ok ob = true ->
  option_map snd
    (last_request (snd (lift (gst_hls_sink_ghost_buffer_probe ob) (o', w))))
  = Some v.
Proof.
  unfold gst_hls_sink_set_property.
  destruct (accepts PROP_START_MEDIA_SEQUENCE (G_UINT v)) eqn:Hacc;
    [|discriminate].
  cbn [negb]. intros [= <-] Htd Hwait Hts Hpush.
  cbn [accepts] in Hacc. apply andb_true_iff in Hacc as [Hlo Hhi].
  apply Z.leb_le in Hlo. apply Z.ltb_lt in Hhi.
  unfold lift. cbn [fst snd base on_base set_base].
  rewrite probe_when_idle by assumption. cbn [buffer_timestamp].
  rewrite Hts, Hpush. unfold last_request. cbn [snd log emit].
  rewrite last_snoc. cbn [option_map snd index set_index]. f_equal.
  unfold C.to_guint. rewrite Zplus_mod_idemp_l.
  replace (v - 1 + 1) with v by lia. apply Z.mod_small. lia.
Qed.

Lemma reset_discards_playlist (o : GstHlsSinkObject)
    (q : option M3U8.GstM3U8Playlist) :
  is_reset_index_on_stop (base o) = true ->
  gst_hls_sink_reset (on_base (set_playlist q) o) = gst_hls_sink_reset o.
Proof.
  intros Hr. unfold gst_hls_sink_reset, HlsSink.gst_hls_sink_reset, on_base.
  cbn. rewrite Hr. reflexivity.
Qed.

(** X23.  Going from PAUSED to READY with a playlist that has been
    written and not ended, and reset-index on, writes the playlist once
    more, with the end marker as its last line, and resets the sink. *)
Theorem stop_writes_the_end_marker
    (env : StateEnv) (o : GstHlsSinkObject) (w : World)
    (p : M3U8.GstM3U8Playlist) (text : string) :
  playlist (base o) = Some p ->
  is_reset_index_on_stop (base o) = true ->
  Z.land (state (base o)) GST_M3U8_PLAYLIST_RENDER_STARTED <> 0 ->
  Z.land (state (base o)) GST_M3U8_PLAYLIST_RENDER_ENDED = 0 ->
  M3U8.gst_m3u8_playlist_render (M3U8.set_end_list true p) = Some text ->
  exists w' : World,
    gst_hls_sink_change_state env GST_STATE_CHANGE_PAUSED_TO_READY (o, w)
    = Some (parent_change_state env, (gst_hls_sink_reset o, w'))
    /\ log w' = log w ++ [PlaylistWrite (Some text) (drain_write_ok env)]
    /\ ends_with "#EXT-X-ENDLIST" text = true
    /\ (drain_write_ok env = true ->
        files w' !! playlist_location (base o)
        = Some (bytes_of_string text)).
Proof.
  intros Hp Hreset Hstarted Hended Hr.
  unfold gst_hls_sink_change_state, change_state_after.
  cbn [fst snd]. rewrite Hp.
  apply Z.eqb_neq in Hstarted. apply Z.eqb_eq in Hended.
  rewrite Hstarted, Hended. cbn [negb andb].
  unfold close_playlist. rewrite Hreset.
  eexists. split.
  - rewrite lift_write_playlist.
    change (set_base (set_playlist (Some (M3U8.set_end_list true p))
                        (base o)) o)
      with (on_base (set_playlist (Some (M3U8.set_end_list true p))) o).
    rewrite reset_discards_playlist by exact Hreset. reflexivity.
  - unfold lift. cbn [fst snd base set_base].
    unfold gst_hls_sink_write_playlist. unfold_M.
    cbn [playlist set_playlist base on_base set_base]. rewrite Hr.
    split; [|split].
    + destruct (drain_write_ok env); reflexivity.
    + apply (render_with_end_list _ _ Hr). reflexivity.
    + intros ->. cbn. apply lookup_insert_eq.
Qed.

(** X24.  When no playlist has been written yet, or the end of the
    stream has been handled, going from PAUSED to READY writes nothing and
    only resets the sink. *)
Theorem stop_without_open_playlist_writes_nothing
    (env : StateEnv) (o : GstHlsSinkObject) (w : World) :
  Z.land (state (base o)) GST_M3U8_PLAYLIST_RENDER_STARTED = 0
  \/ Z.land (state (base o)) GST_M3U8_PLAYLIST_RENDER_ENDED <> 0 ->
  gst_hls_sink_change_state env GST_STATE_CHANGE_PAUSED_TO_READY (o, w)
  = Some (parent_change_state env, (gst_hls_sink_reset o, w)).
Proof.
  intros H. unfold gst_hls_sink_change_state, change_state_after.
  cbn [fst snd].
  destruct (playlist (base o)); [|reflexivity].
  destruct H as [H|H].
  - apply Z.eqb_eq in H. rewrite H. reflexivity.
  - apply Z.eqb_neq in H. rewrite H, andb_false_r. reflexivity.
Qed.

(** X25.  With encryption on, a key file that is missing or cannot be
    opened does not fail the change from NULL to READY: the parent's
    result is returned and the key bytes stay as they were. *)
Theorem missing_key_does_not_stop_the_sink
    (env : StateEnv) (o : GstHlsSinkObject) (w : World) (path : string) :
  fst (gst_hls_sink_create_elements (factory_make_ok env) o) = true ->
  encryption_method (base o) <> GST_HLS_SINK_ENC_NONE ->
  key_location o = Some path ->
  key_open_ok env = false \/ files w !! path = None ->
  gst_hls_sink_change_state env GST_STATE_CHANGE_NULL_TO_READY (o, w)
  = Some (parent_change_state env,
          (snd (gst_hls_sink_create_elements (factory_make_ok env) o), w))
  /\ key (base (snd (gst_hls_sink_create_elements (factory_make_ok env) o)))
     = key (base o).
Proof.
  intros Hmade Henc Hpath Hmiss.
  unfold gst_hls_sink_change_state. cbn [fst snd]. rewrite Hmade.
  cbn [negb].
  assert (Hsame : base (snd (gst_hls_sink_create_elements
                               (factory_make_ok env) o)) = base o
                  /\ key_location (snd (gst_hls_sink_create_elements
                                          (factory_make_ok env) o))
                     = key_location o).
  { unfold gst_hls_sink_create_elements.
    destruct (elements_created o); [auto|].
    destruct (factory_make_ok env); auto. }
  destruct Hsame as [Hb Hk]. rewrite Hb. split; [|reflexivity].
  apply Z.eqb_neq in Henc. rewrite Henc. cbn [negb].
  unfold gst_hls_sink_open_key. rewrite Hk, Hpath.
  replace (if key_open_ok env then files w !! path else None)
    with (@None (list Z))
    by (destruct Hmiss as [-> | ->]; [|destruct (key_open_ok env)];
        reflexivity).
  reflexivity.
Qed.

(** X26.  [gst_hls_sink_open_key] keeps the key 16 bytes long.  From a
    file of 16 bytes or more that is read through, the key is the first
    16 bytes; from a shorter one, the bytes of the file followed by the
    bytes the key held there before. *)
Theorem key_is_the_start_of_the_key_file
    (read_stop : option nat) (fs : gmap string (list Z))
    (o : GstHlsSinkObject) (path : string) (content : list Z) :
  key_location o = Some path ->
  fs !! path = Some content ->
  length (key (base o)) = Z.to_nat AES_BLOCK_SIZE ->
  exists o' : GstHlsSinkObject,
    gst_hls_sink_open_key true read_stop fs o = Some o'
    /\ length (key (base o')) = Z.to_nat AES_BLOCK_SIZE
    /\ (read_stop = None ->
        (Z.to_nat AES_BLOCK_SIZE <= length content)%nat ->
        key (base o') = take (Z.to_nat AES_BLOCK_SIZE) content)
    /\ (read_stop = None ->
        (length content < Z.to_nat AES_BLOCK_SIZE)%nat ->
        key (base o') = content ++ drop (length content) (key (base o))).
Proof.
  intros Hpath Hfile Hl. unfold gst_hls_sink_open_key.
  rewrite Hpath, Hfile. eexists. split; [reflexivity|].
  cbn [base on_base set_base key set_key].
  split; [|split].
  - set (got := match read_stop with
                | Some n => take n _
                | None => _
                end).
    assert (length got <= Z.to_nat AES_BLOCK_SIZE)%nat.
    { subst got. destruct read_stop; rewrite ?length_take; lia. }
    rewrite length_app, length_drop. lia.
  - intros -> Hlen. rewrite length_take.
    rewrite drop_ge by lia. apply app_nil_r.
  - intros -> Hlen. rewrite take_ge by lia. reflexivity.
Qed.

(** X27.  Resetting twice is resetting once. *)
Theorem reset_is_idempotent (o : GstHlsSinkObject) :
  gst_hls_sink_reset (gst_hls_sink_reset o) = gst_hls_sink_reset o.
Proof.
  unfold gst_hls_sink_reset, HlsSink.gst_hls_sink_reset, on_base.
  destruct o as [s l mf kl ku sh st sg fk ec ms].
  destruct s as [pl pr len td em reset idx p lrt wf state k].
  cbn. destruct reset; cbn; [reflexivity|].
  destruct p; reflexivity.
Qed.

(** X28.  With reset-index on, a reset replaces the playlist by a new
    one whose encryption method is 0, while the sink keeps its own
    encryption method: the next closed segment is encrypted, and the
    playlist written for it is rendered from a playlist without
    encryption method, so without [#EXT-X-KEY] line. *)
Theorem restart_encrypts_without_key_line
    (env : StateEnv) (menv : MessageEnv) (filename : string)
    (running_time : Z) (o : GstHlsSinkObject) (w : World) :
  is_reset_index_on_stop (base o) = true ->
  encryption_method (base o) <> GST_HLS_SINK_ENC_NONE ->
  exists (st2 : GstHlsSinkObject * World) (p2 : M3U8.GstM3U8Playlist)
         (outcome : encrypt_outcome) (written : bool),
    gst_hls_sink_change_state env GST_STATE_CHANGE_READY_TO_NULL (o, w)
    = Some (parent_change_state env, (gst_hls_sink_reset o, w))
    /\ playlist (base (gst_hls_sink_reset o))
       = Some (M3U8.gst_m3u8_playlist_new GST_M3U8_PLAYLIST_VERSION
                 (playlist_length (base o)))
    /\ call (BusMessage menv (segment_closed filename running_time))
         (gst_hls_sink_reset o, w) = Some st2
    /\ playlist (base (fst st2)) = Some p2
    /\ M3U8.encryption_method p2 = 0
    /\ In (ChunkEncrypt filename outcome) (log (snd st2))
    /\ In (PlaylistWrite (M3U8.gst_m3u8_playlist_render p2) written)
         (log (snd st2)).
Proof.
  intros Hreset Henc.
  assert (Hp : playlist (base (gst_hls_sink_reset o))
               = Some (M3U8.gst_m3u8_playlist_new GST_M3U8_PLAYLIST_VERSION
                         (playlist_length (base o)))).
  { unfold gst_hls_sink_reset, HlsSink.gst_hls_sink_reset. cbn.
    rewrite Hreset. reflexivity. }
  assert (He : encryption_method (base (gst_hls_sink_reset o))
               = encryption_method (base o)).
  { unfold gst_hls_sink_reset, HlsSink.gst_hls_sink_reset. cbn.
    rewrite Hreset. reflexivity. }
  pose proof (handle_segment_closed_sink menv filename running_time
                (base (gst_hls_sink_reset o)) w) as Hsink.
  destruct (handle_segment_closed_log menv filename running_time
              (base (gst_hls_sink_reset o)) w)
    as (url & added & outcome & written & Hlog).
  apply Z.eqb_neq in Henc. rewrite He, Henc in Hlog. cbn [negb] in Hlog.
  assert (Hcall : call (BusMessage menv
                          (segment_closed filename running_time))
                    (gst_hls_sink_reset o, w)
                  = Some (lift (gst_hls_sink_handle_message menv
                                  (segment_closed filename running_time))
                            (gst_hls_sink_reset o, w))).
  { cbn [call]. unfold handle_message. cbn [fst]. rewrite Hp.
    reflexivity. }
  revert Hcall. unfold lift. cbn [fst snd].
  generalize dependent
    (exec (gst_hls_sink_handle_message menv
             (segment_closed filename running_time))
       (base (gst_hls_sink_reset o), w)).
  intros [s2 w2] Hsink Hlog Hcall. cbn [fst snd] in *.
  set (a := after_append menv filename running_time
              (base (gst_hls_sink_reset o)) w) in *.
  assert (Ha : exists p2 : M3U8.GstM3U8Playlist,
            playlist (fst a) = Some p2 /\ M3U8.encryption_method p2 = 0).
  { subst a. unfold after_append. cbn [fst playlist set_playlist].
    rewrite Hp. eexists. split; reflexivity. }
  destruct Ha as (p2 & Hp2 & Hm2). clearbody a.
  exists (set_base s2 (gst_hls_sink_reset o), w2), p2, outcome, written.
  split; [reflexivity|]. split; [exact Hp|]. split; [exact Hcall|].
  cbn [fst snd base set_base]. rewrite Hsink.
  cbn [playlist set_waiting_fku set_state].
  split; [exact Hp2|]. split; [exact Hm2|].
  rewrite Hlog, Hp2. split.
  - apply in_app_iff. right. right. left. reflexivity.
  - apply in_app_iff. right. right. right. left. reflexivity.
Qed.


End ElementProperties.

(** * The statements at concrete inputs *)

Section Witnesses.

Import M3U8 HlsSink Runs Phases Samples.




(** The sink finalizes at the end of the stream by setting [end_list]; a
    segment that closes afterwards is appended all the same. *)
Lemma segment_after_end_of_stream_is_appended :
  option_map end_list
    (playlist (fst (exec (gst_hls_sink_handle_message message_env
                            GST_MESSAGE_EOS) (sink_encrypting, world))))
  = Some true
  /\ log (snd (exec (gst_hls_sink_handle_message message_env
                       (segment_closed "/tmp/hls/segment00000.ts"
                          2400000000))
                 (exec (gst_hls_sink_handle_message message_env
                          GST_MESSAGE_EOS) (sink_encrypting, world))))
       !! 1%nat
     = Some (PlaylistAppend "segment00000.ts" true).
Proof. split; reflexivity. Qed.


Lemma window_keeps_most_recent_witness :
  type playlist_window_2 = GST_M3U8_PLAYLIST_TYPE_EVENT
  /\ 0 < window_size playlist_window_2
  /\ [call 0; call 1; call 2] <> []
  /\ exists p',
       add_entries playlist_window_2 [call 0; call 1; call 2] = Some p'
       /\ (length (entries p')
           <= Z.to_nat (window_size playlist_window_2))%nat
       /\ entries p'
          = lastn (Z.to_nat (window_size playlist_window_2))
              (entries playlist_window_2
                 ++ map entry_of_call [call 0; call 1; call 2]).
Proof.
  split; [reflexivity|]. split; [reflexivity|]. split; [discriminate|].
  apply (window_keeps_most_recent playlist_window_2
           [call 0; call 1; call 2]);
    [reflexivity | reflexivity | discriminate].
Defined.



Lemma no_second_request_while_waiting_witness :
  log (snd (exec (gst_hls_sink_ghost_buffer_probe (buffer 0))
              (sink_encrypting, world)))
    = log world ++ [ScheduleKeyUnit (Some (15000000000, 0)) true]
  /\ waiting_fku (fst (exec (gst_hls_sink_ghost_buffer_probe (buffer 0))
                         (sink_encrypting, world))) = true
  /\ exec (observe [buffer 40000000; buffer 16000000000])
       (exec (gst_hls_sink_ghost_buffer_probe (buffer 0))
          (sink_encrypting, world))
     = exec (gst_hls_sink_ghost_buffer_probe (buffer 0))
         (sink_encrypting, world).
Proof.
  split; [reflexivity|].
  apply (no_second_request_while_waiting (buffer 0)
           [buffer 40000000; buffer 16000000000] sink_encrypting world
           (15000000000, 0)).
  reflexivity.
Defined.

Lemma iv_is_big_endian_index_witness :
  gst_hls_sink_init_encrypting encrypt_env_ok sink_index_5
    = Some {| ctx_key := replicate 16 7;
              ctx_iv := [0; 0; 0; 0; 0; 0; 0; 0; 0; 0; 0; 0; 0; 0; 0; 5] |}
  /\ ctx_iv {| ctx_key := replicate 16 7;
               ctx_iv := [0; 0; 0; 0; 0; 0; 0; 0; 0; 0; 0; 0; 0; 0; 0; 5] |}
     = replicate 12 0 ++ big_endian_32 (index sink_index_5)
  /\ length (ctx_iv
               {| ctx_key := replicate 16 7;
                  ctx_iv := [0; 0; 0; 0; 0; 0; 0; 0; 0; 0; 0; 0; 0; 0; 0; 5]
               |}) = 16%nat.
Proof.
  split; [reflexivity|].
  apply (iv_is_big_endian_index encrypt_env_ok sink_index_5).
  reflexivity.
Defined.


(** The same with a segment that is itself named [encrypted]: the
    temporary file is the segment, opening it for writing empties it, and a
    failing [stat] leaves it empty. *)
Lemma temporary_name_clash_empties_segment :
  encrypted_chunk_path "/tmp/hls/encrypted" = "/tmp/hls/encrypted"
  /\ gst_hls_sink_encrypt_chunk encrypt_env_stat_fails sink_encrypting
       "/tmp/hls/encrypted" {[ "/tmp/hls/encrypted" := [1; 2; 3] ]}
     = (StatFailed, {[ "/tmp/hls/encrypted" := [] ]}).
Proof. split; reflexivity. Qed.


(** C3 as written expects a target duration of 0. *)
Lemma render_fresh_playlist_is_not_claimed_text :
  gst_m3u8_playlist_render (gst_m3u8_playlist_new 3 0)
  <> Some (empty_playlist_text 0).
Proof. vm_compute. discriminate. Qed.

Lemma target_duration_is_ceiling_witness :
  Forall2 (fun e n => duration e = FP.f32_of_Z n)
    (entries (playlist_of_durations [2400000000; 2600000000; 3000000000]))
    [2400000000; 2600000000; 3000000000]
  /\ Forall (fun n => fits 24 n /\ n <= 8388607500000000)
       [2400000000; 2600000000; 3000000000]
  /\ gst_m3u8_playlist_target_duration
       (playlist_of_durations [2400000000; 2600000000; 3000000000])
     = Some 4.
Proof.
  assert (H1 : Forall2 (fun e n => duration e = FP.f32_of_Z n)
                 (entries (playlist_of_durations
                             [2400000000; 2600000000; 3000000000]))
                 [2400000000; 2600000000; 3000000000])
    by (repeat constructor).
  assert (H2 : Forall (fun n => fits 24 n /\ n <= 8388607500000000)
                 [2400000000; 2600000000; 3000000000])
    by (repeat constructor; vm_compute; congruence).
  split; [exact H1|]. split; [exact H2|].
  exact (target_duration_is_ceiling
           (playlist_of_durations [2400000000; 2600000000; 3000000000])
           [2400000000; 2600000000; 3000000000] H1 H2).
Defined.

End Witnesses.

(** * Further statements at concrete inputs *)

Section RunWitnesses.

Import M3U8 HlsSink Element Pipeline Runs Phases Samples Fixtures.


Lemma unbounded_window_keeps_every_entry_witness :
  type (gst_m3u8_playlist_new 3 0) = GST_M3U8_PLAYLIST_TYPE_EVENT
  /\ window_size (gst_m3u8_playlist_new 3 0) = 0
  /\ exists p',
       add_entries (gst_m3u8_playlist_new 3 0) [call 0; call 1; call 2]
       = Some p'
       /\ entries p'
          = entries (gst_m3u8_playlist_new 3 0)
              ++ map entry_of_call [call 0; call 1; call 2].
Proof.
  split; [reflexivity|]. split; [reflexivity|].
  apply (unbounded_window_keeps_every_entry (gst_m3u8_playlist_new 3 0)
           [call 0; call 1; call 2]); reflexivity.
Defined.

Lemma media_sequence_advances_by_evictions_witness :
  type playlist_window_2 = GST_M3U8_PLAYLIST_TYPE_EVENT
  /\ consecutive_from (sequence_number playlist_window_2)
       [call 0; call 1; call 2]
  /\ Z.of_nat (length (entries playlist_window_2))
     <= sequence_number playlist_window_2
  /\ sequence_number playlist_window_2
     + Z.of_nat (length [call 0; call 1; call 2]) < 2 ^ 31
  /\ exists p',
       add_entries playlist_window_2 [call 0; call 1; call 2] = Some p'
       /\ (length (entries p')
           <= length (entries playlist_window_2)
              + length [call 0; call 1; call 2])%nat
       /\ media_sequence p'
          = media_sequence playlist_window_2
            + (Z.of_nat (length (entries playlist_window_2))
               + Z.of_nat (length [call 0; call 1; call 2])
               - Z.of_nat (length (entries p'))).
Proof.
  assert (Hcons : consecutive_from (sequence_number playlist_window_2)
                    [call 0; call 1; call 2])
    by (cbn; repeat split).
  split; [reflexivity|]. split; [exact Hcons|].
  split; [vm_compute; discriminate|]. split; [reflexivity|].
  apply (media_sequence_advances_by_evictions playlist_window_2
           [call 0; call 1; call 2]);
    [reflexivity | exact Hcons | vm_compute; discriminate | reflexivity].
Defined.

Lemma end_marker_iff_end_list_witness :
  gst_m3u8_playlist_render playlist_ended
  = Some (default "" (gst_m3u8_playlist_render playlist_ended))
  /\ ends_with "#EXT-X-ENDLIST"
       (default "" (gst_m3u8_playlist_render playlist_ended))
     = end_list playlist_ended.
Proof.
  split; [reflexivity|].
  apply (end_marker_iff_end_list playlist_ended
           (default "" (gst_m3u8_playlist_render playlist_ended))).
  reflexivity.
Defined.

Lemma no_entry_exceeds_target_duration_witness :
  Forall2 (fun e n => duration e = FP.f32_of_Z n)
    (entries (playlist_of_durations [2400000000; 2600000000; 3000000000]))
    [2400000000; 2600000000; 3000000000]
  /\ Forall (fun n => fits 24 n /\ n <= 8388607500000000)
       [2400000000; 2600000000; 3000000000]
  /\ exists t : Z,
       gst_m3u8_playlist_target_duration
         (playlist_of_durations [2400000000; 2600000000; 3000000000])
       = Some t
       /\ Forall (fun n => (n + 500 * GST_MSECOND) / GST_SECOND <= t)
            [2400000000; 2600000000; 3000000000]
       /\ Forall (fun n => n + 500 * GST_MSECOND <= t * GST_SECOND)
            [2400000000; 2600000000; 3000000000].
Proof.
  assert (H1 : Forall2 (fun e n => duration e = FP.f32_of_Z n)
                 (entries (playlist_of_durations
                             [2400000000; 2600000000; 3000000000]))
                 [2400000000; 2600000000; 3000000000])
    by (repeat constructor).
  assert (H2 : Forall (fun n => fits 24 n /\ n <= 8388607500000000)
                 [2400000000; 2600000000; 3000000000])
    by (repeat constructor; vm_compute; congruence).
  split; [exact H1|]. split; [exact H2|].
  exact (no_entry_exceeds_target_duration
           (playlist_of_durations [2400000000; 2600000000; 3000000000])
           [2400000000; 2600000000; 3000000000] H1 H2).
Defined.


Lemma failed_encryption_leaves_temporary_file_witness :
  open_encrypted_ok encrypt_env_stat_fails = true
  /\ fst (gst_hls_sink_encrypt_chunk encrypt_env_stat_fails
            sink_encrypting "/tmp/hls/segment00000.ts" disk)
     <> EncryptDone
  /\ fst (gst_hls_sink_encrypt_chunk encrypt_env_stat_fails
            sink_encrypting "/tmp/hls/segment00000.ts" disk)
     <> InitFailed
  /\ is_Some (snd (gst_hls_sink_encrypt_chunk encrypt_env_stat_fails
                     sink_encrypting "/tmp/hls/segment00000.ts" disk)
                !! encrypted_chunk_path "/tmp/hls/segment00000.ts").
Proof.
  split; [reflexivity|]. split; [vm_compute; discriminate|].
  split; [vm_compute; discriminate|].
  apply (failed_encryption_leaves_temporary_file encrypt_env_stat_fails
           sink_encrypting "/tmp/hls/segment00000.ts" disk);
    [reflexivity | vm_compute; discriminate | vm_compute; discriminate].
Defined.

Lemma distinct_indices_give_distinct_ivs_witness :
  gst_hls_sink_init_encrypting encrypt_env_ok sink_index_5
  = Some {| ctx_key := replicate 16 7;
            ctx_iv := [0; 0; 0; 0; 0; 0; 0; 0; 0; 0; 0; 0; 0; 0; 0; 5] |}
  /\ gst_hls_sink_init_encrypting encrypt_env_ok
       (set_index 261 sink_encrypting)
     = Some {| ctx_key := replicate 16 7;
               ctx_iv := [0; 0; 0; 0; 0; 0; 0; 0; 0; 0; 0; 0; 0; 0; 1; 5] |}
  /\ 0 <= index sink_index_5 < 2 ^ 32
  /\ 0 <= index (set_index 261 sink_encrypting) < 2 ^ 32
  /\ index sink_index_5 <> index (set_index 261 sink_encrypting)
  /\ ctx_iv {| ctx_key := replicate 16 7;
               ctx_iv := [0; 0; 0; 0; 0; 0; 0; 0; 0; 0; 0; 0; 0; 0; 0; 5] |}
     <> ctx_iv {| ctx_key := replicate 16 7;
                  ctx_iv := [0; 0; 0; 0; 0; 0; 0; 0; 0; 0; 0; 0; 0; 0; 1; 5]
               |}.
Proof.
  split; [reflexivity|]. split; [reflexivity|].
  split; [cbn; lia|]. split; [cbn; lia|]. split; [cbn; lia|].
  apply (distinct_indices_give_distinct_ivs encrypt_env_ok sink_index_5
           (set_index 261 sink_encrypting));
    [reflexivity | reflexivity | cbn; lia | cbn; lia | cbn; lia].
Defined.

Lemma segment_iv_is_its_media_sequence_number_witness :
  playlist sink_index_5 = Some (gst_m3u8_playlist_new 3 5)
  /\ type (gst_m3u8_playlist_new 3 5) = GST_M3U8_PLAYLIST_TYPE_EVENT
  /\ 0 <= index sink_index_5 < 2 ^ 32
  /\ gst_hls_sink_init_encrypting (encrypt_env message_env)
       (fst (after_append message_env "/tmp/hls/segment00005.ts"
               2400000000 sink_index_5 world))
     = Some {| ctx_key := replicate 16 7;
               ctx_iv := [0; 0; 0; 0; 0; 0; 0; 0; 0; 0; 0; 0; 0; 0; 0; 5] |}
  /\ exists p1 : GstM3U8Playlist,
       playlist (fst (after_append message_env "/tmp/hls/segment00005.ts"
                        2400000000 sink_index_5 world)) = Some p1
       /\ ctx_iv {| ctx_key := replicate 16 7;
                    ctx_iv := [0; 0; 0; 0; 0; 0; 0; 0; 0; 0; 0; 0; 0; 0; 0;
                               5] |}
          = replicate 12 0
              ++ big_endian_32
                   (C.to_guint
                      (entry_media_sequence p1
                         (Z.of_nat (length (entries p1)) - 1))).
Proof.
  split; [reflexivity|]. split; [reflexivity|]. split; [cbn; lia|].
  split; [reflexivity|].
  apply (segment_iv_is_its_media_sequence_number message_env
           "/tmp/hls/segment00005.ts" 2400000000 sink_index_5 world
           (gst_m3u8_playlist_new 3 5));
    [reflexivity | reflexivity | cbn; lia | reflexivity].
Defined.

Lemma segment_duration_is_time_since_last_closure_witness :
  playlist sink_encrypting = Some (gst_m3u8_playlist_new 3 5)
  /\ type (gst_m3u8_playlist_new 3 5) = GST_M3U8_PLAYLIST_TYPE_EVENT
  /\ push_event_ok message_env = true
  /\ exists p3 : GstM3U8Playlist,
       playlist
         (fst (exec (gst_hls_sink_handle_message message_env
                       (segment_closed "/tmp/hls/segment00001.ts"
                          4800000000))
                 (exec (observe [buffer 2440000000; buffer 2480000000])
                    (exec (gst_hls_sink_handle_message message_env
                             (segment_closed "/tmp/hls/segment00000.ts"
                                2400000000))
                       (sink_encrypting, world)))))
       = Some p3
       /\ option_map duration (last (entries p3))
          = Some (FP.f32_of_Z (C.to_guint64 (4800000000 - 2400000000))).
Proof.
  split; [reflexivity|]. split; [reflexivity|]. split; [reflexivity|].
  apply (segment_duration_is_time_since_last_closure message_env
           message_env "/tmp/hls/segment00000.ts"
           "/tmp/hls/segment00001.ts" 2400000000 4800000000
           [buffer 2440000000; buffer 2480000000] sink_encrypting world
           (gst_m3u8_playlist_new 3 5));
    reflexivity.
Defined.

Lemma end_of_stream_writes_end_marker_witness :
  is_reset_index_on_stop sink_encrypting = true
  /\ playlist sink_encrypting = Some (gst_m3u8_playlist_new 3 5)
  /\ gst_m3u8_playlist_render
       (set_end_list true (gst_m3u8_playlist_new 3 5))
     = Some (empty_playlist_text 1 +:+ "#EXT-X-ENDLIST")
  /\ fst (exec (gst_hls_sink_handle_message message_env GST_MESSAGE_EOS)
            (sink_encrypting, world))
     = set_state
         (Z.lor (state sink_encrypting) GST_M3U8_PLAYLIST_RENDER_ENDED)
         (set_playlist
            (Some (set_end_list true (gst_m3u8_playlist_new 3 5)))
            sink_encrypting)
  /\ log (snd (exec (gst_hls_sink_handle_message message_env
                       GST_MESSAGE_EOS) (sink_encrypting, world)))
     = log world
         ++ [PlaylistWrite
               (Some (empty_playlist_text 1 +:+ "#EXT-X-ENDLIST"))
               (playlist_write_ok message_env)]
  /\ ends_with "#EXT-X-ENDLIST"
       (empty_playlist_text 1 +:+ "#EXT-X-ENDLIST") = true
  /\ (playlist_write_ok message_env = true ->
      files (snd (exec (gst_hls_sink_handle_message message_env
                          GST_MESSAGE_EOS) (sink_encrypting, world)))
        !! playlist_location sink_encrypting
      = Some (bytes_of_string
                (empty_playlist_text 1 +:+ "#EXT-X-ENDLIST"))).
Proof.
  split; [reflexivity|]. split; [reflexivity|]. split; [reflexivity|].
  apply (end_of_stream_writes_end_marker message_env sink_encrypting world
           (gst_m3u8_playlist_new 3 5)
           (empty_playlist_text 1 +:+ "#EXT-X-ENDLIST"));
    reflexivity.
Defined.

Lemma property_reads_back_witness :
  reads_back PROP_PLAYLIST_LENGTH = true
  /\ gst_hls_sink_set_property PROP_PLAYLIST_LENGTH (G_UINT 3)
       gst_hls_sink_init
     = Some (default gst_hls_sink_init
               (gst_hls_sink_set_property PROP_PLAYLIST_LENGTH (G_UINT 3)
                  gst_hls_sink_init))
  /\ gst_hls_sink_get_property discontinuity_sequence_number
       PROP_PLAYLIST_LENGTH
       (default gst_hls_sink_init
          (gst_hls_sink_set_property PROP_PLAYLIST_LENGTH (G_UINT 3)
             gst_hls_sink_init))
     = Some (G_UINT 3).
Proof.
  split; [reflexivity|]. split; [vm_compute; reflexivity|].
  apply (property_reads_back discontinuity_sequence_number
           PROP_PLAYLIST_LENGTH (G_UINT 3) gst_hls_sink_init);
    vm_compute; reflexivity.
Defined.

Lemma start_media_sequence_reads_playlist_witness :
  gst_hls_sink_set_property PROP_START_MEDIA_SEQUENCE (G_UINT 7)
    gst_hls_sink_init
  = Some (on_base (set_index 6) gst_hls_sink_init)
  /\ gst_hls_sink_get_property discontinuity_sequence_number
       PROP_START_MEDIA_SEQUENCE (on_base (set_index 6) gst_hls_sink_init)
     = option_map (fun p => G_UINT (sequence_number p))
         (playlist (base gst_hls_sink_init))
  /\ gst_hls_sink_get_property discontinuity_sequence_number
       PROP_START_MEDIA_SEQUENCE (on_base (set_index 6) gst_hls_sink_init)
     = gst_hls_sink_get_property discontinuity_sequence_number
         PROP_START_MEDIA_SEQUENCE gst_hls_sink_init.
Proof.
  split; [reflexivity|].
  apply (start_media_sequence_reads_playlist discontinuity_sequence_number
           (G_UINT 7) gst_hls_sink_init).
  reflexivity.
Defined.



Lemma window_size_follows_playlist_length_witness :
  Forall keeps_window session
  /\ calls session (gst_hls_sink_init, world)
     = Some (default (gst_hls_sink_init, world)
               (calls session (gst_hls_sink_init, world)))
  /\ option_map window_size
       (playlist (base (fst (default (gst_hls_sink_init, world)
                               (calls session (gst_hls_sink_init, world))))))
     = Some (playlist_length
               (base (fst (default (gst_hls_sink_init, world)
                             (calls session (gst_hls_sink_init, world)))))).
Proof.
  assert (H1 : Forall keeps_window session)
    by (repeat constructor).
  assert (H2 : calls session (gst_hls_sink_init, world)
               = Some (default (gst_hls_sink_init, world)
                         (calls session (gst_hls_sink_init, world))))
    by (vm_compute; reflexivity).
  split; [exact H1|]. split; [exact H2|].
  exact (window_size_follows_playlist_length session world _ H1 H2).
Defined.

Lemma manual_mode_sends_no_request_witness :
  target_duration (base element_manual) = 0
  /\ Forall keeps_manual session
  /\ calls session (element_manual, world)
     = Some (default (element_manual, world)
               (calls session (element_manual, world)))
  /\ exists sent : list Effect,
       log (snd (default (element_manual, world)
                   (calls session (element_manual, world))))
       = log world ++ sent
       /\ Forall (fun e => is_attempt e = false) sent.
Proof.
  assert (H1 : Forall keeps_manual session)
    by (repeat constructor).
  assert (H2 : calls session (element_manual, world)
               = Some (default (element_manual, world)
                         (calls session (element_manual, world))))
    by (vm_compute; reflexivity).
  split; [reflexivity|]. split; [exact H1|]. split; [exact H2|].
  exact (manual_mode_sends_no_request session element_manual world _
           eq_refl H1 H2).
Defined.

Lemma index_follows_answered_requests_witness :
  playlist (base gst_hls_sink_init) = Some (gst_m3u8_playlist_new 3 5)
  /\ type (gst_m3u8_playlist_new 3 5) = GST_M3U8_PLAYLIST_TYPE_EVENT
  /\ target_duration (base gst_hls_sink_init) <> 0
  /\ waiting_fku (base gst_hls_sink_init) = false
  /\ 0 <= index (base gst_hls_sink_init) < 2 ^ 32
  /\ buffer_timestamp (buffer 0) = Some 0
  /\ push_ok (buffer 0) = true
  /\ Forall (fun g => push_event_ok (closed_env g) = true)
       [closed 0 2400000000; closed 1 4800000000]
  /\ exists (st' : GstHlsSinkObject * World) (p' : GstM3U8Playlist)
            (t : Z),
       close_segments [closed 0 2400000000; closed 1 4800000000]
         (lift (gst_hls_sink_ghost_buffer_probe (buffer 0))
            (gst_hls_sink_init, world)) = Some st'
       /\ index (base (fst st'))
          = C.to_guint
              (index (base gst_hls_sink_init)
               + Z.of_nat (length [closed 0 2400000000;
                                   closed 1 4800000000]))
       /\ playlist (base (fst st')) = Some p'
       /\ ([closed 0 2400000000; closed 1 4800000000] <> [] ->
           sequence_number p' = C.to_guint (index (base (fst st')) + 1))
       /\ waiting_fku (base (fst st')) = true
       /\ last_request (snd st')
          = Some (t, C.to_guint (index (base (fst st')) + 1)).
Proof.
  assert (H : Forall (fun g => push_event_ok (closed_env g) = true)
                [closed 0 2400000000; closed 1 4800000000])
    by (repeat constructor).
  split; [reflexivity|]. split; [reflexivity|].
  split; [vm_compute; discriminate|]. split; [reflexivity|].
  split; [vm_compute; split; [discriminate | reflexivity]|].
  split; [reflexivity|]. split; [reflexivity|]. split; [exact H|].
  apply (index_follows_answered_requests
           [closed 0 2400000000; closed 1 4800000000] (buffer 0) 0
           gst_hls_sink_init world (gst_m3u8_playlist_new 3 5));
    [reflexivity | reflexivity | vm_compute; discriminate | reflexivity
    | vm_compute; split; [discriminate | reflexivity]
    | reflexivity | reflexivity | exact H].
Defined.

Lemma start_media_sequence_is_first_requested_index_witness :
  gst_hls_sink_set_property PROP_START_MEDIA_SEQUENCE (G_UINT 7)
    gst_hls_sink_init
  = Some (on_base (set_index 6) gst_hls_sink_init)
  /\ target_duration (base gst_hls_sink_init) <> 0
  /\ waiting_fku (base gst_hls_sink_init) = false
  /\ buffer_timestamp (buffer 0) = Some 0
  /\ push_ok (buffer 0) = true
  /\ option_map snd
       (last_request
          (snd (lift (gst_hls_sink_ghost_buffer_probe (buffer 0))
                  (on_base (set_index 6) gst_hls_sink_init, world))))
     = Some 7.
Proof.
  split; [reflexivity|]. split; [vm_compute; discriminate|].
  split; [reflexivity|]. split; [reflexivity|]. split; [reflexivity|].
  apply (start_media_sequence_is_first_requested_index 7 0 (buffer 0)
           gst_hls_sink_init (on_base (set_index 6) gst_hls_sink_init)
           world);
    [reflexivity | vm_compute; discriminate | reflexivity | reflexivity
    | reflexivity].
Defined.

Lemma stop_writes_the_end_marker_witness :
  playlist (base element_started) = Some (gst_m3u8_playlist_new 3 5)
  /\ is_reset_index_on_stop (base element_started) = true
  /\ Z.land (state (base element_started))
       GST_M3U8_PLAYLIST_RENDER_STARTED <> 0
  /\ Z.land (state (base element_started))
       GST_M3U8_PLAYLIST_RENDER_ENDED = 0
  /\ gst_m3u8_playlist_render
       (set_end_list true (gst_m3u8_playlist_new 3 5))
     = Some (empty_playlist_text 1 +:+ "#EXT-X-ENDLIST")
  /\ exists w' : World,
       gst_hls_sink_change_state state_env
         GST_STATE_CHANGE_PAUSED_TO_READY (element_started, world)
       = Some (parent_change_state state_env,
               (Element.gst_hls_sink_reset element_started, w'))
       /\ log w'
          = log world
              ++ [PlaylistWrite
                    (Some (empty_playlist_text 1 +:+ "#EXT-X-ENDLIST"))
                    (drain_write_ok state_env)]
       /\ ends_with "#EXT-X-ENDLIST"
            (empty_playlist_text 1 +:+ "#EXT-X-ENDLIST") = true
       /\ (drain_write_ok state_env = true ->
           files w' !! playlist_location (base element_started)
           = Some (bytes_of_string
                     (empty_playlist_text 1 +:+ "#EXT-X-ENDLIST"))).
Proof.
  split; [reflexivity|]. split; [reflexivity|].
  split; [vm_compute; discriminate|]. split; [reflexivity|].
  split; [reflexivity|].
  apply (stop_writes_the_end_marker state_env element_started world
           (gst_m3u8_playlist_new 3 5)
           (empty_playlist_text 1 +:+ "#EXT-X-ENDLIST"));
    [reflexivity | reflexivity | vm_compute; discriminate | reflexivity
    | reflexivity].
Defined.

Lemma stop_without_open_playlist_writes_nothing_witness :
  (Z.land (state (base gst_hls_sink_init))
     GST_M3U8_PLAYLIST_RENDER_STARTED = 0
   \/ Z.land (state (base gst_hls_sink_init))
        GST_M3U8_PLAYLIST_RENDER_ENDED <> 0)
  /\ gst_hls_sink_change_state state_env GST_STATE_CHANGE_PAUSED_TO_READY
       (gst_hls_sink_init, world)
     = Some (parent_change_state state_env,
             (Element.gst_hls_sink_reset gst_hls_sink_init, world)).
Proof.
  split; [left; reflexivity|].
  apply (stop_without_open_playlist_writes_nothing state_env
           gst_hls_sink_init world).
  left. reflexivity.
Defined.

Lemma missing_key_does_not_stop_the_sink_witness :
  fst (gst_hls_sink_create_elements (factory_make_ok state_env)
         element_encrypting) = true
  /\ encryption_method (base element_encrypting) <> GST_HLS_SINK_ENC_NONE
  /\ Element.key_location element_encrypting = Some "playlist.key"
  /\ (key_open_ok state_env = false \/ files world !! "playlist.key" = None)
  /\ gst_hls_sink_change_state state_env GST_STATE_CHANGE_NULL_TO_READY
       (element_encrypting, world)
     = Some (parent_change_state state_env,
             (snd (gst_hls_sink_create_elements
                     (factory_make_ok state_env) element_encrypting),
              world))
  /\ key (base (snd (gst_hls_sink_create_elements
                       (factory_make_ok state_env) element_encrypting)))
     = key (base element_encrypting).
Proof.
  split; [reflexivity|]. split; [vm_compute; discriminate|].
  split; [reflexivity|]. split; [right; reflexivity|].
  apply (missing_key_does_not_stop_the_sink state_env element_encrypting
           world "playlist.key");
    [reflexivity | vm_compute; discriminate | reflexivity
    | right; reflexivity].
Defined.

Lemma key_is_the_start_of_the_key_file_witness :
  Element.key_location gst_hls_sink_init = Some "playlist.key"
  /\ key_disk !! "playlist.key" = Some key_bytes
  /\ length (key (base gst_hls_sink_init)) = Z.to_nat AES_BLOCK_SIZE
  /\ exists o' : GstHlsSinkObject,
       gst_hls_sink_open_key true None key_disk gst_hls_sink_init = Some o'
       /\ length (key (base o')) = Z.to_nat AES_BLOCK_SIZE
       /\ (@None nat = None ->
           (Z.to_nat AES_BLOCK_SIZE <= length key_bytes)%nat ->
           key (base o') = take (Z.to_nat AES_BLOCK_SIZE) key_bytes)
       /\ (@None nat = None ->
           (length key_bytes < Z.to_nat AES_BLOCK_SIZE)%nat ->
           key (base o')
           = key_bytes
               ++ drop (length key_bytes) (key (base gst_hls_sink_init))).
Proof.
  split; [reflexivity|]. split; [reflexivity|]. split; [reflexivity|].
  apply (key_is_the_start_of_the_key_file None key_disk gst_hls_sink_init
           "playlist.key" key_bytes);
    reflexivity.
Defined.

Lemma restart_encrypts_without_key_line_witness :
  is_reset_index_on_stop (base element_encrypting) = true
  /\ encryption_method (base element_encrypting) <> GST_HLS_SINK_ENC_NONE
  /\ exists (st2 : GstHlsSinkObject * World) (p2 : GstM3U8Playlist)
            (outcome : encrypt_outcome) (written : bool),
       gst_hls_sink_change_state state_env GST_STATE_CHANGE_READY_TO_NULL
         (element_encrypting, world)
       = Some (parent_change_state state_env,
               (Element.gst_hls_sink_reset element_encrypting, world))
       /\ playlist (base (Element.gst_hls_sink_reset element_encrypting))
          = Some (gst_m3u8_playlist_new GST_M3U8_PLAYLIST_VERSION
                    (playlist_length (base element_encrypting)))
       /\ Pipeline.call
            (BusMessage message_env
               (segment_closed "/tmp/hls/segment00000.ts" 2400000000))
            (Element.gst_hls_sink_reset element_encrypting, world)
          = Some st2
       /\ playlist (base (fst st2)) = Some p2
       /\ M3U8.encryption_method p2 = 0
       /\ In (ChunkEncrypt "/tmp/hls/segment00000.ts" outcome)
            (log (snd st2))
       /\ In (PlaylistWrite (gst_m3u8_playlist_render p2) written)
            (log (snd st2)).
Proof.
  split; [reflexivity|]. split; [vm_compute; discriminate|].
  apply (restart_encrypts_without_key_line state_env message_env
           "/tmp/hls/segment00000.ts" 2400000000 element_encrypting world);
    [reflexivity | vm_compute; discriminate].
Defined.

Lemma target_duration_covers_measured_durations_witness :
  measured (playlist_of_durations [2400000001; 6006000000])
    [2400000001; 6006000000]
  /\ exists t : Z,
       gst_m3u8_playlist_target_duration
         (playlist_of_durations [2400000001; 6006000000])
       = Some t
       /\ Forall (fun d => d <= t * GST_SECOND) [2400000001; 6006000000]
       /\ t * GST_SECOND
          < max_ns [2400000001; 6006000000] + 2 * GST_SECOND.
Proof.
  assert (H : measured (playlist_of_durations [2400000001; 6006000000])
                [2400000001; 6006000000]).
  { split; [repeat constructor | repeat constructor; lia]. }
  split; [exact H|].
  exact (target_duration_covers_measured_durations
           (playlist_of_durations [2400000001; 6006000000])
           [2400000001; 6006000000] H).
Defined.

Lemma closed_segment_writes_a_defined_playlist_witness :
  playlist sink_encrypting = Some (gst_m3u8_playlist_new 3 5)
  /\ 3 <= version (gst_m3u8_playlist_new 3 5)
  /\ measured (gst_m3u8_playlist_new 3 5) []
  /\ 0 <= 2400000001 - last_running_time sink_encrypting < 2 ^ 52
  /\ exists (p' : GstM3U8Playlist) (ds' : list Z) (text : string)
            (written : bool),
       playlist
         (fst (exec (gst_hls_sink_handle_message message_env
                       (segment_closed "/tmp/hls/segment00000.ts"
                          2400000001)) (sink_encrypting, world)))
       = Some p'
       /\ 3 <= version p'
       /\ measured p' ds'
       /\ gst_m3u8_playlist_render p' = Some text
       /\ In (PlaylistWrite (Some text) written)
            (log (snd (exec (gst_hls_sink_handle_message message_env
                               (segment_closed "/tmp/hls/segment00000.ts"
                                  2400000001))
                         (sink_encrypting, world)))).
Proof.
  assert (H1 : playlist sink_encrypting = Some (gst_m3u8_playlist_new 3 5))
    by reflexivity.
  assert (H2 : 3 <= version (gst_m3u8_playlist_new 3 5)) by (cbn; lia).
  assert (H3 : measured (gst_m3u8_playlist_new 3 5) [])
    by (split; constructor).
  assert (H4 : 0 <= 2400000001 - last_running_time sink_encrypting
               < 2 ^ 52) by (cbn; lia).
  split; [exact H1|]. split; [exact H2|]. split; [exact H3|].
  split; [exact H4|].
  exact (closed_segment_writes_a_defined_playlist message_env
           "/tmp/hls/segment00000.ts" 2400000001 sink_encrypting world
           (gst_m3u8_playlist_new 3 5) [] H1 H2 H3 H4).
Defined.

End RunWitnesses.
